(** * ImageBot: session, album aggregation, dispatch and reply chunking

    A shallow embedding of [bot.py] (the Telegram handlers nested in
    [run_telegram_bot]) and of [processor.py] ([ImageProcessor.process]
    and its siblings) and of [_chunk_text] of [rag_store.py], with the
    properties of the session and aggregation engine proved over it.

    Conventions of the embedding.
    - A Python [str] holding user text is a list of Unicode code points
      ([text]); identifiers (model names, file ids, album ids) are
      [string]s.
    - [bytes] values are lists of [byte].
    - The two dictionaries of the bot, [media_groups] and
      [application.user_data], are finite maps.
    - In [Bot] a coroutine is one atomic step of the event loop, except
      that the trace records, with every outward effect, the store in
      which the effect was performed: the effects are the points at
      which the coroutine awaits. [Tasks] gives the same handlers with
      their suspension points, run among the other tasks of the loop.
    - A download, a call of the OpenAI client and [base64.b64decode]
      may raise; a message sent through the transport does not.
    - The chat that a handler answers is named by the user of the
      update; [ImageProcessor] is given its images as bytes, as bot.py
      gives them. *)

From Stdlib Require Import ZArith NArith Lia.
From Stdlib Require Import Strings.String Strings.Ascii Strings.Byte.
From stdpp Require Import base option list gmap strings.

Local Open Scope Z_scope.

(** ** Python text and slices *)

Definition char : Type := N.
Definition text : Type := list char.

(** The line feed, ["\n"]. *)
Definition nl : char := 10%N.

(** Reading an ASCII literal as text, for concrete inputs. *)
Definition of_ascii (s : string) : text :=
  map N_of_ascii (list_ascii_of_string s).

(** [len(x)] as a Python integer. *)
Definition len {A : Type} (l : list A) : Z := Z.of_nat (length l).

(** [l[:k]] for an arbitrary integer [k]: a negative bound counts from
    the end and an out-of-range bound is clamped. *)
Definition slice_to {A : Type} (l : list A) (k : Z) : list A :=
  if 0 <=? k then take (Z.to_nat k) l
  else take (length l - Z.to_nat (- k))%nat l.

(** [l[k:]] for a non-negative [k]. *)
Definition slice_from {A : Type} (l : list A) (k : nat) : list A :=
  drop k l.

(** [l[-k:]] for a positive literal [k]: the last [k] elements. *)
Definition last_n {A : Type} (k : nat) (l : list A) : list A :=
  drop (length l - k)%nat l.

(** [s.rfind(c)]: the highest index of [c] in [s], or [-1]. *)
Fixpoint rfind (c : char) (s : text) : Z :=
  match s with
  | [] => -1
  | x :: s' =>
      let r := rfind c s' in
      if 0 <=? r then r + 1
      else if N.eqb x c then 0 else -1
  end.

(** ** [chunk_text] (bot.py) *)

Module Chunk.

(** One pass of the body of [while text:]: the chunk that is appended. *)
Definition next_chunk (max_len : Z) (t : text) : text :=
  let chunk := slice_to t max_len in
  let last_nl := rfind nl chunk in
  if last_nl >? max_len / 2 then slice_to t (last_nl + 1) else chunk.

(** The [while text:] loop; [None] when the fuel runs out before the
    remainder is empty. *)
Fixpoint chunk_loop (fuel : nat) (max_len : Z) (t : text)
    (chunks : list text) : option (list text) :=
  match fuel with
  | O => None
  | S fuel' =>
      match t with
      | [] => Some chunks
      | _ :: _ =>
          let chunk := next_chunk max_len t in
          chunk_loop fuel' max_len (slice_from t (length chunk))
                     (chunks ++ [chunk])
      end
  end.

Definition chunk_text_fuel (fuel : nat) (t : text) (max_len : Z)
    : option (list text) :=
  if len t <=? max_len then
    Some (match t with [] => [] | _ :: _ => [t] end)
  else chunk_loop fuel max_len t [].

(** The loop runs at most [len(text) + 1] tests of its condition when
    [max_len] is positive. *)
Definition chunk_text (t : text) (max_len : Z) : option (list text) :=
  chunk_text_fuel (S (length t)) t max_len.

(** [TELEGRAM_MAX_MESSAGE], the default of [max_len]. *)
Definition TELEGRAM_MAX_MESSAGE : Z := 4000.

(** *** The cutting rule as a relation

    [cuts max_len t chunks]: [chunks] is obtained from [t] by cutting,
    repeatedly, either just after the last line feed of the window of
    [max_len] characters, when the index of that line feed exceeds
    [max_len // 2], or else at the end of the window. *)
Inductive cuts (max_len : Z) : text -> list text -> Prop :=
| cuts_done : cuts max_len [] []
| cuts_newline t i rest :
    t <> [] ->
    rfind nl (take (Z.to_nat max_len) t) = i ->
    max_len / 2 < i ->
    cuts max_len (drop (Z.to_nat (i + 1)) t) rest ->
    cuts max_len t (take (Z.to_nat (i + 1)) t :: rest)
| cuts_window t rest :
    t <> [] ->
    rfind nl (take (Z.to_nat max_len) t) <= max_len / 2 ->
    cuts max_len (drop (Z.to_nat max_len) t) rest ->
    cuts max_len t (take (Z.to_nat max_len) t :: rest).

(** *** The rule as the specification words it

    "if the last newline within the first half of the window exists,
    cuts there instead": the window is the first [max_len] characters,
    its first half the first [max_len // 2] of them. *)
Definition spec_next_chunk (max_len : Z) (t : text) : text :=
  let window := slice_to t max_len in
  let first_half := slice_to window (max_len / 2) in
  let last_nl := rfind nl first_half in
  if 0 <=? last_nl then slice_to t (last_nl + 1) else window.

End Chunk.

(** [str.isspace] on one code point; [s.strip()] removes such code
    points at both ends. *)
Definition isspace (c : char) : bool :=
  existsb (N.eqb c)
    [9; 10; 11; 12; 13; 28; 29; 30; 31; 32; 133; 160; 5760;
     8192; 8193; 8194; 8195; 8196; 8197; 8198; 8199; 8200; 8201; 8202;
     8232; 8233; 8239; 8287; 12288]%N.

Fixpoint lstrip (s : text) : text :=
  match s with
  | [] => []
  | c :: s' => if isspace c then lstrip s' else s
  end.

Definition strip (s : text) : text := rev (lstrip (rev (lstrip s))).

(** [needle in hay] for two texts. *)
Fixpoint starts_with (needle hay : text) : bool :=
  match needle, hay with
  | [], _ => true
  | _ :: _, [] => false
  | a :: needle', b :: hay' => N.eqb a b && starts_with needle' hay'
  end.

Fixpoint contains (needle hay : text) : bool :=
  starts_with needle hay
  || match hay with
     | [] => false
     | _ :: hay' => contains needle hay'
     end.

(** Truth value of a text, of an optional identifier, of a list. *)
Definition nonempty {A : Type} (l : list A) : bool :=
  match l with [] => false | _ :: _ => true end.

Definition truthy_id (o : option string) : bool :=
  match o with
  | None => false
  | Some s => negb (String.eqb s "")
  end.

(** ** Exceptions and the outer world *)

Inductive exn_class : Type := ValueError | IndexError | OtherException.

(** [str(e)]: the fixed messages of processor.py, or a text coming from
    the API client or the transport. *)
Inductive exn_text : Type :=
| ErrImageCount        (* "Количество изображений должно быть от 1 до 10" *)
| ErrEmptyCommand      (* "Текстовая команда не может быть пустой" *)
| ErrBadImage          (* "Неподдерживаемый или повреждённый файл изображения: ..." *)
| ErrNoImageReturned   (* "OpenAI не вернул изображение" *)
| ErrEmptyMessage      (* "Сообщение не может быть пустым" *)
| ErrEmptyDescription  (* "Текстовое описание не может быть пустым" *)
| ErrExternal (s : text).

(** An exception: its class as far as the [except] clauses tell classes
    apart, the [code] that [_format_image_error] reads off [exc.body]
    or [exc.code], and [str(exc)]. *)
Record exn : Type := Exn {
  exn_class_of : exn_class;
  exn_code : option string;
  exn_str : exn_text
}.

Definition value_error (m : exn_text) : exn := Exn ValueError None m.
Definition runtime_error (m : exn_text) : exn := Exn OtherException None m.

Definition image : Type := list byte.

#[global] Instance byte_eq_decision : EqDecision byte := Byte.byte_eq_dec.

(** What [_to_api_format] hands to the client: [(filename, buf, mime)],
    the file name being [image_<index>.<ext>]. *)
Record api_file : Type := ApiFile {
  af_index : nat;
  af_ext : string;
  af_data : image;
  af_mime : string
}.

Record edit_request : Type := EditRequest {
  er_model : string;
  er_image : list api_file;
  er_prompt : text;
  er_quality : string;
  er_size : string;
  er_output_format : string
}.

(** The keyword arguments of [images.generate]; [n = 1] throughout. *)
Record generate_request : Type := GenerateRequest {
  gr_prompt : text;
  gr_model : string;
  gr_size : string;
  gr_quality : option string;
  gr_output_format : option string;
  gr_response_format : option string
}.

(** One user message of [chat.completions.create]: the text and, in the
    variant with an image, the mime type and the data of the data URL. *)
Record chat_request : Type := ChatRequest {
  cr_model : string;
  cr_text : text;
  cr_image : option (string * image)
}.

Inductive api_call : Type :=
| ImagesEdit (r : edit_request)
| ImagesGenerate (r : generate_request)
| ChatCompletions (r : chat_request).

Record usage : Type := Usage {
  total_tokens : option Z;
  input_tokens : option Z;
  output_tokens : option Z
}.

(** The answer of the image endpoints: the strings [data[i].b64_json]
    (an absent field is the empty string: both are falsy) and [usage]. *)
Record images_response : Type := ImagesResponse {
  resp_data : list text;
  resp_usage : option usage
}.

(** The collaborators the code calls and does not define: the
    transport's download, Pillow's normalisation, the OpenAI client,
    [base64.b64decode] (which returns bytes, possibly none, or raises
    [binascii.Error]), and the constant text
    [ImageProcessor.SYSTEM_PROMPT]. *)
Record world : Type := World {
  download : string -> exn + image;
  normalize : image -> option (string * string * image);
  images_edit : edit_request -> exn + images_response;
  images_generate : generate_request -> exn + images_response;
  chat_completions : chat_request -> exn + text;
  b64decode : text -> exn + image;
  SYSTEM_PROMPT : text
}.

(** ** processor.py *)

Module Processor.

Inductive usage_str : Type :=
| TokensTotal (total : Z)
| TokensDetailed (total input output : Z).

(** [_format_usage] *)
Definition _format_usage (u : option usage) : option usage_str :=
  match u with
  | None => None
  | Some u =>
      match total_tokens u with
      | None => None
      | Some total =>
          if total <=? 0 then None
          else match input_tokens u, output_tokens u with
               | Some i, Some o => Some (TokensDetailed total i o)
               | _, _ => Some (TokensTotal total)
               end
      end
  end.

Definition MODEL : string := "gpt-image-1.5".
Definition QUALITY : string := "high".
Definition SIZE : string := "1536x1024".
Definition OUTPUT_FORMAT : string := "png".

(** [not prompt or not prompt.strip()] *)
Definition blank (prompt : text) : bool := negb (nonempty (strip prompt)).

(** [model or self.MODEL] *)
Definition model_or_default (model : string) : string :=
  if String.eqb model "" then MODEL else model.

Section WithWorld.
Variable w : world.

(** [_to_api_format(fileobj, index)] on bytes; a failure of Pillow is
    re-raised as [ValueError]. *)
Definition _to_api_format (item : image) (index : nat) : exn + api_file :=
  match normalize w item with
  | Some (ext, mime, buf) => inr (ApiFile index ext buf mime)
  | None => inl (value_error ErrBadImage)
  end.

(** The comprehension over [enumerate(image_files)]: the first failure
    ends it. *)
Fixpoint api_images_from (index : nat) (image_files : list image)
    : exn + list api_file :=
  match image_files with
  | [] => inr []
  | item :: rest =>
      match _to_api_format item index with
      | inl e => inl e
      | inr f =>
          match api_images_from (S index) rest with
          | inl e => inl e
          | inr fs => inr (f :: fs)
          end
      end
  end.

(** What follows the call, in [process] and in [process_create]: the
    test [not result.data or not result.data[0].b64_json], then
    [base64.b64decode], which may raise, then [_format_usage]. *)
Definition decode_result (result : images_response)
    : exn + (image * option usage_str) :=
  match resp_data result with
  | [] => inl (runtime_error ErrNoImageReturned)
  | d :: _ =>
      if nonempty d then
        match b64decode w d with
        | inl e => inl e
        | inr decoded => inr (decoded, _format_usage (resp_usage result))
        end
      else inl (runtime_error ErrNoImageReturned)
  end.

(** [ImageProcessor.process(images, prompt, model=model,
    quality=quality, size=size, output_format=output_format)] on a list
    of bytes, the form in which bot.py passes the images (a [Path] or a
    file object is not modelled), with the calls made to the client. *)
Definition process_with (images : list image) (prompt : text) (model : string)
    (quality size output_format : string)
    : (exn + (image * option usage_str)) * list api_call :=
  let model := model_or_default model in
  if negb ((1 <=? len images) && (len images <=? 10)) then
    (inl (value_error ErrImageCount), [])
  else
    let '(images, size) :=
      if String.eqb model "dall-e-2" && (1 <? len images)
      then (take 1 images, "1024x1024"%string)
      else (images, size) in
    if blank prompt then (inl (value_error ErrEmptyCommand), [])
    else
      match api_images_from 0 images with
      | inl e => (inl e, [])
      | inr api_images =>
          let req := EditRequest model api_images
                       (SYSTEM_PROMPT w ++ strip prompt)
                       quality size output_format in
          match images_edit w req with
          | inl e => (inl e, [ImagesEdit req])
          | inr result => (decode_result result, [ImagesEdit req])
          end
      end.

(** [ImageProcessor.process(images, prompt, model=model)]: the three
    other keywords at their defaults, which is how bot.py calls it. *)
Definition process (images : list image) (prompt : text) (model : string)
    : (exn + (image * option usage_str)) * list api_call :=
  process_with images prompt model QUALITY SIZE OUTPUT_FORMAT.

(** [process_text_with_image]: the mime type from the magic bytes. *)
Definition sniff_mime (data : image) : string :=
  if bool_decide (take 3 data = [xff; xd8; xff]) then "image/jpeg"
  else if bool_decide (take 8 data = [x89; x50; x4e; x47; x0d; x0a; x1a; x0a])
  then "image/png"
  else if bool_decide (take 4 data = [x52; x49; x46; x46])
          && bool_decide (take 4 (drop 8 data) = [x57; x45; x42; x50])
  then "image/webp"
  else "image/png".

Definition process_text_with_image (img : image) (prompt : text)
    (model : string) : (exn + text) * list api_call :=
  let req := ChatRequest model (strip prompt) (Some (sniff_mime img, img)) in
  (chat_completions w req, [ChatCompletions req]).

Definition process_text_only (prompt : text) (model : string)
    : (exn + text) * list api_call :=
  if blank prompt then (inl (value_error ErrEmptyMessage), [])
  else
    let req := ChatRequest model (strip prompt) None in
    (chat_completions w req, [ChatCompletions req]).

(** [ImageProcessor.process_create(prompt, model=model,
    quality=quality, size=size, output_format=output_format)] *)
Definition process_create_with (prompt : text) (model : string)
    (quality size output_format : string)
    : (exn + (image * option usage_str)) * list api_call :=
  let model := model_or_default model in
  if blank prompt then (inl (value_error ErrEmptyDescription), [])
  else
    let '(size, quality) :=
      if String.eqb model "dall-e-2"
      then ("1024x1024"%string, "standard"%string)
      else (size, quality) in
    let req :=
      if String.prefix "dall-e" model
      then GenerateRequest (strip prompt) model size None None (Some "b64_json"%string)
      else GenerateRequest (strip prompt) model size (Some quality)
                           (Some output_format) None in
    match images_generate w req with
    | inl e => (inl e, [ImagesGenerate req])
    | inr result => (decode_result result, [ImagesGenerate req])
    end.

(** [ImageProcessor.process_create(prompt, model=model)]: the three
    other keywords at their defaults, which is how bot.py calls it. *)
Definition process_create (prompt : text) (model : string)
    : (exn + (image * option usage_str)) * list api_call :=
  process_create_with prompt model QUALITY SIZE OUTPUT_FORMAT.

End WithWorld.
End Processor.

(** ** bot.py: the Telegram handlers of [run_telegram_bot] *)

Module Bot.
Import Processor.

(** *** What the transport delivers *)

Record photo_size : Type := PhotoSize {
  ps_file_id : string;
  ps_file_size : Z
}.

Record document : Type := Document {
  doc_file_id : string;
  doc_mime_type : option string
}.

Record message : Type := Message {
  msg_text : option text;
  msg_caption : option text;
  msg_media_group_id : option string;
  msg_photo : list photo_size;
  msg_document : option document
}.

(** An update: [update.effective_user.id] and [update.message]. *)
Record update : Type := Update {
  effective_user : Z;
  upd_message : message
}.

(** *** The two dictionaries *)

(** [context.user_data]: the keys ["model"] and ["pending_images"],
    each possibly absent. *)
Record user_data : Type := UserData {
  ud_model : option string;
  ud_pending_images : option (list image)
}.

(** A value of [media_groups]. *)
Record group : Type := Group {
  file_ids : list string;
  caption : text;
  user_id : Z;
  first_update : update
}.

(** [media_groups] and [application.user_data]. A user without entry
    has the empty dictionary. *)
Record store : Type := Store {
  media_groups : gmap string group;
  users : gmap Z user_data
}.

Definition no_user_data : user_data := UserData None None.

Definition user_data_of (s : store) (uid : Z) : user_data :=
  default no_user_data (users s !! uid).

(** [user_data.get("pending_images", [])] *)
Definition pending_images (ud : user_data) : list image :=
  default [] (ud_pending_images ud).

Definition pending_of (s : store) (uid : Z) : list image :=
  pending_images (user_data_of s uid).

(** *** What the bot says *)

Inductive reply : Type :=
| MsgStart                              (* the greeting of /start *)
| MsgHelp                               (* the text of /help *)
| MsgModeSet (model : string)           (* "✅ Модель: ... (режим сохранён)" and its variants *)
| MsgCreateTextOnly (mode_name : string)   (* "В режиме {mode_name} отправьте только текстовое описание изображения (без фото)." *)
| MsgCreateNeedCaption (mode_name : string) (* "В режиме {mode_name} отправьте текстовое описание (подпись к фото)." *)
| MsgImagesOnly                         (* "Поддерживаются только изображения (PNG, JPEG)." *)
| MsgMax10                              (* "Максимум 10 изображений. Используйте последние 10." / "... Использую последние 10." *)
| MsgReceived (n : Z) (model_label : string) (* "Получено {n} изображений. Модель: {model_label} ..." *)
| MsgEnterDescription                   (* "Введите текстовое описание изображения." *)
| MsgDescriptionCut4000                 (* "Описание обрезано до 4000 символов." *)
| MsgDalleCut1000                       (* "DALL-E 2: описание обрезано до 1000 символов." *)
| MsgEnterMessage                       (* "Введите сообщение или отправьте фото с подписью." *)
| MsgPromptCut4000                      (* "Промпт обрезан до 4000 символов." *)
| MsgSendImageFirst                     (* "Сначала отправьте изображение, затем команду текстом." *)
| MsgGenerating (model_label : string)  (* "Генерирую изображение ({model_label})…" *)
| MsgWorking                            (* "Обрабатываю…" *)
| MsgWorkingImages (model_label : string) (* "Обрабатываю изображения ({model_label})…" *)
| MsgEmptyAnswer                        (* "(Пустой ответ)" *)
| MsgPart (part : text)                 (* one chunk of the answer *)
| MsgStr (e : exn_text)                 (* str(e) *)
| MsgError (e : exn_text)               (* "Ошибка: {e}" *)
| MsgModerationBlocked.                 (* "⚠️ Запрос отклонён системой безопасности OpenAI. ..." *)

(** The effects a handler performs, in the order it performs them.
    [chat] is the user of the update that is answered. The temporary
    file [temp_output.png] of [reply_photo] is not recorded. *)
Inductive action : Type :=
| ReplyText (chat : Z) (m : reply)
| EditText (chat : Z) (m : reply)
| DeleteMessage (chat : Z)
| ReplyPhoto (chat : Z) (photo : image) (model_label : string)
             (usage_line : option usage_str)
| GetFile (fid : string)
| CreateTask (group_id : string)
| ApiCall (c : api_call).

(** Each effect is recorded with the store in which it happens. *)
Definition trace : Type := list (store * action).

(** *** Constants *)

Definition DEFAULT_MODEL : string := "gpt-image-1.5".

Definition MODEL_LABELS (model : string) : option string :=
  if String.eqb model "gpt-image-1" then Some "gpt-image-1"
  else if String.eqb model "gpt-image-1.5" then Some "gpt-image-1.5"
  else if String.eqb model "dall-e-2" then Some "DALL-E 2"
  else if String.eqb model "create" then Some "gpt-image-1.5 (create)"
  else if String.eqb model "dalle_create" then Some "DALL-E 2 (create)"
  else None.

(** [MODEL_LABELS.get(model, model)] *)
Definition label_of (model : string) : string :=
  default model (MODEL_LABELS model).

(** ["DALL-E Gen" if model == "dalle_create" else "Create"] *)
Definition mode_name_of (model : string) : string :=
  if String.eqb model "dalle_create" then "DALL-E Gen" else "Create".

(** [model in ("create", "dalle_create")] *)
Definition is_create (model : string) : bool :=
  String.eqb model "create" || String.eqb model "dalle_create".

(** The marker ["\n\n[... обрезано]"], as code points. *)
Definition cut_marker : text :=
  [10; 10; 91; 46; 46; 46; 32;
   1086; 1073; 1088; 1077; 1079; 1072; 1085; 1086; 93]%N.

(** ["moderation_blocked"] *)
Definition moderation_blocked : text := of_ascii "moderation_blocked".

(** ["moderation_blocked" in str(exc)] *)
Definition mentions_moderation (e : exn) : bool :=
  match exn_str e with
  | ErrExternal s => contains moderation_blocked s
  | _ => false
  end.

(** [_format_image_error] *)
Definition _format_image_error (e : exn) : reply :=
  let code :=
    match exn_code e with
    | Some c => if String.eqb c "" then None else Some c
    | None => None
    end in
  let code :=
    match code with
    | Some c => Some c
    | None => if mentions_moderation e then Some "moderation_blocked"%string
              else None
    end in
  match code with
  | Some c => if String.eqb c "moderation_blocked" then MsgModerationBlocked
              else MsgStr (exn_str e)
  | None => MsgStr (exn_str e)
  end.

(** [get_model]: [user_data.get("model", DEFAULT_MODEL)] *)
Definition get_model (ud : user_data) : string :=
  default DEFAULT_MODEL (ud_model ud).

(** [max(message.photo, key=lambda p: p.file_size)]: the first of the
    largest sizes. *)
Fixpoint max_from (best : photo_size) (rest : list photo_size) : photo_size :=
  match rest with
  | [] => best
  | p :: rest' =>
      max_from (if ps_file_size best <? ps_file_size p then p else best) rest'
  end.

(** [(doc.mime_type or "").startswith("image/")] *)
Definition is_image_mime (d : document) : bool :=
  String.prefix "image/" (default ""%string (doc_mime_type d)).

(** *** The monad of handlers: store, trace, exceptions *)

Definition M (A : Type) : Type := store -> (exn + A) * store * trace.

Definition ret {A : Type} (x : A) : M A := fun s => (inr x, s, []).

Definition bind {A B : Type} (c : M A) (k : A -> M B) : M B :=
  fun s =>
    match c s with
    | (inl e, s1, t1) => (inl e, s1, t1)
    | (inr x, s1, t1) =>
        let '(r, s2, t2) := k x s1 in (r, s2, t1 ++ t2)
    end.

#[global] Instance M_ret : MRet M := @ret.
#[global] Instance M_bind : MBind M := fun A B k c => bind c k.

Definition emit (a : action) : M unit := fun s => (inr tt, s, [(s, a)]).

(** The stores that the assignments below produce. *)
Definition with_pending (s : store) (uid : Z) (images : list image) : store :=
  Store (media_groups s)
        (<[uid := UserData (ud_model (user_data_of s uid)) (Some images)]>
           (users s)).

Definition with_model (s : store) (uid : Z) (model : string) : store :=
  Store (media_groups s)
        (<[uid := UserData (Some model)
                           (ud_pending_images (user_data_of s uid))]>
           (users s)).

Definition without_group (s : store) (group_id : string) : store :=
  Store (delete group_id (media_groups s)) (users s).

(** [media_groups[group_id]["file_ids"].append(file_id)] *)
Definition add_file_id (file_id : string) (data : group) : group :=
  Group (file_ids data ++ [file_id]) (caption data) (user_id data)
        (first_update data).

Definition get_user_data (uid : Z) : M user_data :=
  fun s => (inr (user_data_of s uid), s, []).

(** [user_data["pending_images"] = images] *)
Definition set_pending_images (uid : Z) (images : list image) : M unit :=
  fun s => (inr tt, with_pending s uid images, []).

(** [set_model]: [context.user_data["model"] = model] *)
Definition set_model (uid : Z) (model : string) : M string :=
  fun s => (inr model, with_model s uid model, []).

(** [group_id in media_groups] *)
Definition group_is_open (group_id : string) : M bool :=
  fun s => (inr (bool_decide (is_Some (media_groups s !! group_id))), s, []).

Definition group_append (group_id file_id : string) : M unit :=
  fun s =>
    (inr tt,
     Store (alter (add_file_id file_id) group_id (media_groups s)) (users s),
     []).

(** [media_groups[group_id] = data] *)
Definition group_open (group_id : string) (data : group) : M unit :=
  fun s => (inr tt, Store (<[group_id := data]> (media_groups s)) (users s), []).

(** [media_groups.pop(group_id, None)] *)
Definition group_pop (group_id : string) : M (option group) :=
  fun s => (inr (media_groups s !! group_id), without_group s group_id, []).

(** [update.message.reply_text(m)]; the chat of the message is named
    by the user of the update. *)
Definition reply_text (upd : update) (m : reply) : M unit :=
  emit (ReplyText (effective_user upd) m).

Section WithWorld.
Variable w : world.

(** [bot.get_file(fid)] followed by [download_as_bytearray()] *)
Definition get_file (fid : string) : M image :=
  fun s => (download w fid, s, [(s, GetFile fid)]).

(** [asyncio.to_thread(f, ...)] inside a [try]: the calls made to the
    client are recorded, the outcome is handed to the [except] clauses. *)
Definition to_thread {A : Type} (r : (exn + A) * list api_call)
    : M (exn + A) :=
  fun s => (inr (fst r), s, map (fun c => (s, ApiCall c)) (snd r)).

Fixpoint reply_parts (upd : update) (parts : list text) : M unit :=
  match parts with
  | [] => mret tt
  | part :: rest => reply_text upd (MsgPart part);; reply_parts upd rest
  end.

(** The three image branches of [process_and_reply] after the call:
    [except ValueError], [except Exception], and the photo reply. *)
Definition finish_image (upd : update) (label : string)
    (r : exn + (image * option usage_str)) : M unit :=
  let chat := effective_user upd in
  match r with
  | inl e =>
      match exn_class_of e with
      | ValueError => emit (EditText chat (MsgStr (exn_str e)))
      | _ => emit (EditText chat (_format_image_error e))
      end
  | inr (result_bytes, usage_line) =>
      emit (ReplyPhoto chat result_bytes label usage_line);;
      emit (DeleteMessage chat)
  end.

(** [process_and_reply(update, context, images, prompt)];
    [ctx] is the user whose [user_data] the context carries. *)
Definition process_and_reply (upd : update) (ctx : Z)
    (images : list image) (prompt : text) : M unit :=
  let chat := effective_user upd in
  ud ← get_user_data ctx;
  let model := get_model ud in
  if String.eqb model "create" then
    reply_text upd (MsgGenerating (label_of model));;
    r ← to_thread (process_create w prompt "gpt-image-1.5");
    finish_image upd (label_of model) r
  else if String.eqb model "dalle_create" then
    reply_text upd (MsgGenerating (label_of model));;
    r ← to_thread (process_create w prompt "dall-e-2");
    finish_image upd (label_of model) r
  else if String.eqb model "gpt-5.2" then
    reply_text upd MsgWorking;;
    r ← (if nonempty images then
           let images := if 1 <? len images then take 1 images else images in
           match images with
           | img :: _ => to_thread (process_text_with_image w img prompt model)
           | [] => mret (inl (Exn IndexError None (ErrExternal [])))
           end
         else to_thread (process_text_only w prompt model));
    match r with
    | inl e =>
        match exn_class_of e with
        | ValueError | IndexError => emit (EditText chat (MsgStr (exn_str e)))
        | OtherException => emit (EditText chat (MsgError (exn_str e)))
        end
    | inr result_text =>
        emit (DeleteMessage chat);;
        match Chunk.chunk_text result_text Chunk.TELEGRAM_MAX_MESSAGE with
        | Some [] | None => reply_text upd MsgEmptyAnswer
        | Some parts => reply_parts upd parts
        end
    end
  else
    reply_text upd (MsgWorkingImages (label_of model));;
    r ← to_thread (process w images prompt model);
    finish_image upd (label_of model) r.

(** [text[:n] + "\n\n[... обрезано]"] *)
Definition cut_to (n : nat) (t : text) : text := take n t ++ cut_marker.

(** [handle_text] *)
Definition handle_text (upd : update) : M unit :=
  let message := upd_message upd in
  let user := effective_user upd in
  let text := strip (default [] (msg_text message)) in
  ud ← get_user_data user;
  let images := pending_images ud in
  if String.eqb (get_model ud) "create" then
    if negb (nonempty text) then reply_text upd MsgEnterDescription
    else
      text ← (if 4000 <? len text
              then reply_text upd MsgDescriptionCut4000;; mret (cut_to 4000 text)
              else mret text);
      set_pending_images user [];;
      process_and_reply upd user [] text
  else if String.eqb (get_model ud) "dalle_create" then
    if negb (nonempty text) then reply_text upd MsgEnterDescription
    else
      text ← (if 1000 <? len text
              then reply_text upd MsgDalleCut1000;; mret (cut_to 1000 text)
              else mret text);
      set_pending_images user [];;
      process_and_reply upd user [] text
  else if String.eqb (get_model ud) "gpt-5.2" then
    if negb (nonempty text) then reply_text upd MsgEnterMessage
    else
      text ← (if 4000 <? len text
              then reply_text upd MsgPromptCut4000;; mret (cut_to 4000 text)
              else mret text);
      set_pending_images user [];;
      process_and_reply upd user images text
  else if negb (nonempty images) then reply_text upd MsgSendImageFirst
  else
    text ← (if 4000 <? len text
            then reply_text upd MsgPromptCut4000;; mret (cut_to 4000 text)
            else mret text);
    set_pending_images user [];;
    process_and_reply upd user images text.

(** The tail shared, up to the order of the warning and the slice, by
    the single-photo path of [handle_images] and by the album flush:
    the cap of 10, then dispatch or storage. [target] is the update
    answered, [uid] the owner of the buffer. *)
Definition cap_and_route (target : update) (uid : Z) (model : string)
    (images : list image) (cap : text) : M unit :=
  images ← (if 10 <? len images
            then reply_text target MsgMax10;; mret (last_n 10 images)
            else mret images);
  if nonempty cap then
    set_pending_images uid [];;
    process_and_reply target uid images cap
  else
    set_pending_images uid images;;
    reply_text target (MsgReceived (len images) (label_of model)).

(** The file id an album part contributes: the largest photo size, or
    the document when it is an image. *)
Definition album_file_id (message : message) : option string :=
  match msg_photo message, msg_document message with
  | p :: ps, _ => Some (ps_file_id (max_from p ps))
  | [], Some d => if is_image_mime d then Some (doc_file_id d) else None
  | [], None => None
  end.

(** The album branch of [handle_images], once [file_id] is known. *)
Definition collect_album (upd : update) (group_id file_id : string)
    (cap : text) : M unit :=
  is_open ← group_is_open group_id;
  if is_open : bool then group_append group_id file_id
  else
    group_open group_id (Group [file_id] cap (effective_user upd) upd);;
    emit (CreateTask group_id).

(** [handle_images] *)
Definition handle_images (upd : update) : M unit :=
  let message := upd_message upd in
  let user := effective_user upd in
  let cap := strip (default [] (msg_caption message)) in
  ud ← get_user_data user;
  let model := get_model ud in
  if is_create model && negb (truthy_id (msg_media_group_id message)) then
    if nonempty cap then
      set_pending_images user [];;
      process_and_reply upd user [] cap
    else reply_text upd (MsgCreateTextOnly (mode_name_of model))
  else if truthy_id (msg_media_group_id message) then
    let file_id := album_file_id message in
    if truthy_id file_id then
      collect_album upd (default ""%string (msg_media_group_id message))
                    (default ""%string file_id) cap
    else
      match msg_document message with
      | Some _ => reply_text upd MsgImagesOnly
      | None => mret tt
      end
  else
    let images := if String.eqb model "gpt-5.2" then [] else pending_images ud in
    match msg_photo message, msg_document message with
    | p :: ps, _ =>
        file ← get_file (ps_file_id (max_from p ps));
        cap_and_route upd user model (images ++ [file]) cap
    | [], Some d =>
        if negb (is_image_mime d) then reply_text upd MsgImagesOnly
        else
          file ← get_file (doc_file_id d);
          cap_and_route upd user model (images ++ [file]) cap
    | [], None => cap_and_route upd user model images cap
    end.

(** The download loop of the flush. *)
Fixpoint download_all (fids : list string) (images : list image)
    : M (list image) :=
  match fids with
  | [] => mret images
  | fid :: rest =>
      file ← get_file fid;
      download_all rest (images ++ [file])
  end.

(** [process_media_group_after_delay] once [data] has been popped. *)
Definition process_media_group (data : group) : M unit :=
  let cap := caption data in
  let target := first_update data in
  let uid := user_id data in
  ud ← get_user_data uid;
  let model := get_model ud in
  if is_create model then
    set_pending_images uid [];;
    if nonempty cap then process_and_reply target uid [] cap
    else reply_text target (MsgCreateNeedCaption (mode_name_of model))
  else
    images ← download_all (file_ids data) [];
    ud' ← get_user_data uid;
    let existing := pending_images ud' in
    let images := if String.eqb model "gpt-5.2" then take 1 images
                  else existing ++ images in
    cap_and_route target uid model images cap.

(** [process_media_group_after_delay(group_id, bot, application)], from
    the moment [asyncio.sleep] returns: [media_groups.pop(group_id,
    None)], and nothing more when the group is gone. *)
Definition process_media_group_after_delay (group_id : string) : M unit :=
  data ← group_pop group_id;
  match data with
  | None => mret tt
  | Some data => process_media_group data
  end.

(** The mode commands. *)
Inductive command : Type :=
| CmdStart | CmdText | CmdImage1 | CmdImage15
| CmdDalle | CmdCreate | CmdDalleGen | CmdHelp.

(** The model a command passes to [set_model]; [/help] passes none. *)
Definition command_model (c : command) : option string :=
  match c with
  | CmdStart | CmdText => Some "gpt-5.2"
  | CmdImage1 => Some "gpt-image-1"
  | CmdImage15 => Some "gpt-image-1.5"
  | CmdDalle => Some "dall-e-2"
  | CmdCreate => Some "create"
  | CmdDalleGen => Some "dalle_create"
  | CmdHelp => None
  end%string.

(** [start], [cmd_text], [cmd_image1], [cmd_image15], [cmd_dalle],
    [cmd_create], [cmd_dalle_gen], [cmd_help]. *)
Definition handle_command (c : command) (upd : update) : M unit :=
  match command_model c with
  | Some model =>
      set_model (effective_user upd) model;;
      reply_text upd (match c with CmdStart => MsgStart | _ => MsgModeSet model end)
  | None => reply_text upd MsgHelp
  end.

(** *** The event loop *)

Inductive event : Type :=
| Command (c : command) (upd : update)
| Images (upd : update)
| Text (upd : update)
| Flush (group_id : string).

Definition handle (ev : event) : M unit :=
  match ev with
  | Command c upd => handle_command c upd
  | Images upd => handle_images upd
  | Text upd => handle_text upd
  | Flush group_id => process_media_group_after_delay group_id
  end.

(** Events handled one after the other. An exception ends the handler
    that raised it and leaves the loop running. *)
Fixpoint run (evs : list event) (s : store) : store * trace :=
  match evs with
  | [] => (s, [])
  | ev :: rest =>
      let '(_, s1, t1) := handle ev s in
      let '(s2, t2) := run rest s1 in
      (s2, t1 ++ t2)
  end.

End WithWorld.

(** The actions of a trace, without the stores. *)
Definition actions (t : trace) : list action := map snd t.

Definition is_api_call (a : action) : bool :=
  match a with ApiCall _ => true | _ => false end.

(** The calls made to the client, in order. *)
Definition api_calls (t : trace) : list api_call :=
  omap (fun a => match a with ApiCall c => Some c | _ => None end)
       (actions t).

(** The ids of the files fetched, in order. *)
Definition fetched (t : trace) : list string :=
  omap (fun a => match a with GetFile fid => Some fid | _ => None end)
       (actions t).

(** The edit modes: every model that is neither the chat model nor one
    of the two text-to-image modes. *)
Definition is_edit_mode (model : string) : bool :=
  negb (is_create model) && negb (String.eqb model "gpt-5.2").

(** The album, if any, that an event adds a part to, and the part. *)
Definition album_part (group_id : string) (ev : event) : option string :=
  match ev with
  | Images upd =>
      let message := upd_message upd in
      if truthy_id (msg_media_group_id message)
         && bool_decide (msg_media_group_id message = Some group_id)
         && truthy_id (album_file_id message)
      then album_file_id message
      else None
  | _ => None
  end.

(** Every download of the list succeeds, with these results. *)
Fixpoint downloads (w : world) (fids : list string) : option (list image) :=
  match fids with
  | [] => Some []
  | fid :: rest =>
      match download w fid, downloads w rest with
      | inr file, Some files => Some (file :: files)
      | _, _ => None
      end
  end.

(** *** Vocabulary of the proofs *)

Definition result_of {A : Type} (x : (exn + A) * store * trace) : exn + A :=
  fst (fst x).
Definition store_of {A : Type} (x : (exn + A) * store * trace) : store :=
  snd (fst x).
Definition trace_of {A : Type} (x : (exn + A) * store * trace) : trace :=
  snd x.

(** [c] raises nothing, leaves the store as it is, and so performs all
    its effects in that store; the effects satisfy [P]. *)
Definition quiet {A : Type} (P : action -> Prop) (c : M A) : Prop :=
  forall s : store,
    exists (x : A) (t : trace),
      c s = (inr x, s, t) /\ Forall (fun sa => fst sa = s /\ P (snd sa)) t.

(** Effects other than downloads and task creation. *)
Definition answers (a : action) : Prop :=
  match a with
  | GetFile _ | CreateTask _ => False
  | _ => True
  end.

(** No condition on a returned value. *)
Definition any_value {A : Type} (x : A) : Prop := True.

(** [c] keeps the property [I] of the store, at each of its effects
    and when it ends, normally or not; a value it returns satisfies [Q]. *)
Definition keeps {A : Type} (I : store -> Prop) (Q : A -> Prop) (c : M A)
    : Prop :=
  forall s : store,
    I s ->
    I (store_of (c s))
    /\ Forall (fun sa => I (fst sa)) (trace_of (c s))
    /\ (forall x : A, result_of (c s) = inr x -> Q x).

(** [I] does not look at the entry [group_id] of [media_groups]. *)
Definition ignores_group (I : store -> Prop) (group_id : string) : Prop :=
  forall (s : store) (groups : gmap string group),
    (forall k : string, k <> group_id -> groups !! k = media_groups s !! k) ->
    I s -> I (Store groups (users s)).


(** The user whose buffer an event works on. *)
Definition owner (ev : event) (s : store) : Z :=
  match ev with
  | Command _ upd | Images upd | Text upd => effective_user upd
  | Flush group_id =>
      match media_groups s !! group_id with
      | Some data => user_id data
      | None => 0
      end
  end.

(** Every buffer holds at most 10 images. *)
Definition buffers_capped (s : store) : Prop :=
  forall uid : Z, (length (pending_of s uid) <= 10)%nat.

(** The model of a user, and whether an album is open. *)
Definition model_of (s : store) (uid : Z) : string :=
  get_model (user_data_of s uid).

(** The entry of an album in [media_groups] is [v]. *)
Definition album_is (group_id : string) (v : option group) (s : store) : Prop :=
  media_groups s !! group_id = v.

(** The file ids of an album after further parts. *)
Definition collected (before : option (list string)) (parts : list string)
    : option (list string) :=
  match parts with
  | [] => before
  | _ :: _ => Some (default [] before ++ parts)
  end.

End Bot.

(** ** rag_store.py: [_chunk_text] *)

Module Rag.

Definition CHUNK_SIZE : Z := 500.
Definition CHUNK_OVERLAP : Z := 50.

(** The space, [" "]. *)
Definition space : char := 32%N.

(** A slice bound [i] on a sequence of length [n]: a negative bound
    counts from the end, and the result is clamped to [0 .. n]. *)
Definition clamp_index (n i : Z) : Z :=
  if i <? 0 then Z.max 0 (i + n) else Z.min i n.

(** [l[a:b]] for arbitrary integers. *)
Definition slice {A : Type} (l : list A) (a b : Z) : list A :=
  let a' := clamp_index (len l) a in
  let b' := clamp_index (len l) b in
  take (Z.to_nat (b' - a')) (drop (Z.to_nat a') l).

(** One pass of the body of [while start < len(text):]: the chunk after
    [chunk.strip()] and the next value of [start]. *)
Definition chunk_step (chunk_size overlap : Z) (t : text) (start : Z)
    : text * Z :=
  let end_ := start + chunk_size in
  let chunk := slice t start end_ in
  let '(chunk, end_) :=
    if end_ <? len t then
      let last_space := rfind space chunk in
      if last_space >? chunk_size / 2
      then (slice_to chunk (last_space + 1), start + last_space + 1)
      else (chunk, end_)
    else (chunk, end_) in
  (strip chunk, if end_ <? len t then end_ - overlap else len t).

(** The loop; [None] when the fuel runs out. *)
Fixpoint chunk_loop (fuel : nat) (chunk_size overlap : Z) (t : text)
    (start : Z) (chunks : list text) : option (list text) :=
  match fuel with
  | O => None
  | S fuel' =>
      if start <? len t then
        let '(chunk, start') := chunk_step chunk_size overlap t start in
        chunk_loop fuel' chunk_size overlap t start'
                   (if nonempty chunk then chunks ++ [chunk] else chunks)
      else Some chunks
  end.

Definition _chunk_text_fuel (fuel : nat) (t : text) (chunk_size overlap : Z)
    : option (list text) :=
  if negb (nonempty (strip t)) then Some []
  else chunk_loop fuel chunk_size overlap (strip t) 0 [].

(** [start] grows by at least one in each pass when
    [0 <= overlap <= chunk_size // 2] and [chunk_size] is positive, as
    with the defaults 500 and 50. *)
Definition _chunk_text (t : text) (chunk_size overlap : Z)
    : option (list text) :=
  _chunk_text_fuel (S (length t)) t chunk_size overlap.

End Rag.

(** ** Further vocabulary *)

(** A text without white space at either end. *)
Definition trimmed (t : text) : Prop :=
  match t with
  | [] => True
  | c :: _ => isspace c = false /\ (exists d : char, last t = Some d /\ isspace d = false)
  end.

(** The images that [process] sends: the first one for dall-e-2 with a
    batch of several, all of them otherwise; and the size it asks for. *)
Definition sent_images (model : string) (images : list image) : list image :=
  if String.eqb (Processor.model_or_default model) "dall-e-2" && (1 <? len images)
  then take 1 images else images.

Definition sent_size (model : string) (images : list image) : string :=
  if String.eqb (Processor.model_or_default model) "dall-e-2" && (1 <? len images)
  then "1024x1024"%string else Processor.SIZE.

(** [piece] occurs in [whole] as a contiguous run. *)
Definition occurs_in (piece whole : text) : Prop :=
  exists pre post : text, whole = pre ++ piece ++ post.

Module Trace.
Import Bot.

(** The limit on the instruction in each mode, the warning sent when it
    is exceeded, and the instruction passed on. *)
Definition text_limit (model : string) : nat :=
  if String.eqb model "dalle_create" then 1000%nat else 4000%nat.

Definition cut_warning (model : string) : reply :=
  if String.eqb model "create" then MsgDescriptionCut4000
  else if String.eqb model "dalle_create" then MsgDalleCut1000
  else MsgPromptCut4000.

Definition instruction_of (model : string) (t : text) : text :=
  if Z.of_nat (text_limit model) <? len t then cut_to (text_limit model) t else t.

(** The images that [handle_text] passes on: none in the text-to-image
    modes, the buffer otherwise. *)
Definition dispatched_images (model : string) (pending : list image)
    : list image :=
  if is_create model then [] else pending.

(** Whether [handle_text] dispatches: it needs buffered images in an
    edit mode, a non-empty text otherwise. *)
Definition text_dispatches (model : string) (pending : list image) (t : text)
    : bool :=
  if is_edit_mode model then nonempty pending else nonempty t.

(** The reply to a text that is not dispatched. *)
Definition text_rejection (model : string) : reply :=
  if is_create model then MsgEnterDescription
  else if String.eqb model "gpt-5.2" then MsgEnterMessage
  else MsgSendImageFirst.

(** What the user sees when a call for an image has failed with [e]. *)
Definition image_error_reply (e : exn) : reply :=
  match exn_class_of e with
  | ValueError => MsgStr (exn_str e)
  | _ => _format_image_error e
  end.

(** Every effect of [c] satisfies [P]. *)
Definition emits {A : Type} (P : action -> Prop) (c : M A) : Prop :=
  forall s : store, Forall (fun sa => P (snd sa)) (trace_of (c s)).

(** The photos sent, the edits of the status message, the texts
    replied, and the tasks created, in order. *)
Definition photos (t : trace) : list image :=
  omap (fun a => match a with ReplyPhoto _ p _ _ => Some p | _ => None end)
       (actions t).

Definition edits (t : trace) : list reply :=
  omap (fun a => match a with EditText _ m => Some m | _ => None end)
       (actions t).

Definition replies (t : trace) : list reply :=
  omap (fun a => match a with ReplyText _ m => Some m | _ => None end)
       (actions t).

Definition tasks (t : trace) : list string :=
  omap (fun a => match a with CreateTask g => Some g | _ => None end)
       (actions t).

(** The user an effect is addressed to. *)
Definition addressee (a : action) : option Z :=
  match a with
  | ReplyText c _ | EditText c _ | DeleteMessage c | ReplyPhoto c _ _ _ => Some c
  | GetFile _ | CreateTask _ | ApiCall _ => None
  end.

(** The end of an image branch in store [s]: the error put in place of
    the status message, or the photo and the removal of that message. *)
Definition image_outcome (s : store) (chat : Z) (label : string)
    (r : exn + (image * option Processor.usage_str)) : trace :=
  match r with
  | inl e => [(s, EditText chat (image_error_reply e))]
  | inr (b, u) => [(s, ReplyPhoto chat b label u); (s, DeleteMessage chat)]
  end.

(** The call of the chat branch: with the first image when there is
    one, with the text alone otherwise. *)
Definition chat_call (w : world) (images : list image) (prompt : text)
    : (exn + text) * list api_call :=
  match images with
  | img :: _ => Processor.process_text_with_image w img prompt "gpt-5.2"
  | [] => Processor.process_text_only w prompt "gpt-5.2"
  end.

(** The end of the chat branch in store [s]. *)
Definition chat_outcome (s : store) (chat : Z) (r : exn + text) : trace :=
  match r with
  | inl e =>
      [(s, EditText chat (match exn_class_of e with
                          | OtherException => MsgError (exn_str e)
                          | _ => MsgStr (exn_str e)
                          end))]
  | inr answer =>
      (s, DeleteMessage chat)
      :: match Chunk.chunk_text answer Chunk.TELEGRAM_MAX_MESSAGE with
         | Some (p :: ps) =>
             map (fun part => (s, ReplyText chat (MsgPart part))) (p :: ps)
         | _ => [(s, ReplyText chat MsgEmptyAnswer)]
         end
  end.

(** What a trace shows of a given kind of effect: [pick] chooses. *)
Definition observe {B : Type} (pick : action -> option B) (t : trace) : list B :=
  omap pick (actions t).

(** The trace of a run. *)
Definition run_trace (w : world) (evs : list event) (s : store) : trace :=
  snd (run w evs s).

(** The shape of every open album: it holds at least one file id and
    no empty one; it is filed under the [media_group_id] of the update
    that opened it, which is not empty; its owner is the sender of that
    update and its caption the stripped caption of that update. *)
Definition album_well_formed (group_id : string) (data : group) : Prop :=
  file_ids data <> []
  /\ Forall (fun fid : string => fid <> ""%string) (file_ids data)
  /\ group_id <> ""%string
  /\ msg_media_group_id (upd_message (first_update data)) = Some group_id
  /\ user_id data = effective_user (first_update data)
  /\ caption data = strip (default [] (msg_caption (upd_message (first_update data)))).

Definition albums_well_formed (s : store) : Prop :=
  forall (group_id : string) (data : group),
    media_groups s !! group_id = Some data -> album_well_formed group_id data.

(** The store before any event. *)
Definition empty_store : store := Store ∅ ∅.

End Trace.

(** ** The handlers as coroutines

    [Bot.M] runs a handler from its first statement to its last as one
    step. In bot.py a handler is a coroutine: at every [await] it is
    suspended, and the event loop runs whatever else is ready before
    the handler goes on; the flush of an album, a task of its own
    ([asyncio.create_task], bot.py:350), is such a thing. This module
    gives the handlers with their suspension points, and runs a
    coroutine together with what the rest of the program does to the
    store while it is suspended. *)

Module Tasks.
Import Processor Bot.

(** A coroutine returns, raises, goes on without being suspended
    ([Sync]: it writes the store with [write], and what it does next
    may depend on the store it found; [Spawn]: it schedules the flush
    of an album with [asyncio.create_task]), or is suspended at an
    [await] during which the effects [effects] take place. *)
Inductive task (A : Type) : Type :=
| Return (x : A)
| Raise (e : exn)
| Sync (write : store -> store) (rest : store -> task A)
| Spawn (group_id : string) (rest : task A)
| Await (effects : list action) (rest : task A).

Arguments Return {A} x.
Arguments Raise {A} e.
Arguments Sync {A} write rest.
Arguments Spawn {A} group_id rest.
Arguments Await {A} effects rest.

Fixpoint bind {A B : Type} (t : task A) (k : A -> task B) : task B :=
  match t with
  | Return x => k x
  | Raise e => Raise e
  | Sync write rest => Sync write (fun s => bind (rest s) k)
  | Spawn group_id rest => Spawn group_id (bind rest k)
  | Await effects rest => Await effects (bind rest k)
  end.

#[local] Instance task_ret : MRet task := @Return.
#[local] Instance task_bind : MBind task := fun A B k t => bind t k.

(** *** The steps of [Bot], with their suspensions *)

(** Reading and writing [user_data] and [media_groups] suspends
    nothing. *)
Definition get_user_data (uid : Z) : task user_data :=
  Sync id (fun s => Return (user_data_of s uid)).

Definition set_pending_images (uid : Z) (images : list image) : task unit :=
  Sync (fun s => with_pending s uid images) (fun _ => Return tt).

Definition set_model (uid : Z) (model : string) : task string :=
  Sync (fun s => with_model s uid model) (fun _ => Return model).

Definition group_is_open (group_id : string) : task bool :=
  Sync id (fun s => Return (bool_decide (is_Some (media_groups s !! group_id)))).

Definition group_append (group_id file_id : string) : task unit :=
  Sync (fun s => Store (alter (add_file_id file_id) group_id (media_groups s))
                       (users s))
       (fun _ => Return tt).

Definition group_open (group_id : string) (data : group) : task unit :=
  Sync (fun s => Store (<[group_id := data]> (media_groups s)) (users s))
       (fun _ => Return tt).

Definition group_pop (group_id : string) : task (option group) :=
  Sync (fun s => without_group s group_id)
       (fun s => Return (media_groups s !! group_id)).

(** [asyncio.create_task(process_media_group_after_delay(group_id, ...))] *)
Definition create_task (group_id : string) : task unit :=
  Spawn group_id (Return tt).

(** [await] of a call of the transport. *)
Definition emit (a : action) : task unit := Await [a] (Return tt).

Definition reply_text (upd : update) (m : reply) : task unit :=
  emit (ReplyText (effective_user upd) m).

(** [await asyncio.to_thread(f, ...)] inside a [try]: the handler is
    suspended while the thread runs, whether or not [f] gets as far as
    calling the client. *)
Definition to_thread {A : Type} (r : (exn + A) * list api_call)
    : task (exn + A) :=
  Await (map ApiCall (snd r)) (Return (fst r)).

Section WithWorld.
Variable w : world.

(** [await bot.get_file(fid)], [await file.download_as_bytearray()]:
    the two suspensions, between which the handler looks at nothing,
    taken as one. *)
Definition get_file (fid : string) : task image :=
  Await [GetFile fid]
        (match download w fid with
         | inl e => Raise e
         | inr file => Return file
         end).

Fixpoint reply_parts (upd : update) (parts : list text) : task unit :=
  match parts with
  | [] => mret tt
  | part :: rest => reply_text upd (MsgPart part);; reply_parts upd rest
  end.

Definition finish_image (upd : update) (label : string)
    (r : exn + (image * option usage_str)) : task unit :=
  let chat := effective_user upd in
  match r with
  | inl e =>
      match exn_class_of e with
      | ValueError => emit (EditText chat (MsgStr (exn_str e)))
      | _ => emit (EditText chat (_format_image_error e))
      end
  | inr (result_bytes, usage_line) =>
      emit (ReplyPhoto chat result_bytes label usage_line);;
      emit (DeleteMessage chat)
  end.

(** [process_and_reply], as [Bot.process_and_reply]: the model is read
    when the coroutine starts (bot.py:496), before its first [await]. *)
Definition process_and_reply (upd : update) (ctx : Z)
    (images : list image) (prompt : text) : task unit :=
  let chat := effective_user upd in
  ud ← get_user_data ctx;
  let model := get_model ud in
  if String.eqb model "create" then
    reply_text upd (MsgGenerating (label_of model));;
    r ← to_thread (process_create w prompt "gpt-image-1.5");
    finish_image upd (label_of model) r
  else if String.eqb model "dalle_create" then
    reply_text upd (MsgGenerating (label_of model));;
    r ← to_thread (process_create w prompt "dall-e-2");
    finish_image upd (label_of model) r
  else if String.eqb model "gpt-5.2" then
    reply_text upd MsgWorking;;
    r ← (if nonempty images then
           let images := if 1 <? len images then take 1 images else images in
           match images with
           | img :: _ => to_thread (process_text_with_image w img prompt model)
           | [] => mret (inl (Exn IndexError None (ErrExternal [])))
           end
         else to_thread (process_text_only w prompt model));
    match r with
    | inl e =>
        match exn_class_of e with
        | ValueError | IndexError => emit (EditText chat (MsgStr (exn_str e)))
        | OtherException => emit (EditText chat (MsgError (exn_str e)))
        end
    | inr result_text =>
        emit (DeleteMessage chat);;
        match Chunk.chunk_text result_text Chunk.TELEGRAM_MAX_MESSAGE with
        | Some [] | None => reply_text upd MsgEmptyAnswer
        | Some parts => reply_parts upd parts
        end
    end
  else
    reply_text upd (MsgWorkingImages (label_of model));;
    r ← to_thread (process w images prompt model);
    finish_image upd (label_of model) r.

(** [handle_text], as [Bot.handle_text]: the buffer and the model are
    read before the first [await]. *)
Definition handle_text (upd : update) : task unit :=
  let message := upd_message upd in
  let user := effective_user upd in
  let text := strip (default [] (msg_text message)) in
  ud ← get_user_data user;
  let images := pending_images ud in
  if String.eqb (get_model ud) "create" then
    if negb (nonempty text) then reply_text upd MsgEnterDescription
    else
      text ← (if 4000 <? len text
              then reply_text upd MsgDescriptionCut4000;; mret (cut_to 4000 text)
              else mret text);
      set_pending_images user [];;
      process_and_reply upd user [] text
  else if String.eqb (get_model ud) "dalle_create" then
    if negb (nonempty text) then reply_text upd MsgEnterDescription
    else
      text ← (if 1000 <? len text
              then reply_text upd MsgDalleCut1000;; mret (cut_to 1000 text)
              else mret text);
      set_pending_images user [];;
      process_and_reply upd user [] text
  else if String.eqb (get_model ud) "gpt-5.2" then
    if negb (nonempty text) then reply_text upd MsgEnterMessage
    else
      text ← (if 4000 <? len text
              then reply_text upd MsgPromptCut4000;; mret (cut_to 4000 text)
              else mret text);
      set_pending_images user [];;
      process_and_reply upd user images text
  else if negb (nonempty images) then reply_text upd MsgSendImageFirst
  else
    text ← (if 4000 <? len text
            then reply_text upd MsgPromptCut4000;; mret (cut_to 4000 text)
            else mret text);
    set_pending_images user [];;
    process_and_reply upd user images text.

(** The end of the flush (bot.py:283-302), as [Bot.cap_and_route]:
    [model] is the model read when the flush started. *)
Definition cap_and_route (target : update) (uid : Z) (model : string)
    (images : list image) (cap : text) : task unit :=
  images ← (if 10 <? len images
            then reply_text target MsgMax10;; mret (last_n 10 images)
            else mret images);
  if nonempty cap then
    set_pending_images uid [];;
    process_and_reply target uid images cap
  else
    set_pending_images uid images;;
    reply_text target (MsgReceived (len images) (label_of model)).

(** The end of [handle_images] for a single image (bot.py:386-408), as
    [Bot.cap_and_route]: the model named in the answer is read anew
    (bot.py:403), after the suspensions of the download. *)
Definition cap_and_store (upd : update) (uid : Z)
    (images : list image) (cap : text) : task unit :=
  images ← (if 10 <? len images
            then reply_text upd MsgMax10;; mret (last_n 10 images)
            else mret images);
  if nonempty cap then
    set_pending_images uid [];;
    process_and_reply upd uid images cap
  else
    set_pending_images uid images;;
    ud ← get_user_data uid;
    reply_text upd (MsgReceived (len images) (label_of (get_model ud))).

(** The album branch of [handle_images], as [Bot.collect_album]. *)
Definition collect_album (upd : update) (group_id file_id : string)
    (cap : text) : task unit :=
  is_open ← group_is_open group_id;
  if is_open : bool then group_append group_id file_id
  else
    group_open group_id (Group [file_id] cap (effective_user upd) upd);;
    create_task group_id.

(** [handle_images], as [Bot.handle_images]: the model and the buffer
    are read before the download. *)
Definition handle_images (upd : update) : task unit :=
  let message := upd_message upd in
  let user := effective_user upd in
  let cap := strip (default [] (msg_caption message)) in
  ud ← get_user_data user;
  let model := get_model ud in
  if is_create model && negb (truthy_id (msg_media_group_id message)) then
    if nonempty cap then
      set_pending_images user [];;
      process_and_reply upd user [] cap
    else reply_text upd (MsgCreateTextOnly (mode_name_of model))
  else if truthy_id (msg_media_group_id message) then
    let file_id := album_file_id message in
    if truthy_id file_id then
      collect_album upd (default ""%string (msg_media_group_id message))
                    (default ""%string file_id) cap
    else
      match msg_document message with
      | Some _ => reply_text upd MsgImagesOnly
      | None => mret tt
      end
  else
    let images := if String.eqb model "gpt-5.2" then [] else pending_images ud in
    match msg_photo message, msg_document message with
    | p :: ps, _ =>
        file ← get_file (ps_file_id (max_from p ps));
        cap_and_store upd user (images ++ [file]) cap
    | [], Some d =>
        if negb (is_image_mime d) then reply_text upd MsgImagesOnly
        else
          file ← get_file (doc_file_id d);
          cap_and_store upd user (images ++ [file]) cap
    | [], None => cap_and_store upd user images cap
    end.

(** The flush, as [Bot.download_all], [Bot.process_media_group] and
    [Bot.process_media_group_after_delay]: the model is read once,
    before the downloads, the buffer after them (bot.py:246, 277). *)
Fixpoint download_all (fids : list string) (images : list image)
    : task (list image) :=
  match fids with
  | [] => mret images
  | fid :: rest =>
      file ← get_file fid;
      download_all rest (images ++ [file])
  end.

Definition process_media_group (data : group) : task unit :=
  let cap := caption data in
  let target := first_update data in
  let uid := user_id data in
  ud ← get_user_data uid;
  let model := get_model ud in
  if is_create model then
    set_pending_images uid [];;
    if nonempty cap then process_and_reply target uid [] cap
    else reply_text target (MsgCreateNeedCaption (mode_name_of model))
  else
    images ← download_all (file_ids data) [];
    ud' ← get_user_data uid;
    let existing := pending_images ud' in
    let images := if String.eqb model "gpt-5.2" then take 1 images
                  else existing ++ images in
    cap_and_route target uid model images cap.

Definition process_media_group_after_delay (group_id : string) : task unit :=
  data ← group_pop group_id;
  match data with
  | None => mret tt
  | Some data => process_media_group data
  end.

(** The mode commands, as [Bot.handle_command]. *)
Definition handle_command (c : command) (upd : update) : task unit :=
  match command_model c with
  | Some model =>
      set_model (effective_user upd) model;;
      reply_text upd (match c with CmdStart => MsgStart | _ => MsgModeSet model end)
  | None => reply_text upd MsgHelp
  end.

Definition handle (ev : event) : task unit :=
  match ev with
  | Command c upd => handle_command c upd
  | Images upd => handle_images upd
  | Text upd => handle_text upd
  | Flush group_id => process_media_group_after_delay group_id
  end.

End WithWorld.

(** *** Running a coroutine among others *)

(** What the other tasks do to the store during the suspensions of a
    coroutine: one function for each suspension, in order; nothing at
    the suspensions beyond the end of the list. *)
Definition interference : Type := list (store -> store).

(** The coroutine [t] run from the store [s] with the interference
    [others]. Each effect is recorded with the store in which it was
    started; the others act before the coroutine goes on. With no
    interference this is the one step of [Bot.M]. *)
Fixpoint run_with {A : Type} (others : interference) (t : task A) (s : store)
    {struct t} : (exn + A) * store * trace :=
  match t with
  | Return x => (inr x, s, [])
  | Raise e => (inl e, s, [])
  | Sync write rest => run_with others (rest s) (write s)
  | Spawn group_id rest =>
      let '(r, s', tr) := run_with others rest s in
      (r, s', (s, CreateTask group_id) :: tr)
  | Await effects rest =>
      let '(r, s', tr) := run_with (tail others) rest (default id (head others) s) in
      (r, s', map (fun a => (s, a)) effects ++ tr)
  end.









End Tasks.

(** ** Concrete worlds and inputs *)

Module Samples.
Import Bot.

Definition png_of (data : image) : option (string * string * image) :=
  Some ("png"%string, "image/png"%string, data).

Definition boom : exn :=
  Exn OtherException None (ErrExternal (of_ascii "server error")).

(** A download returns the bytes of the file id. *)
Definition bytes_of (fid : string) : image := list_byte_of_string fid.

(** The answer of the image endpoints in the worlds below: one image,
    the byte 02 in base64; and [base64.b64decode] on that string. *)
Definition sample_answer : images_response :=
  ImagesResponse [of_ascii "Ag=="] None.

Definition decode_sample (s : text) : exn + image :=
  if bool_decide (s = of_ascii "Ag==") then inr [x02]
  else inl (value_error (ErrExternal (of_ascii "Incorrect padding"))).

(** Every download succeeds; every call of the client fails. *)
Definition failing_world : world :=
  World (fun fid => inr (bytes_of fid)) png_of
        (fun _ => inl boom) (fun _ => inl boom) (fun _ => inl boom) decode_sample
        (of_ascii "SYSTEM ").

(** Every download and every call of the client succeeds. *)
Definition working_world : world :=
  World (fun fid => inr (bytes_of fid)) png_of
        (fun _ => inr sample_answer)
        (fun _ => inr sample_answer)
        (fun _ => inr (of_ascii "ok")) decode_sample
        (of_ascii "SYSTEM ").

Definition text_update (uid : Z) (t : string) : update :=
  Update uid (Message (Some (of_ascii t)) None None [] None).

(** A photo, alone or as part of an album, with or without caption. *)
Definition photo_update (uid : Z) (album : option string) (fid : string)
    (cap : option string) : update :=
  Update uid (Message None (of_ascii <$> cap) album [PhotoSize fid 100] None).

(** One user with a model and a buffer, no open album. *)
Definition one_user (uid : Z) (model : string) (images : list image) : store :=
  Store ∅ {[uid := UserData (Some model) (Some images)]}.

Definition ten_images : list image :=
  [[x00]; [x01]; [x02]; [x03]; [x04]; [x05]; [x06]; [x07]; [x08]; [x09]].

(** One user, and one open album of that user. *)
Definition with_album (uid : Z) (model : string) (images : list image)
    (group_id : string) (fids : list string) (cap : string) : store :=
  Store {[group_id := Group fids (of_ascii cap) uid
                            (photo_update uid (Some group_id) "f0" None)]}
        {[uid := UserData (Some model) (Some images)]}.

(** An album in three parts, the first of them sent twice, with a text
    message of another user in between. *)
Definition album_events : list event :=
  [Images (photo_update 7 (Some "album"%string) "f1" None);
   Text (text_update 8 "hello");
   Images (photo_update 7 (Some "album"%string) "f2" None);
   Images (photo_update 7 (Some "album"%string) "f1" None)].


(** Flushes and other events, none of which opens ["album"]. *)
Definition later_events : list event :=
  [Flush "album"; Text (text_update 7 "hello"); Flush "other";
   Images (photo_update 7 None "f9" None); Flush "album"].

(** A world in which Pillow reads no image. *)
Definition unreadable_world : world :=
  World (fun fid => inr (bytes_of fid)) (fun _ => None)
        (fun _ => inr sample_answer)
        (fun _ => inr sample_answer)
        (fun _ => inr (of_ascii "ok")) decode_sample
        (of_ascii "SYSTEM ").

(** A world in which no file can be fetched. *)
Definition offline_world : world :=
  World (fun _ => inl boom) png_of
        (fun _ => inr sample_answer)
        (fun _ => inr sample_answer)
        (fun _ => inr (of_ascii "ok")) decode_sample
        (of_ascii "SYSTEM ").

(** A document, alone or as part of an album. *)
Definition document_update (uid : Z) (album : option string) (fid : string)
    (mime : option string) : update :=
  Update uid (Message None None album [] (Some (Document fid mime))).

(** A photo in four sizes, two of them the largest. *)
Definition sized_photo_update (uid : Z) : update :=
  Update uid (Message None None None
                [PhotoSize "small" 10; PhotoSize "large" 90; PhotoSize "medium" 50;
                 PhotoSize "other" 90]
                None).






End Samples.

(** ** Lemmas on slices and [rfind] *)

Lemma len_nonneg {A : Type} (l : list A) : 0 <= len l.
Proof. unfold len. lia. Qed.

Lemma slice_to_nonneg {A : Type} (l : list A) (k : Z) :
  0 <= k -> slice_to l k = take (Z.to_nat k) l.
Proof.
  intros Hk. unfold slice_to.
  destruct (Z.leb_spec 0 k) as [_ | Hneg]; [reflexivity | lia].
Qed.

Lemma rfind_lower (c : char) (s : text) : -1 <= rfind c s.
Proof.
  induction s as [| x s IH]; simpl; [lia |].
  destruct (Z.leb_spec 0 (rfind c s)); [lia |].
  destruct (N.eqb x c); lia.
Qed.

Lemma rfind_upper (c : char) (s : text) : rfind c s < len s.
Proof.
  unfold len. induction s as [| x s IH]; simpl length; simpl rfind; [lia |].
  destruct (Z.leb_spec 0 (rfind c s)); [lia |].
  destruct (N.eqb x c); lia.
Qed.

(** A non-negative [rfind] points at an occurrence. *)
Lemma rfind_lookup (c : char) (s : text) :
  0 <= rfind c s -> s !! Z.to_nat (rfind c s) = Some c.
Proof.
  induction s as [| x s IH]; simpl rfind; [lia |].
  destruct (Z.leb_spec 0 (rfind c s)) as [Hr | Hr].
  - intros _. replace (Z.to_nat (rfind c s + 1)) with (S (Z.to_nat (rfind c s))) by lia.
    simpl. auto.
  - destruct (N.eqb_spec x c) as [-> | Hne]; [reflexivity | lia].
Qed.

(** Nothing to the right of [rfind] is an occurrence. *)
Lemma rfind_last (c : char) (s : text) (j : nat) :
  rfind c s < Z.of_nat j -> s !! j <> Some c.
Proof.
  revert j. induction s as [| x s IH]; intros j; simpl rfind; [by destruct j |].
  destruct (Z.leb_spec 0 (rfind c s)) as [Hr | Hr].
  - intros Hj. destruct j as [| j]; [lia |]. simpl. apply IH. lia.
  - destruct (N.eqb_spec x c) as [-> | Hne]; intros Hj.
    + destruct j as [| j]; [lia |]. simpl. apply IH. lia.
    + destruct j as [| j]; simpl; [congruence |]. apply IH. lia.
Qed.


(** ** [chunk_text]: the loop and its result *)

Lemma take_min_length {A : Type} (n : nat) (l : list A) :
  take (n `min` length l) l = take n l.
Proof.
  destruct (Nat.le_gt_cases n (length l)) as [Hle | Hgt].
  - by rewrite Nat.min_l.
  - rewrite Nat.min_r by lia. rewrite !take_ge; [done | lia | lia].
Qed.

Lemma drop_length_take {A : Type} (n : nat) (l : list A) :
  drop (length (take n l)) l = drop n l.
Proof.
  rewrite length_take.
  destruct (Nat.le_gt_cases n (length l)) as [Hle | Hgt].
  - by rewrite Nat.min_l.
  - rewrite Nat.min_r by lia. rewrite !drop_ge; [done | lia | lia].
Qed.

Section ChunkFacts.
Import Chunk.
Variable max_len : Z.
Hypothesis max_len_pos : 0 < max_len.

(** The appended chunk is one of the two cuts of [cuts]. *)
Lemma next_chunk_cases (t : text) :
  let i := rfind nl (take (Z.to_nat max_len) t) in
  (max_len / 2 < i /\ next_chunk max_len t = take (Z.to_nat (i + 1)) t
     /\ length (next_chunk max_len t) = Z.to_nat (i + 1))
  \/ (i <= max_len / 2 /\ next_chunk max_len t = take (Z.to_nat max_len) t).
Proof.
  intros i. unfold next_chunk.
  rewrite (slice_to_nonneg t max_len) by lia. fold i.
  destruct (Z.gtb_spec i (max_len / 2)) as [Hgt | Hle].
  - left. assert (0 <= max_len / 2) by (apply Z.div_pos; lia).
    rewrite (slice_to_nonneg t (i + 1)) by lia.
    repeat split; [lia |].
    pose proof (rfind_upper nl (take (Z.to_nat max_len) t)) as Hup.
    fold i in Hup. unfold len in Hup. rewrite length_take in Hup.
    rewrite length_take. lia.
  - right. split; [lia | reflexivity].
Qed.

(** It is a non-empty prefix of at most [max_len] characters. *)
Lemma next_chunk_length (t : text) :
  t <> [] ->
  (1 <= length (next_chunk max_len t) <= length t)%nat
  /\ len (next_chunk max_len t) <= max_len.
Proof.
  intros Ht. unfold len.
  assert (1 <= length t)%nat by (destruct t; [done | simpl; lia]).
  assert (0 <= max_len / 2) by (apply Z.div_pos; lia).
  pose proof (rfind_upper nl (take (Z.to_nat max_len) t)) as Hup.
  unfold len in Hup. rewrite length_take in Hup.
  destruct (next_chunk_cases t) as [(Hi & Heq & Hlen) | (Hi & Heq)].
  - rewrite Hlen. lia.
  - rewrite Heq, length_take. lia.
Qed.

Lemma next_chunk_take_drop (t : text) :
  next_chunk max_len t ++ slice_from t (length (next_chunk max_len t)) = t.
Proof.
  unfold slice_from.
  destruct (next_chunk_cases t) as [(Hi & Heq & Hlen) | (Hi & Heq)].
  - rewrite Hlen, Heq. apply take_drop.
  - rewrite Heq, drop_length_take. apply take_drop.
Qed.

Lemma chunk_loop_step (fuel : nat) (t : text) (acc : list text) :
  t <> [] ->
  chunk_loop (S fuel) max_len t acc
  = chunk_loop fuel max_len (slice_from t (length (next_chunk max_len t)))
               (acc ++ [next_chunk max_len t]).
Proof. intros Ht. destruct t; [done | reflexivity]. Qed.

Lemma chunk_loop_result (fuel : nat) :
  forall (t : text) (acc : list text),
    (length t < fuel)%nat ->
    exists cs : list text,
      chunk_loop fuel max_len t acc = Some (acc ++ cs)
      /\ cuts max_len t cs
      /\ concat cs = t
      /\ Forall (fun c : text => c <> [] /\ len c <= max_len) cs.
Proof.
  induction fuel as [| fuel IH]; intros t acc Hfuel; [lia |].
  destruct t as [| x t'] eqn:Et.
  - exists []. simpl. rewrite app_nil_r. repeat split; constructor.
  - rewrite <- Et in *. assert (Ht : t <> []) by (subst t; discriminate).
    destruct (next_chunk_length t Ht) as (Hrange & Hmax).
    pose proof (chunk_loop_step fuel t acc Ht) as Hstep.
    destruct (IH (slice_from t (length (next_chunk max_len t)))
                 (acc ++ [next_chunk max_len t]))
      as (cs & Hrun & Hcuts & Hcat & Hall).
    { unfold slice_from. rewrite length_drop. lia. }
    exists (next_chunk max_len t :: cs).
    split; [| split; [| split]].
    + rewrite Hstep, Hrun, <- app_assoc. reflexivity.
    + destruct (next_chunk_cases t) as [(Hi & Heq & Hl) | (Hi & Heq)].
      * rewrite Heq. eapply cuts_newline; [exact Ht | reflexivity | exact Hi |].
        unfold slice_from in Hcuts. rewrite Hl in Hcuts. exact Hcuts.
      * rewrite Heq. apply cuts_window; [exact Ht | exact Hi |].
        unfold slice_from in Hcuts.
        rewrite Heq, drop_length_take in Hcuts. exact Hcuts.
    + simpl. rewrite Hcat. apply next_chunk_take_drop.
    + constructor; [| exact Hall].
      split; [| exact Hmax].
      intros Hnil. rewrite Hnil in Hrange. simpl in Hrange. lia.
Qed.

(** With enough fuel the result no longer depends on the fuel. *)
Lemma chunk_loop_fuel_mono (fuel fuel' : nat) (t : text) (acc : list text) :
  (length t < fuel)%nat -> (length t < fuel')%nat ->
  chunk_loop fuel max_len t acc = chunk_loop fuel' max_len t acc.
Proof.
  revert fuel' t acc.
  induction fuel as [| fuel IH]; intros fuel' t acc H1 H2; [lia |].
  destruct fuel' as [| fuel']; [lia |].
  destruct t as [| x t'] eqn:Et; [reflexivity |].
  rewrite <- Et in *. assert (Ht : t <> []) by (subst t; discriminate).
  destruct (next_chunk_length t Ht) as (Hrange & _).
  rewrite !chunk_loop_step by exact Ht.
  apply IH; unfold slice_from; rewrite length_drop; lia.
Qed.

Lemma chunk_text_fuel_enough (fuel : nat) (t : text) :
  (length t < fuel)%nat ->
  chunk_text_fuel fuel t max_len = chunk_text t max_len.
Proof.
  intros Hfuel. unfold chunk_text, chunk_text_fuel.
  destruct (len t <=? max_len); [reflexivity |].
  apply chunk_loop_fuel_mono; lia.
Qed.

(** Text that fits is returned whole. *)
Lemma chunk_text_short (t : text) :
  t <> [] -> len t <= max_len -> chunk_text t max_len = Some [t].
Proof.
  intros Ht Hlen. unfold chunk_text, chunk_text_fuel.
  destruct (Z.leb_spec (len t) max_len); [| lia].
  destruct t; [done | reflexivity].
Qed.

(** The result of [chunk_text] on any text. *)
Lemma chunk_text_result (t : text) :
  exists chunks : list text,
    chunk_text t max_len = Some chunks
    /\ concat chunks = t
    /\ Forall (fun c : text => c <> [] /\ len c <= max_len) chunks
    /\ (max_len < len t -> cuts max_len t chunks).
Proof.
  unfold chunk_text, chunk_text_fuel.
  destruct (Z.leb_spec (len t) max_len) as [Hle | Hgt].
  - destruct t as [| x t'].
    + exists []. repeat split; [constructor | lia].
    + exists [x :: t']. simpl. rewrite app_nil_r.
      repeat split; [| lia]. constructor; [| constructor]. by split.
  - destruct (chunk_loop_result (S (length t)) t []) as (cs & Hrun & Hcuts & Hcat & Hall);
      [lia |].
    exists cs. simpl in Hrun. auto.
Qed.

End ChunkFacts.

(** C4. For every text and positive [max_len], [chunk_text] returns:
    the empty sequence on empty input; the one-element sequence [[text]]
    when [0 < len(text) <= max_len]; in every case chunks whose
    concatenation is the original text; and chunks on each of which
    [chunk_text] returns that chunk alone (idempotence). *)
Theorem chunk_text_concat_idempotent (t : text) (max_len : Z) :
  0 < max_len ->
  exists chunks : list text,
    Chunk.chunk_text t max_len = Some chunks
    /\ (t = [] -> chunks = [])
    /\ (0 < len t <= max_len -> chunks = [t])
    /\ concat chunks = t
    /\ (forall c : text, c ∈ chunks -> Chunk.chunk_text c max_len = Some [c]).
Proof.
  intros Hpos.
  destruct (chunk_text_result max_len Hpos t) as (chunks & Hrun & Hcat & Hall & _).
  exists chunks. split; [exact Hrun |]. split; [| split; [| split]].
  - intros ->. destruct chunks as [| c cs]; [reflexivity |].
    apply Forall_cons in Hall as [[Hne _] _].
    simpl in Hcat. apply app_eq_nil in Hcat as [Hc _]. contradiction.
  - intros [Hlo Hhi].
    assert (Ht : t <> []) by (intros ->; unfold len in Hlo; simpl in Hlo; lia).
    rewrite (chunk_text_short max_len t Ht Hhi) in Hrun. congruence.
  - exact Hcat.
  - intros c Hc. rewrite Forall_forall in Hall.
    destruct (Hall c Hc) as [Hne Hlen].
    by apply chunk_text_short.
Qed.

Lemma chunk_text_concat_idempotent_witness :
  exists chunks : list text,
    Chunk.chunk_text (of_ascii "abc" ++ [nl] ++ of_ascii "defgh") 5 = Some chunks
    /\ (of_ascii "abc" ++ [nl] ++ of_ascii "defgh" = [] -> chunks = [])
    /\ (0 < len (of_ascii "abc" ++ [nl] ++ of_ascii "defgh") <= 5
        -> chunks = [of_ascii "abc" ++ [nl] ++ of_ascii "defgh"])
    /\ concat chunks = of_ascii "abc" ++ [nl] ++ of_ascii "defgh"
    /\ (forall c : text, c ∈ chunks -> Chunk.chunk_text c 5 = Some [c]).
Proof.
  apply (chunk_text_concat_idempotent (of_ascii "abc" ++ [nl] ++ of_ascii "defgh") 5).
  lia.
Defined.

(** With [max_len = 0] the loop appends the empty chunk and never
    shortens the text: no amount of fuel gives a result. This is why the
    statements on [chunk_text] take a positive [max_len]. *)
Lemma chunk_loop_zero_no_result (fuel : nat) (x : char) (t : text) (acc : list text) :
  Chunk.chunk_loop fuel 0 (x :: t) acc = None.
Proof.
  revert acc. induction fuel as [| fuel IH]; intros acc; [reflexivity |].
  simpl. apply IH.
Qed.

(** C5, as amended. For every positive [max_len] and every text longer
    than [max_len], [chunk_text] returns chunks obtained by cutting
    repeatedly a window of [max_len] characters, except that when the
    last line feed of the window lies at an index above [max_len // 2]
    the cut is made just after that line feed; the cuts exhaust the
    text, and no chunk is empty. *)
Theorem chunk_text_cuts_second_half (t : text) (max_len : Z) :
  0 < max_len -> max_len < len t ->
  exists chunks : list text,
    Chunk.chunk_text t max_len = Some chunks
    /\ Chunk.cuts max_len t chunks
    /\ concat chunks = t
    /\ Forall (fun c : text => c <> []) chunks.
Proof.
  intros Hpos Hlong.
  destruct (chunk_text_result max_len Hpos t) as (chunks & Hrun & Hcat & Hall & Hcuts).
  exists chunks. repeat split; auto.
  eapply Forall_impl; [exact Hall |]. by intros c [Hne _].
Qed.

Lemma chunk_text_cuts_second_half_witness :
  exists chunks : list text,
    Chunk.chunk_text (of_ascii "abcd" ++ [nl] ++ of_ascii "efghij") 6 = Some chunks
    /\ Chunk.cuts 6 (of_ascii "abcd" ++ [nl] ++ of_ascii "efghij") chunks
    /\ concat chunks = of_ascii "abcd" ++ [nl] ++ of_ascii "efghij"
    /\ Forall (fun c : text => c <> []) chunks.
Proof.
  apply (chunk_text_cuts_second_half (of_ascii "abcd" ++ [nl] ++ of_ascii "efghij") 6).
  - lia.
  - vm_compute. reflexivity.
Defined.

(** C5, the claim as worded, refuted. With [max_len = 4] and the text
    ["a\nbcdefg"], the first half of the window ["a\nbc"] holds a line
    feed (index 1), so the wording asks for the first chunk ["a\n"];
    [chunk_text] cuts at the end of the window instead, because index 1
    does not exceed [4 // 2]. *)
Lemma chunk_text_first_half_newline_ignored :
  let t := of_ascii "a" ++ [nl] ++ of_ascii "bcdefg" in
  4 < len t
  /\ rfind nl (slice_to (slice_to t 4) (4 / 2)) = 1
  /\ Chunk.spec_next_chunk 4 t = of_ascii "a" ++ [nl]
  /\ Chunk.chunk_text t 4
     = Some [of_ascii "a" ++ [nl] ++ of_ascii "bc"; of_ascii "defg"]
  /\ head (default [] (Chunk.chunk_text t 4)) <> Some (Chunk.spec_next_chunk 4 t).
Proof.
  vm_compute. repeat split; congruence.
Qed.

(** ** The monad: rules for [quiet] and [keeps] *)

Section MonadRules.
Import Bot.

Lemma bind_run {A B : Type} (c : M A) (k : A -> M B) (s : store) :
  (c ≫= k) s
  = match c s with
    | (inl e, s1, t1) => (inl e, s1, t1)
    | (inr x, s1, t1) => let '(r, s2, t2) := k x s1 in (r, s2, t1 ++ t2)
    end.
Proof. reflexivity. Qed.

Lemma bind_get_user_data {B : Type} (uid : Z) (k : user_data -> M B) (s : store) :
  (get_user_data uid ≫= k) s = k (user_data_of s uid) s.
Proof.
  rewrite bind_run. simpl. by destruct (k (user_data_of s uid) s) as [[r s2] t2].
Qed.

Lemma quiet_ret {A : Type} (P : action -> Prop) (x : A) : quiet P (mret x : M A).
Proof. intros s. exists x, []. split; [reflexivity | constructor]. Qed.

Lemma quiet_bind {A B : Type} (P : action -> Prop) (c : M A) (k : A -> M B) :
  quiet P c -> (forall x : A, quiet P (k x)) -> quiet P (c ≫= k).
Proof.
  intros Hc Hk s. destruct (Hc s) as (x & t1 & Hrun & Ht1).
  destruct (Hk x s) as (y & t2 & Hrun' & Ht2).
  exists y, (t1 ++ t2). rewrite bind_run, Hrun, Hrun'.
  split; [reflexivity | by apply Forall_app].
Qed.

Lemma quiet_emit (P : action -> Prop) (a : action) : P a -> quiet P (emit a).
Proof.
  intros HP s. exists tt, [(s, a)]. split; [reflexivity |].
  by repeat constructor.
Qed.

Lemma quiet_get_user_data (P : action -> Prop) (uid : Z) :
  quiet P (get_user_data uid).
Proof. intros s. exists (user_data_of s uid), []. split; [reflexivity | constructor]. Qed.

Lemma quiet_weaken {A : Type} (P P' : action -> Prop) (c : M A) :
  quiet P c -> (forall a, P a -> P' a) -> quiet P' c.
Proof.
  intros Hc HP s. destruct (Hc s) as (x & t & Hrun & Ht).
  exists x, t. split; [exact Hrun |].
  eapply Forall_impl; [exact Ht |]. intros sa [Hs Ha]. auto.
Qed.

Lemma keeps_weaken {A : Type} (I : store -> Prop) (Q Q' : A -> Prop) (c : M A) :
  keeps I Q c -> (forall x, Q x -> Q' x) -> keeps I Q' c.
Proof.
  intros Hc HQ s HI. destruct (Hc s HI) as (H1 & H2 & H3).
  repeat split; auto.
Qed.

Lemma quiet_keeps {A : Type} (P : action -> Prop) (I : store -> Prop) (c : M A) :
  quiet P c -> keeps I any_value c.
Proof.
  intros Hc s HI. destruct (Hc s) as (x & t & Hrun & Ht).
  rewrite Hrun. split; [exact HI | split; [| done]].
  eapply Forall_impl; [exact Ht |]. intros sa [-> _]. exact HI.
Qed.

Lemma keeps_ret {A : Type} (I : store -> Prop) (Q : A -> Prop) (x : A) :
  Q x -> keeps I Q (mret x : M A).
Proof.
  intros HQ s HI. split; [exact HI | split; [constructor |]].
  intros y [= <-]. exact HQ.
Qed.

Lemma keeps_bind {A B : Type} (I : store -> Prop) (Q : A -> Prop)
    (Q' : B -> Prop) (c : M A) (k : A -> M B) :
  keeps I Q c -> (forall x : A, Q x -> keeps I Q' (k x)) ->
  keeps I Q' (c ≫= k).
Proof.
  intros Hc Hk s HI. destruct (Hc s HI) as (HI1 & Ht1 & HQ).
  rewrite bind_run. destruct (c s) as [[[e | x] s1] t1].
  { split; [exact HI1 | split; [exact Ht1 | intros y [=]]]. }
  destruct (Hk x (HQ x eq_refl) s1 HI1) as (HI2 & Ht2 & HQ').
  destruct (k x s1) as [[r s2] t2].
  split; [exact HI2 | split; [by apply Forall_app | exact HQ']].
Qed.

(** An assignment whose result satisfies [I]. *)
Lemma keeps_update {A : Type} (I : store -> Prop) (Q : A -> Prop)
    (f : store -> store) (x : A) :
  (forall s, I s -> I (f s)) -> Q x -> keeps I Q (fun s => (inr x, f s, [])).
Proof.
  intros Hf HQ s HI. split; [by apply Hf | split; [constructor |]].
  intros y [= <-]. exact HQ.
Qed.

End MonadRules.

(** ** [process_and_reply] touches no dictionary *)

Section Frames.
Import Bot.
Variable w : world.

Lemma quiet_reply_text (upd : update) (m : reply) :
  quiet answers (reply_text upd m).
Proof. by apply quiet_emit. Qed.

Lemma quiet_to_thread {A : Type} (r : (exn + A) * list api_call) :
  quiet answers (to_thread r).
Proof.
  intros s. eexists _, _. split; [reflexivity |].
  apply Forall_forall. intros sa Hsa.
  apply list_elem_of_fmap in Hsa as (c & -> & _). by split.
Qed.

Lemma quiet_reply_parts (upd : update) (parts : list text) :
  quiet answers (reply_parts upd parts).
Proof.
  induction parts as [| part rest IH]; simpl.
  - apply quiet_ret.
  - apply quiet_bind; [apply quiet_reply_text | intros _; exact IH].
Qed.

Ltac quiet_step :=
  match goal with
  | |- quiet _ (_ ≫= _) => apply quiet_bind; [| intros ?]
  | |- quiet _ (if ?b then _ else _) => destruct b
  | |- quiet _ (match ?x with _ => _ end) => destruct x
  | |- quiet _ (let '(_, _) := ?x in _) => destruct x
  | |- quiet _ (mret _) => apply quiet_ret
  | |- quiet _ (emit _) => apply quiet_emit; exact I
  | |- quiet _ (reply_text _ _) => apply quiet_reply_text
  | |- quiet _ (reply_parts _ _) => apply quiet_reply_parts
  | |- quiet _ (get_user_data _) => apply quiet_get_user_data
  | |- quiet _ (to_thread _) => apply quiet_to_thread
  end.

Lemma quiet_finish_image (upd : update) (label : string)
    (r : exn + (image * option Processor.usage_str)) :
  quiet answers (finish_image upd label r).
Proof. unfold finish_image. repeat quiet_step. Qed.

Lemma quiet_process_and_reply (upd : update) (ctx : Z)
    (images : list image) (prompt : text) :
  quiet answers (process_and_reply w upd ctx images prompt).
Proof.
  unfold process_and_reply.
  apply quiet_bind; [apply quiet_get_user_data | intros ud].
  repeat first [apply quiet_finish_image | quiet_step].
Qed.

(** [process_and_reply] run in [s]: it ends normally in [s]. *)
Lemma process_and_reply_run (upd : update) (ctx : Z)
    (images : list image) (prompt : text) (s : store) :
  process_and_reply w upd ctx images prompt s
  = (inr tt, s, trace_of (process_and_reply w upd ctx images prompt s))
  /\ Forall (fun sa => fst sa = s /\ answers (snd sa))
            (trace_of (process_and_reply w upd ctx images prompt s)).
Proof.
  destruct (quiet_process_and_reply upd ctx images prompt s) as ([] & t & Hrun & Ht).
  rewrite Hrun. by split.
Qed.

End Frames.

(** ** The stores produced by assignments *)

Section Stores.
Import Bot.

Lemma user_data_of_with_pending (s : store) (uid uid' : Z) (images : list image) :
  user_data_of (with_pending s uid images) uid'
  = if decide (uid = uid')
    then UserData (ud_model (user_data_of s uid)) (Some images)
    else user_data_of s uid'.
Proof.
  unfold user_data_of, with_pending. simpl.
  rewrite lookup_insert. by destruct (decide (uid = uid')).
Qed.

Lemma pending_of_with_pending (s : store) (uid uid' : Z) (images : list image) :
  pending_of (with_pending s uid images) uid'
  = if decide (uid = uid') then images else pending_of s uid'.
Proof.
  unfold pending_of. rewrite user_data_of_with_pending.
  by destruct (decide (uid = uid')).
Qed.

Lemma get_model_with_pending (s : store) (uid uid' : Z) (images : list image) :
  get_model (user_data_of (with_pending s uid images) uid')
  = get_model (user_data_of s uid').
Proof.
  rewrite user_data_of_with_pending.
  by destruct (decide (uid = uid')) as [<- |].
Qed.

Lemma user_data_of_with_model (s : store) (uid uid' : Z) (model : string) :
  user_data_of (with_model s uid model) uid'
  = if decide (uid = uid')
    then UserData (Some model) (ud_pending_images (user_data_of s uid))
    else user_data_of s uid'.
Proof.
  unfold user_data_of, with_model. simpl.
  rewrite lookup_insert. by destruct (decide (uid = uid')).
Qed.

Lemma pending_of_with_model (s : store) (uid uid' : Z) (model : string) :
  pending_of (with_model s uid model) uid' = pending_of s uid'.
Proof.
  unfold pending_of. rewrite user_data_of_with_model.
  by destruct (decide (uid = uid')) as [<- |].
Qed.

Lemma is_edit_mode_tests (model : string) :
  is_edit_mode model = true ->
  String.eqb model "create" = false
  /\ String.eqb model "dalle_create" = false
  /\ String.eqb model "gpt-5.2" = false
  /\ is_create model = false.
Proof.
  unfold is_edit_mode, is_create.
  destruct (String.eqb model "create"), (String.eqb model "dalle_create"),
    (String.eqb model "gpt-5.2"); simpl; intros H; try discriminate; auto.
Qed.

Lemma nonempty_false {A : Type} (l : list A) : nonempty l = false <-> l = [].
Proof. destruct l; simpl; split; congruence. Qed.

Lemma nonempty_true {A : Type} (l : list A) : nonempty l = true <-> l <> [].
Proof. destruct l; simpl; split; congruence. Qed.

End Stores.

(** ** [handle_text] *)

Section HandleText.
Import Bot.
Variable w : world.

(** An instruction in an edit mode with nothing buffered. *)
Lemma handle_text_no_images (upd : update) (s : store) :
  is_edit_mode (get_model (user_data_of s (effective_user upd))) = true ->
  pending_of s (effective_user upd) = [] ->
  handle_text w upd s
  = (inr tt, s, [(s, ReplyText (effective_user upd) MsgSendImageFirst)]).
Proof.
  intros Hmode Hpending.
  apply is_edit_mode_tests in Hmode as (H1 & H2 & H3 & _).
  unfold handle_text. rewrite bind_get_user_data. cbv zeta.
  rewrite H1, H2, H3.
  fold (pending_of s (effective_user upd)). rewrite Hpending. reflexivity.
Qed.

(** The two outcomes of [handle_text]: one reply and nothing else, or
    the buffer emptied and then [process_and_reply]. *)
Lemma handle_text_cases (upd : update) (s : store) :
  let uid := effective_user upd in
  (exists m : reply, handle_text w upd s = (inr tt, s, [(s, ReplyText uid m)]))
  \/ (exists (pre : trace) (images : list image) (prompt : text),
        Forall (fun sa => is_api_call (snd sa) = false) pre
        /\ handle_text w upd s
           = (inr tt, with_pending s uid [],
              pre ++ trace_of (process_and_reply w upd uid images prompt
                                 (with_pending s uid [])))).
Proof.
  intros uid. unfold handle_text. rewrite bind_get_user_data. cbv zeta.
  fold uid.
  set (t := strip (default [] (msg_text (upd_message upd)))).
  set (ud := user_data_of s uid).
  assert (Hgo : forall (limit : Z) (n : nat) (m : reply) (images : list image),
    exists (pre : trace) (images' : list image) (prompt : text),
      Forall (fun sa => is_api_call (snd sa) = false) pre
      /\ ((if limit <? len t
           then reply_text upd m;; mret (cut_to n t)
           else mret t) ≫= fun text0 =>
          set_pending_images uid [];; process_and_reply w upd uid images text0) s
         = (inr tt, with_pending s uid [],
            pre ++ trace_of (process_and_reply w upd uid images' prompt
                               (with_pending s uid [])))).
  { intros limit n m images. destruct (limit <? len t).
    - exists [(s, ReplyText uid m)], images, (cut_to n t).
      split; [by repeat constructor |].
      destruct (quiet_process_and_reply w upd uid images (cut_to n t)
                  (with_pending s uid [])) as ([] & tr & Hrun & _).
      rewrite bind_run. simpl. rewrite bind_run. simpl.
      rewrite Hrun. reflexivity.
    - exists [], images, t. split; [constructor |].
      destruct (quiet_process_and_reply w upd uid images t
                  (with_pending s uid [])) as ([] & tr & Hrun & _).
      rewrite bind_run. simpl. rewrite bind_run. simpl.
      rewrite Hrun. reflexivity. }
  destruct (String.eqb (get_model ud) "create").
  { destruct (nonempty t); simpl; [right; apply Hgo | left; eauto]. }
  destruct (String.eqb (get_model ud) "dalle_create").
  { destruct (nonempty t); simpl; [right; apply Hgo | left; eauto]. }
  destruct (String.eqb (get_model ud) "gpt-5.2").
  { destruct (nonempty t); simpl; [right; apply Hgo | left; eauto]. }
  destruct (nonempty (pending_images ud)); simpl; [right; apply Hgo | left; eauto].
Qed.

End HandleText.

(** C8. In each of the edit modes (gpt-image-1, gpt-image-1.5,
    dall-e-2) a text message that arrives while no image is buffered is
    answered with "send an image first" and nothing else: the trace
    holds that one reply, so no backend call is made, and the store is
    unchanged. *)
Theorem edit_mode_text_without_images_rejected
    (w : world) (upd : Bot.update) (s : Bot.store) :
  In (Bot.get_model (Bot.user_data_of s (Bot.effective_user upd)))
     ["gpt-image-1"; "gpt-image-1.5"; "dall-e-2"]%string ->
  Bot.pending_of s (Bot.effective_user upd) = [] ->
  Bot.handle_text w upd s
  = (inr tt, s,
     [(s, Bot.ReplyText (Bot.effective_user upd) Bot.MsgSendImageFirst)]).
Proof.
  intros Hmode Hpending. apply handle_text_no_images; [| exact Hpending].
  simpl in Hmode. destruct Hmode as [<- | [<- | [<- | []]]]; reflexivity.
Qed.

Lemma edit_mode_text_without_images_rejected_witness :
  Bot.handle_text Samples.failing_world
    (Samples.text_update 7 "make it blue") (Samples.one_user 7 "dall-e-2" [])
  = (inr tt, Samples.one_user 7 "dall-e-2" [],
     [(Samples.one_user 7 "dall-e-2" [], Bot.ReplyText 7 Bot.MsgSendImageFirst)]).
Proof.
  apply (edit_mode_text_without_images_rejected Samples.failing_world
           (Samples.text_update 7 "make it blue")
           (Samples.one_user 7 "dall-e-2" [])).
  - vm_compute. right. right. left. reflexivity.
  - vm_compute. reflexivity.
Defined.


(** ** Invariants of the store through the handlers *)

Section Invariants.
Import Bot.
Variable w : world.
Variable I : store -> Prop.
Hypothesis I_pending :
  forall (s : store) (uid : Z) (images : list image),
    (length images <= 10)%nat -> I s -> I (with_pending s uid images).
Hypothesis I_model :
  forall (s : store) (uid : Z) (model : string), I s -> I (with_model s uid model).

Lemma keeps_quiet {A : Type} (c : M A) : quiet answers c -> keeps I any_value c.
Proof. apply quiet_keeps. Qed.

Lemma keeps_set_pending_images (uid : Z) (images : list image) :
  (length images <= 10)%nat -> keeps I any_value (set_pending_images uid images).
Proof. intros Hlen. apply keeps_update; [| done]. intros s. by apply I_pending. Qed.

Lemma keeps_set_model (uid : Z) (model : string) :
  keeps I any_value (set_model uid model).
Proof. apply keeps_update; [| done]. intros s. by apply I_model. Qed.

Lemma keeps_get_file (fid : string) : keeps I any_value (get_file w fid).
Proof.
  intros s HI. unfold get_file, store_of, trace_of. simpl.
  split; [exact HI | split; [| done]]. by repeat constructor.
Qed.

Lemma keeps_process_and_reply (upd : update) (ctx : Z)
    (images : list image) (prompt : text) :
  keeps I any_value (process_and_reply w upd ctx images prompt).
Proof. apply keeps_quiet, quiet_process_and_reply. Qed.

Lemma length_last_n {A : Type} (k : nat) (l : list A) :
  (length (last_n k l) <= k)%nat.
Proof. unfold last_n. rewrite length_drop. lia. Qed.

Lemma keeps_cap_and_route (target : update) (uid : Z) (model : string)
    (images : list image) (cap : text) :
  keeps I any_value (cap_and_route w target uid model images cap).
Proof.
  unfold cap_and_route.
  apply keeps_bind with (Q := fun imgs : list image => (length imgs <= 10)%nat).
  - destruct (Z.ltb_spec 10 (len images)) as [Hlong | Hshort].
    + apply keeps_bind with (Q := any_value).
      * apply keeps_quiet, quiet_reply_text.
      * intros _ _. apply keeps_ret, length_last_n.
    + apply keeps_ret. unfold len in Hshort. lia.
  - intros imgs Hlen. destruct (nonempty cap).
    + apply keeps_bind with (Q := any_value).
      * apply keeps_set_pending_images. simpl. lia.
      * intros _ _. apply keeps_process_and_reply.
    + apply keeps_bind with (Q := any_value).
      * by apply keeps_set_pending_images.
      * intros _ _. apply keeps_quiet, quiet_reply_text.
Qed.

Ltac keeps_step :=
  match goal with
  | |- keeps _ _ (set_pending_images _ []) =>
      apply keeps_set_pending_images; simpl; lia
  | |- keeps _ _ (process_and_reply _ _ _ _ _) => apply keeps_process_and_reply
  | |- keeps _ _ (cap_and_route _ _ _ _ _ _) => apply keeps_cap_and_route
  | |- keeps _ _ (reply_text _ _) => apply keeps_quiet, quiet_reply_text
  | |- keeps _ _ (emit _) => apply (quiet_keeps (fun _ => True)), quiet_emit; exact Logic.I
  | |- keeps _ _ (get_user_data _) => apply keeps_quiet, quiet_get_user_data
  | |- keeps _ _ (get_file _ _) => apply keeps_get_file
  | |- keeps _ _ (set_model _ _) => apply keeps_set_model
  | |- keeps _ _ (mret _) => apply keeps_ret; exact Logic.I
  | |- keeps _ _ (_ ≫= _) => apply keeps_bind with (Q := any_value); [| intros ? _]
  | |- keeps _ _ (if ?b then _ else _) => destruct b
  | |- keeps _ _ (match ?x with _ => _ end) => destruct x
  end.

Lemma keeps_handle_text (upd : update) : keeps I any_value (handle_text w upd).
Proof. unfold handle_text. cbv zeta. repeat keeps_step. Qed.

Lemma keeps_handle_command (c : command) (upd : update) :
  keeps I any_value (handle_command c upd).
Proof. unfold handle_command. repeat keeps_step. Qed.

Lemma keeps_download_all (fids : list string) (images : list image) :
  keeps I any_value (download_all w fids images).
Proof.
  revert images. induction fids as [| fid rest IH]; intros images; simpl.
  - by apply keeps_ret.
  - apply keeps_bind with (Q := any_value); [apply keeps_get_file |].
    intros file _. apply IH.
Qed.

Lemma keeps_process_media_group (data : group) :
  keeps I any_value (process_media_group w data).
Proof.
  unfold process_media_group. cbv zeta.
  repeat first [apply keeps_download_all | keeps_step].
Qed.

(** The album operations, for an [I] that ignores the album. *)
Lemma keeps_group_pop (group_id : string) :
  ignores_group I group_id -> keeps I any_value (group_pop group_id).
Proof.
  intros Hfree s HI. unfold group_pop, store_of, trace_of, without_group. simpl.
  split; [| split; [constructor | done]].
  apply Hfree; [| exact HI]. intros k Hk. by rewrite lookup_delete_ne.
Qed.

Lemma keeps_collect_album (upd : update) (group_id file_id : string) (cap : text) :
  ignores_group I group_id -> keeps I any_value (collect_album upd group_id file_id cap).
Proof.
  intros Hfree. unfold collect_album.
  apply keeps_bind with (Q := any_value).
  { intros s HI. unfold group_is_open, store_of, trace_of. simpl.
    split; [exact HI | split; [constructor | done]]. }
  intros is_open _. destruct is_open.
  - intros s HI. unfold group_append, store_of, trace_of. simpl.
    split; [| split; [constructor | done]].
    apply Hfree; [| exact HI]. intros k Hk. by rewrite lookup_alter_ne.
  - apply keeps_bind with (Q := any_value); [| intros _ _; keeps_step].
    intros s HI. unfold group_open, store_of, trace_of. simpl.
    split; [| split; [constructor | done]].
    apply Hfree; [| exact HI]. intros k Hk. by rewrite lookup_insert_ne.
Qed.

Lemma keeps_flush (group_id : string) :
  ignores_group I group_id ->
  keeps I any_value (process_media_group_after_delay w group_id).
Proof.
  intros Hfree. unfold process_media_group_after_delay.
  apply keeps_bind with (Q := any_value); [by apply keeps_group_pop |].
  intros [data |] _; [apply keeps_process_media_group | by apply keeps_ret].
Qed.

(** [handle_images], for an [I] that ignores the album the update adds
    a part to, if it adds one. *)
Lemma keeps_handle_images (upd : update) :
  (forall group_id : string,
      msg_media_group_id (upd_message upd) = Some group_id ->
      truthy_id (msg_media_group_id (upd_message upd)) = true ->
      truthy_id (album_file_id (upd_message upd)) = true ->
      ignores_group I group_id) ->
  keeps I any_value (handle_images w upd).
Proof.
  intros Hfree. unfold handle_images. cbv zeta.
  apply keeps_bind with (Q := any_value); [keeps_step |]. intros ud _.
  destruct (is_create (get_model ud) && negb (truthy_id (msg_media_group_id (upd_message upd)))).
  { repeat keeps_step. }
  destruct (truthy_id (msg_media_group_id (upd_message upd))) eqn:Hgroup.
  - destruct (truthy_id (album_file_id (upd_message upd))) eqn:Hfile.
    + destruct (msg_media_group_id (upd_message upd)) as [group_id |] eqn:Hid;
        [| discriminate].
      simpl. apply keeps_collect_album. by apply Hfree.
    + repeat keeps_step.
  - repeat keeps_step.
Qed.

End Invariants.

(** ** What the image handlers compute *)

Section ImageRuns.
Import Bot.
Variable w : world.

(** The cap of 10 and the routing, in closed form. *)
Lemma cap_and_route_run (target : update) (uid : Z) (model : string)
    (images : list image) (cap : text) (s : store) :
  let chat := effective_user target in
  let kept := if 10 <? len images then last_n 10 images else images in
  let pre := if 10 <? len images then [(s, ReplyText chat MsgMax10)] else [] in
  cap_and_route w target uid model images cap s
  = if nonempty cap
    then (inr tt, with_pending s uid [],
          pre ++ trace_of (process_and_reply w target uid kept cap
                             (with_pending s uid [])))
    else (inr tt, with_pending s uid kept,
          pre ++ [(with_pending s uid kept,
                   ReplyText chat (MsgReceived (len kept) (label_of model)))]).
Proof.
  intros chat kept pre. subst kept pre. unfold cap_and_route.
  destruct (10 <? len images), (nonempty cap);
    repeat (rewrite bind_run; simpl);
    try (match goal with
         | |- context [process_and_reply w ?u ?c ?i ?p ?s0] =>
             destruct (quiet_process_and_reply w u c i p s0) as ([] & tr & Hrun & _);
             rewrite Hrun
         end);
    reflexivity.
Qed.

(** A single photo or image document, outside the text-to-image modes. *)
Lemma handle_images_single_run (upd : update) (s : store) (fid : string) (file : image) :
  let uid := effective_user upd in
  let model := model_of s uid in
  let cap := strip (default [] (msg_caption (upd_message upd))) in
  truthy_id (msg_media_group_id (upd_message upd)) = false ->
  is_create model = false ->
  album_file_id (upd_message upd) = Some fid ->
  download w fid = inr file ->
  handle_images w upd s
  = let images := (if String.eqb model "gpt-5.2" then [] else pending_of s uid)
                  ++ [file] in
    let '(r, s', t) := cap_and_route w upd uid model images cap s in
    (r, s', (s, GetFile fid) :: t).
Proof.
  intros uid model cap Hsingle Hmode Hfid Hfile.
  unfold handle_images. rewrite bind_get_user_data. cbv zeta.
  fold uid. fold (model_of s uid). fold model. fold cap.
  rewrite Hmode, Hsingle. cbn [andb negb].
  unfold album_file_id in Hfid.
  destruct (msg_photo (upd_message upd)) as [| p ps].
  - destruct (msg_document (upd_message upd)) as [d |]; [| discriminate].
    destruct (is_image_mime d); [| discriminate].
    injection Hfid as <-. cbn [andb negb].
    rewrite bind_run. unfold get_file at 1. rewrite Hfile. reflexivity.
  - injection Hfid as <-.
    rewrite bind_run. unfold get_file at 1. rewrite Hfile. reflexivity.
Qed.

Lemma download_all_run (fids : list string) (files acc : list image) (s : store) :
  downloads w fids = Some files ->
  download_all w fids acc s
  = (inr (acc ++ files), s, map (fun fid => (s, GetFile fid)) fids).
Proof.
  revert files acc. induction fids as [| fid rest IH]; intros files acc; simpl.
  - intros [= <-]. by rewrite app_nil_r.
  - destruct (download w fid) as [e | file] eqn:Hfile; [discriminate |].
    destruct (downloads w rest) as [files' |]; [| discriminate].
    intros [= <-]. rewrite bind_run. unfold get_file at 1. rewrite Hfile.
    rewrite (IH files' (acc ++ [file]) eq_refl), <- app_assoc. reflexivity.
Qed.

(** The flush of an open album, outside the text-to-image modes, when
    every download succeeds. *)
Lemma flush_run (group_id : string) (s : store) (data : group) (files : list image) :
  let uid := user_id data in
  let model := model_of s uid in
  let s0 := without_group s group_id in
  media_groups s !! group_id = Some data ->
  is_create model = false ->
  downloads w (file_ids data) = Some files ->
  process_media_group_after_delay w group_id s
  = let batch := if String.eqb model "gpt-5.2" then take 1 files
                 else pending_of s uid ++ files in
    let '(r, s', t) :=
      cap_and_route w (first_update data) uid model batch (caption data) s0 in
    (r, s', map (fun fid => (s0, GetFile fid)) (file_ids data) ++ t).
Proof.
  intros uid model s0 Hopen Hmode Hfiles.
  unfold process_media_group_after_delay. rewrite bind_run.
  unfold group_pop at 1. rewrite Hopen. fold s0.
  unfold process_media_group. rewrite bind_get_user_data. cbv zeta.
  fold uid. change (get_model (user_data_of s0 uid)) with model.
  rewrite Hmode. rewrite bind_run.
  rewrite (download_all_run _ files [] s0 Hfiles). simpl app.
  rewrite bind_get_user_data.
  change (pending_images (user_data_of s0 uid)) with (pending_of s uid).
  destruct (cap_and_route w (first_update data) uid model _ (caption data) s0)
    as [[r s'] t].
  reflexivity.
Qed.

End ImageRuns.

(** ** The cap of 10 images *)

Section Cap.
Import Bot.

Lemma buffers_capped_with_pending (s : store) (uid : Z) (images : list image) :
  (length images <= 10)%nat -> buffers_capped s ->
  buffers_capped (with_pending s uid images).
Proof.
  intros Hlen Hs uid'. rewrite pending_of_with_pending.
  destruct (decide (uid = uid')); [exact Hlen | apply Hs].
Qed.

Lemma buffers_capped_with_model (s : store) (uid : Z) (model : string) :
  buffers_capped s -> buffers_capped (with_model s uid model).
Proof. intros Hs uid'. rewrite pending_of_with_model. apply Hs. Qed.

Lemma buffers_capped_ignores_group (group_id : string) :
  ignores_group buffers_capped group_id.
Proof. intros s groups _ Hs uid. apply Hs. Qed.

Lemma keeps_buffers_capped (w : world) (ev : event) :
  keeps buffers_capped any_value (handle w ev).
Proof.
  destruct ev as [c upd | upd | upd | group_id]; simpl.
  - apply keeps_handle_command. apply buffers_capped_with_model.
  - apply keeps_handle_images; [apply buffers_capped_with_pending |].
    intros group_id _ _ _. apply buffers_capped_ignores_group.
  - apply keeps_handle_text. apply buffers_capped_with_pending.
  - apply keeps_flush; [apply buffers_capped_with_pending |].
    apply buffers_capped_ignores_group.
Qed.

Lemma length_last_n_long {A : Type} (k : nat) (l : list A) :
  (k <= length l)%nat -> length (last_n k l) = k.
Proof. intros Hlen. unfold last_n. rewrite length_drop. lia. Qed.

End Cap.

(** C1. (1) Every handler keeps every buffer at 10 images or fewer.
    (2) A single photo or image document that arrives in an edit mode
    and would make the buffer exceed 10: the user is sent the warning,
    the 10 most recent images are kept, and they become the buffer (no
    caption) or are dispatched with the caption (the buffer is then
    empty). (3) The same for the flush of an album whose downloads
    succeed. *)
Theorem pending_buffer_capped (w : world) :
  (forall (ev : Bot.event) (s : Bot.store),
      Bot.buffers_capped s -> Bot.buffers_capped (Bot.store_of (Bot.handle w ev s)))
  /\ (forall (upd : Bot.update) (s : Bot.store) (fid : string) (file : image),
        let uid := Bot.effective_user upd in
        let model := Bot.model_of s uid in
        let cap := strip (default [] (Bot.msg_caption (Bot.upd_message upd))) in
        let kept := last_n 10 (Bot.pending_of s uid ++ [file]) in
        truthy_id (Bot.msg_media_group_id (Bot.upd_message upd)) = false ->
        Bot.is_edit_mode model = true ->
        Bot.album_file_id (Bot.upd_message upd) = Some fid ->
        download w fid = inr file ->
        10 < len (Bot.pending_of s uid ++ [file]) ->
        length kept = 10%nat
        /\ Bot.handle_images w upd s
           = (if nonempty cap
              then (inr tt, Bot.with_pending s uid [],
                    (s, Bot.GetFile fid) :: (s, Bot.ReplyText uid Bot.MsgMax10)
                    :: Bot.trace_of (Bot.process_and_reply w upd uid kept cap
                                       (Bot.with_pending s uid [])))
              else (inr tt, Bot.with_pending s uid kept,
                    [(s, Bot.GetFile fid); (s, Bot.ReplyText uid Bot.MsgMax10);
                     (Bot.with_pending s uid kept,
                      Bot.ReplyText uid (Bot.MsgReceived (len kept) (Bot.label_of model)))]))
        /\ Bot.pending_of (Bot.store_of (Bot.handle_images w upd s)) uid
           = (if nonempty cap then [] else kept))
  /\ (forall (group_id : string) (s : Bot.store) (data : Bot.group) (files : list image),
        let uid := Bot.user_id data in
        let chat := Bot.effective_user (Bot.first_update data) in
        let model := Bot.model_of s uid in
        let cap := Bot.caption data in
        let s0 := Bot.without_group s group_id in
        let kept := last_n 10 (Bot.pending_of s uid ++ files) in
        Bot.media_groups s !! group_id = Some data ->
        Bot.is_edit_mode model = true ->
        Bot.downloads w (Bot.file_ids data) = Some files ->
        10 < len (Bot.pending_of s uid ++ files) ->
        length kept = 10%nat
        /\ Bot.process_media_group_after_delay w group_id s
           = (if nonempty cap
              then (inr tt, Bot.with_pending s0 uid [],
                    map (fun fid => (s0, Bot.GetFile fid)) (Bot.file_ids data)
                    ++ (s0, Bot.ReplyText chat Bot.MsgMax10)
                    :: Bot.trace_of (Bot.process_and_reply w (Bot.first_update data)
                                       uid kept cap (Bot.with_pending s0 uid [])))
              else (inr tt, Bot.with_pending s0 uid kept,
                    map (fun fid => (s0, Bot.GetFile fid)) (Bot.file_ids data)
                    ++ [(s0, Bot.ReplyText chat Bot.MsgMax10);
                        (Bot.with_pending s0 uid kept,
                         Bot.ReplyText chat (Bot.MsgReceived (len kept) (Bot.label_of model)))]))
        /\ Bot.pending_of (Bot.store_of (Bot.process_media_group_after_delay w group_id s)) uid
           = (if nonempty cap then [] else kept)).
Proof.
  split; [| split].
  - intros ev s Hs. by destruct (keeps_buffers_capped w ev s Hs) as (Hs' & _).
  - intros upd s fid file uid model cap kept Hsingle Hmode Hfid Hfile Hlong.
    apply is_edit_mode_tests in Hmode as (_ & _ & Hchat & Hcreate).
    split; [apply length_last_n_long; unfold len in Hlong; lia |].
    assert (Hrun := handle_images_single_run w upd s fid file Hsingle Hcreate Hfid Hfile).
    cbv zeta in Hrun. fold uid model cap in Hrun. rewrite Hchat in Hrun.
    rewrite cap_and_route_run in Hrun. cbv zeta in Hrun.
    destruct (Z.ltb_spec 10 (len (Bot.pending_of s uid ++ [file]))); [| lia].
    fold kept in Hrun. rewrite Hrun.
    destruct (nonempty cap); (split; [reflexivity |]);
      unfold Bot.store_of; cbn [fst snd];
      rewrite pending_of_with_pending; by destruct (decide (uid = uid)).
  - intros group_id s data files uid chat model cap s0 kept Hopen Hmode Hfiles Hlong.
    apply is_edit_mode_tests in Hmode as (_ & _ & Hchat & Hcreate).
    split; [apply length_last_n_long; unfold len in Hlong; lia |].
    assert (Hrun := flush_run w group_id s data files Hopen Hcreate Hfiles).
    cbv zeta in Hrun. fold uid model cap s0 in Hrun. rewrite Hchat in Hrun.
    rewrite cap_and_route_run in Hrun. cbv zeta in Hrun.
    destruct (Z.ltb_spec 10 (len (Bot.pending_of s uid ++ files))); [| lia].
    fold kept chat in Hrun. rewrite Hrun.
    destruct (nonempty cap); (split; [reflexivity |]);
      unfold Bot.store_of; cbn [fst snd];
      rewrite pending_of_with_pending; by destruct (decide (uid = uid)).
Qed.

(** ** [ImageProcessor.process] with dall-e-2 *)

Section LegacyEdit.
Import Bot.
Variable w : world.

Lemma api_calls_app (t1 t2 : trace) :
  api_calls (t1 ++ t2) = api_calls t1 ++ api_calls t2.
Proof. unfold api_calls, actions. by rewrite map_app, omap_app. Qed.

Lemma api_calls_to_thread (s : store) (calls : list api_call) :
  api_calls (map (fun c => (s, ApiCall c)) calls) = calls.
Proof.
  induction calls as [| c rest IH]; [reflexivity |].
  change (api_calls (map (fun c0 => (s, ApiCall c0)) (c :: rest)))
    with (c :: api_calls (map (fun c0 => (s, ApiCall c0)) rest)).
  by rewrite IH.
Qed.

Lemma finish_image_run (upd : update) (label : string)
    (r : exn + (image * option Processor.usage_str)) (s : store) :
  exists t : trace,
    finish_image upd label r s = (inr tt, s, t) /\ api_calls t = [].
Proof.
  unfold finish_image. destruct r as [e | [result_bytes usage_line]].
  - destruct (exn_class_of e); eexists; split; reflexivity.
  - eexists; split; reflexivity.
Qed.

(** In the mode dall-e-2 the calls of [process_and_reply] to the client
    are those of [process] with that model. *)
Lemma process_and_reply_dalle2 (upd : update) (ctx : Z)
    (images : list image) (prompt : text) (s : store) :
  model_of s ctx = "dall-e-2"%string ->
  api_calls (trace_of (process_and_reply w upd ctx images prompt s))
  = snd (Processor.process w images prompt "dall-e-2").
Proof.
  intros Hmodel. unfold process_and_reply. rewrite bind_get_user_data. cbv zeta.
  unfold model_of in Hmodel. rewrite Hmodel.
  change ("dall-e-2" =? "create")%string with false.
  change ("dall-e-2" =? "dalle_create")%string with false.
  change ("dall-e-2" =? "gpt-5.2")%string with false. cbv iota.
  rewrite bind_run. unfold reply_text at 1, emit at 1.
  rewrite bind_run. unfold to_thread at 1. cbn [fst snd].
  destruct (finish_image_run upd (label_of "dall-e-2")
              (fst (Processor.process w images prompt "dall-e-2")) s)
    as (t & Hrun & Hnone).
  rewrite Hrun. unfold trace_of. cbn [snd].
  change (api_calls (?a :: ?l)) with (api_calls ([a] ++ l)).
  rewrite !api_calls_app, api_calls_to_thread, Hnone, app_nil_r. reflexivity.
Qed.

End LegacyEdit.

(** C9. With the model dall-e-2 and a batch of more than one image,
    every call that [process] makes to the edit endpoint carries one
    image, the first of the batch; when the batch has at most 10
    images, the prompt is not blank and the first image can be
    normalised, [process] makes exactly that one call; and these are
    the calls that [process_and_reply] makes for a user in the mode
    dall-e-2. *)
Theorem dalle2_edit_only_first_image
    (w : world) (first second : image) (rest : list image) (prompt : text) :
  let images := first :: second :: rest in
  let calls := snd (Processor.process w images prompt "dall-e-2") in
  Forall (fun c => exists (req : edit_request) (f : api_file),
                     c = ImagesEdit req
                     /\ Processor._to_api_format w first 0 = inr f
                     /\ er_image req = [f]
                     /\ er_model req = "dall-e-2"%string)
         calls
  /\ (len images <= 10 ->
      Processor.blank prompt = false ->
      forall f : api_file,
        Processor._to_api_format w first 0 = inr f ->
        calls = [ImagesEdit (EditRequest "dall-e-2" [f]
                               (SYSTEM_PROMPT w ++ strip prompt)
                               Processor.QUALITY "1024x1024" Processor.OUTPUT_FORMAT)])
  /\ (forall (upd : Bot.update) (uid : Z) (s : Bot.store),
        Bot.model_of s uid = "dall-e-2"%string ->
        Bot.api_calls (Bot.trace_of (Bot.process_and_reply w upd uid images prompt s))
        = calls).
Proof.
  intros images calls.
  assert (Hbot : forall (upd : Bot.update) (uid : Z) (s : Bot.store),
             Bot.model_of s uid = "dall-e-2"%string ->
             Bot.api_calls (Bot.trace_of (Bot.process_and_reply w upd uid images prompt s))
             = calls).
  { intros upd uid s Hmodel. by apply process_and_reply_dalle2. }
  revert Hbot. subst calls. unfold Processor.process, Processor.process_with.
  change (Processor.model_or_default "dall-e-2") with "dall-e-2"%string.
  change ("dall-e-2" =? "dall-e-2")%string with true.
  assert (Hmany : (1 <? len images) = true).
  { apply Z.ltb_lt. unfold len, images. simpl length. lia. }
  assert (Hone : (1 <=? len images) = true).
  { apply Z.leb_le. unfold len, images. simpl length. lia. }
  rewrite Hmany, Hone. cbn [andb negb].
  change (take 1 images) with [first].
  destruct (Z.leb_spec (len images) 10) as [Hle | Hgt]; cbn [negb].
  2: { intros Hbot. split; [constructor | split; [lia | exact Hbot]]. }
  destruct (Processor.blank prompt) eqn:Hblank.
  { intros Hbot. split; [constructor | split; [discriminate | exact Hbot]]. }
  cbn [Processor.api_images_from].
  destruct (Processor._to_api_format w first 0) as [e | f] eqn:Hfirst.
  { intros Hbot. split; [constructor | split; [intros _ _ f' [=] | exact Hbot]]. }
  assert (Hcalls : forall r, snd (match images_edit w r with
                                  | inl e => (inl e, [ImagesEdit r])
                                  | inr result => (Processor.decode_result w result, [ImagesEdit r])
                                  end) = [ImagesEdit r]).
  { intros r. by destruct (images_edit w r). }
  rewrite Hcalls. intros Hbot. split; [| split; [| exact Hbot]].
  - repeat constructor. eexists _, f. repeat split; reflexivity.
  - intros _ _ f' [= <-]. reflexivity.
Qed.

(** ** The mode commands *)

(** C2, as amended. A mode command writes the model of the user and
    leaves every buffer as it was; [/help] changes nothing. *)
Theorem mode_switch_keeps_pending
    (c : Bot.command) (upd : Bot.update) (s : Bot.store) (uid : Z) :
  let s' := Bot.store_of (Bot.handle_command c upd s) in
  Bot.pending_of s' uid = Bot.pending_of s uid
  /\ Bot.ud_pending_images (Bot.user_data_of s' uid)
     = Bot.ud_pending_images (Bot.user_data_of s uid)
  /\ Bot.ud_model (Bot.user_data_of s' (Bot.effective_user upd))
     = match Bot.command_model c with
       | Some model => Some model
       | None => Bot.ud_model (Bot.user_data_of s (Bot.effective_user upd))
       end.
Proof.
  intros s'. subst s'. unfold Bot.handle_command.
  destruct (Bot.command_model c) as [model |].
  - rewrite bind_run.
    cbv [Bot.set_model Bot.reply_text Bot.emit Bot.store_of fst snd].
    rewrite pending_of_with_model, !user_data_of_with_model.
    destruct (decide (Bot.effective_user upd = uid)) as [<- |];
      destruct (decide (Bot.effective_user upd = Bot.effective_user upd)); done.
  - done.
Qed.

(** C2, the claim as worded, refuted. A user in the chat mode with one
    buffered image sends [/image1]: the buffer still holds the image. *)
Lemma mode_switch_leaves_image_buffered :
  Bot.pending_of
    (Bot.store_of (Bot.handle_command Bot.CmdImage1 (Samples.text_update 7 "/image1")
                     (Samples.one_user 7 "gpt-5.2" [[x01]])))
    7
  = [[x01]]
  /\ Bot.pending_of
       (Bot.store_of (Bot.handle_command Bot.CmdImage1 (Samples.text_update 7 "/image1")
                        (Samples.one_user 7 "gpt-5.2" [[x01]])))
       7
     <> [].
Proof. vm_compute. split; [reflexivity | discriminate]. Qed.

(** ** Albums: collecting and flushing *)

Section Albums.
Import Bot.
Variable w : world.
Variable group_id : string.

Lemma album_is_with_pending (v : option group) (s : store) (uid : Z)
    (images : list image) :
  (length images <= 10)%nat -> album_is group_id v s -> album_is group_id v (with_pending s uid images).
Proof. intros _ Hs. exact Hs. Qed.

Lemma album_is_with_model (v : option group) (s : store) (uid : Z) (model : string) :
  album_is group_id v s -> album_is group_id v (with_model s uid model).
Proof. intros Hs. exact Hs. Qed.

Lemma album_is_ignores_other (v : option group) (other : string) :
  other <> group_id -> ignores_group (album_is group_id v) other.
Proof.
  intros Hne s groups Hsame Hs. unfold album_is in *. simpl.
  rewrite Hsame; [exact Hs | congruence].
Qed.

(** An update that adds a part to the album. *)
Lemma handle_images_album_run (upd : update) (s : store) (fid : string) :
  msg_media_group_id (upd_message upd) = Some group_id ->
  truthy_id (Some group_id) = true ->
  album_file_id (upd_message upd) = Some fid ->
  truthy_id (Some fid) = true ->
  handle_images w upd s
  = match media_groups s !! group_id with
    | Some data =>
        (inr tt,
         Store (<[group_id := add_file_id fid data]> (media_groups s)) (users s),
         [])
    | None =>
        let opened :=
          Store (<[group_id :=
                     Group [fid] (strip (default [] (msg_caption (upd_message upd))))
                           (effective_user upd) upd]> (media_groups s))
                (users s) in
        (inr tt, opened, [(opened, CreateTask group_id)])
    end.
Proof.
  intros Hid Hgroup Hfid Hfile.
  unfold handle_images. rewrite bind_get_user_data. cbv zeta.
  rewrite Hid, Hgroup, Hfid, Hfile. rewrite andb_false_r. cbn [default from_option]. unfold id.
  unfold collect_album. rewrite bind_run. unfold group_is_open at 1.
  destruct (media_groups s !! group_id) as [data |] eqn:Hopen.
  - rewrite bool_decide_eq_true_2 by eauto.
    unfold group_append. cbn [app]. do 3 f_equal.
    apply map_eq. intros k. rewrite lookup_alter, lookup_insert.
    destruct (decide (group_id = k)) as [<- |]; [by rewrite Hopen | done].
  - rewrite bool_decide_eq_false_2 by (intros [? ?]; discriminate).
    reflexivity.
Qed.

(** The fields of the album entry after such an update. *)
Lemma handle_images_album_entry (upd : update) (s : store) (fid : string) :
  album_part group_id (Images upd) = Some fid ->
  media_groups (store_of (handle_images w upd s)) !! group_id
  = Some (match media_groups s !! group_id with
          | Some data => add_file_id fid data
          | None => Group [fid] (strip (default [] (msg_caption (upd_message upd))))
                          (effective_user upd) upd
          end)
  /\ users (store_of (handle_images w upd s)) = users s
  /\ result_of (handle_images w upd s) = inr tt.
Proof.
  unfold album_part.
  destruct (truthy_id (msg_media_group_id (upd_message upd))) eqn:Hgroup; [| done].
  destruct (bool_decide (msg_media_group_id (upd_message upd) = Some group_id)) eqn:Hid;
    [| done].
  apply bool_decide_eq_true_1 in Hid.
  destruct (truthy_id (album_file_id (upd_message upd))) eqn:Hfile; [| done].
  cbn [andb]. intros Hfid.
  rewrite Hid in Hgroup. rewrite Hfid in Hfile.
  rewrite (handle_images_album_run upd s fid Hid Hgroup Hfid Hfile).
  destruct (media_groups s !! group_id) as [data |];
    unfold store_of, result_of; cbn [fst snd media_groups users];
    by rewrite lookup_insert_eq.
Qed.

(** Every other event leaves the entry of the album alone. *)
Lemma keeps_album_is (v : option group) (ev : event) :
  album_part group_id ev = None ->
  ev <> Flush group_id ->
  keeps (album_is group_id v) any_value (handle w ev).
Proof.
  intros Hpart Hflush.
  destruct ev as [c upd | upd | upd | other]; simpl.
  - apply keeps_handle_command. apply album_is_with_model.
  - apply keeps_handle_images; [apply album_is_with_pending |].
    intros other Hid Hgroup Hfile. apply album_is_ignores_other. intros ->.
    unfold album_part in Hpart.
    rewrite Hgroup, Hfile, bool_decide_eq_true_2 in Hpart by exact Hid.
    cbn [andb] in Hpart. rewrite Hpart in Hfile. discriminate.
  - apply keeps_handle_text. apply album_is_with_pending.
  - apply keeps_flush; [apply album_is_with_pending |].
    apply album_is_ignores_other. congruence.
Qed.

Lemma run_cons (ev : event) (rest : list event) (s : store) :
  fst (run w (ev :: rest) s) = fst (run w rest (store_of (handle w ev s))).
Proof.
  simpl. unfold store_of.
  destruct (handle w ev s) as [[r s1] t1]. simpl.
  by destruct (run w rest s1).
Qed.

Lemma collected_step (before : option (list string)) (fid : string)
    (parts : list string) :
  collected (Some (default [] before ++ [fid])) parts
  = collected before (fid :: parts).
Proof.
  destruct parts as [| p parts]; simpl; [reflexivity |].
  by rewrite <- app_assoc.
Qed.

(** The album collects, in order, the parts of the events that name it. *)
Lemma run_collects (evs : list event) (s : store) :
  (forall ev, ev ∈ evs -> ev <> Flush group_id) ->
  file_ids <$> (media_groups (fst (run w evs s)) !! group_id)
  = collected (file_ids <$> (media_groups s !! group_id))
              (omap (album_part group_id) evs).
Proof.
  revert s. induction evs as [| ev rest IH]; intros s Hflush; [reflexivity |].
  rewrite run_cons, IH by (intros ev' Hin; apply Hflush; by right).
  assert (Hev : ev <> Flush group_id) by (apply Hflush; by left).
  cbn [omap list_omap].
  destruct (album_part group_id ev) as [fid |] eqn:Hpart.
  - rewrite <- collected_step. f_equal.
    destruct ev as [c upd | upd | upd | other]; try discriminate. simpl handle.
    destruct (handle_images_album_entry upd s fid Hpart) as (-> & _ & _).
    by destruct (media_groups s !! group_id).
  - destruct (keeps_album_is (media_groups s !! group_id) ev Hpart Hev s eq_refl)
      as (-> & _ & _). reflexivity.
Qed.

(** A flush leaves the album closed, whichever album it flushes. *)
Lemma keeps_closed_flush (other : string) :
  keeps (album_is group_id None) any_value (process_media_group_after_delay w other).
Proof.
  unfold process_media_group_after_delay.
  apply keeps_bind with (Q := any_value).
  - intros s Hs. unfold group_pop, store_of, trace_of, without_group, album_is in *.
    cbn [fst snd media_groups].
    split; [| split; [constructor | done]].
    apply lookup_delete_None. by right.
  - intros [data |] _; [| by apply keeps_ret].
    apply keeps_process_media_group;
      [apply album_is_with_pending].
Qed.

Lemma keeps_closed (ev : event) :
  album_part group_id ev = None ->
  keeps (album_is group_id None) any_value (handle w ev).
Proof.
  intros Hpart. destruct ev as [c upd | upd | upd | other];
    [by apply keeps_album_is .. | apply keeps_closed_flush].
Qed.

Lemma run_keeps_closed (evs : list event) (s : store) :
  (forall ev, ev ∈ evs -> album_part group_id ev = None) ->
  album_is group_id None s -> album_is group_id None (fst (run w evs s)).
Proof.
  revert s. induction evs as [| ev rest IH]; intros s Hparts Hs; [exact Hs |].
  rewrite run_cons. apply IH; [intros ev' Hin; apply Hparts; by right |].
  apply (keeps_closed ev); [apply Hparts; by left | exact Hs].
Qed.

(** The flush of a closed album does nothing. *)
Lemma flush_closed (s : store) :
  media_groups s !! group_id = None ->
  process_media_group_after_delay w group_id s = (inr tt, s, []).
Proof.
  intros Hclosed. unfold process_media_group_after_delay.
  rewrite bind_run. unfold group_pop, without_group. rewrite Hclosed. simpl.
  rewrite delete_id by exact Hclosed. by destruct s.
Qed.

(** The flush of an open album removes it, then processes it. *)
Lemma flush_open (s : store) (data : group) :
  media_groups s !! group_id = Some data ->
  process_media_group_after_delay w group_id s
  = process_media_group w data (without_group s group_id).
Proof.
  intros Hopen. unfold process_media_group_after_delay.
  rewrite bind_run. unfold group_pop at 1. rewrite Hopen.
  by destruct (process_media_group w data (without_group s group_id)) as [[r s'] t].
Qed.

Lemma fetched_answers (t : trace) :
  Forall (fun sa => answers (snd sa)) t -> fetched t = [].
Proof.
  induction t as [| [s a] t IH]; intros Hall; [reflexivity |].
  apply Forall_cons in Hall as [Ha Ht].
  destruct a; try contradiction; exact (IH Ht).
Qed.

Lemma fetched_app (t1 t2 : trace) : fetched (t1 ++ t2) = fetched t1 ++ fetched t2.
Proof. unfold fetched, actions. by rewrite map_app, omap_app. Qed.

Lemma fetched_downloads (s : store) (fids : list string) :
  fetched (map (fun fid => (s, GetFile fid)) fids) = fids.
Proof.
  induction fids as [| fid rest IH]; [reflexivity |].
  change (fetched (map (fun fid0 => (s, GetFile fid0)) (fid :: rest)))
    with (fid :: fetched (map (fun fid0 => (s, GetFile fid0)) rest)).
  by rewrite IH.
Qed.

Lemma cap_and_route_answers (target : update) (uid : Z) (model : string)
    (images : list image) (cap : text) (s : store) :
  Forall (fun sa => answers (snd sa))
         (trace_of (cap_and_route w target uid model images cap s)).
Proof.
  rewrite cap_and_route_run. cbv zeta.
  assert (Hpre : Forall (fun sa : store * action => answers (snd sa))
                   (if 10 <? len images
                    then [(s, ReplyText (effective_user target) MsgMax10)] else [])).
  { destruct (10 <? len images); by repeat constructor. }
  destruct (nonempty cap); unfold trace_of at 1; cbn [snd];
    apply Forall_app; (split; [exact Hpre |]).
  - match goal with
    | |- context [process_and_reply w ?u ?c ?i ?p ?s0] =>
        destruct (process_and_reply_run w u c i p s0) as [_ Hall]
    end.
    eapply Forall_impl; [exact Hall |]. by intros sa [_ Ha].
  - by repeat constructor.
Qed.

End Albums.

(** C3. Starting with the album closed, after any events that do not
    flush it, the album holds exactly the file ids of the events that
    added a part to it, in the order of arrival, repeated ids included;
    the flush then takes that entry out of [media_groups] and processes
    it; outside the text-to-image modes, when the downloads succeed, it
    fetches exactly those files in that order and hands them on (after
    the buffer in an edit mode, the first one only in the chat mode). *)
Theorem album_flush_batch
    (w : world) (group_id : string) (evs : list Bot.event) (s : Bot.store) :
  Bot.media_groups s !! group_id = None ->
  (forall ev, ev ∈ evs -> ev <> Bot.Flush group_id) ->
  omap (Bot.album_part group_id) evs <> [] ->
  let parts := omap (Bot.album_part group_id) evs in
  let s1 := fst (Bot.run w evs s) in
  let s0 := Bot.without_group s1 group_id in
  exists data : Bot.group,
    Bot.media_groups s1 !! group_id = Some data
    /\ Bot.file_ids data = parts
    /\ Bot.process_media_group_after_delay w group_id s1
       = Bot.process_media_group w data s0
    /\ (Bot.is_create (Bot.model_of s1 (Bot.user_id data)) = false ->
        forall files : list image,
          Bot.downloads w parts = Some files ->
          Bot.fetched (Bot.trace_of (Bot.process_media_group_after_delay w group_id s1))
          = parts
          /\ Bot.process_media_group_after_delay w group_id s1
             = (let model := Bot.model_of s1 (Bot.user_id data) in
                let batch := if String.eqb model "gpt-5.2" then take 1 files
                             else Bot.pending_of s1 (Bot.user_id data) ++ files in
                let '(r, s', t) :=
                  Bot.cap_and_route w (Bot.first_update data) (Bot.user_id data)
                                    model batch (Bot.caption data) s0 in
                (r, s', map (fun fid => (s0, Bot.GetFile fid)) parts ++ t))).
Proof.
  intros Hclosed Hflush Hparts parts s1 s0.
  pose proof (run_collects w group_id evs s Hflush) as Hrun.
  rewrite Hclosed in Hrun. fold parts s1 in Hrun.
  destruct parts as [| p parts'] eqn:Eparts; [done |]. simpl in Hrun.
  destruct (Bot.media_groups s1 !! group_id) as [data |] eqn:Hopen; [| done].
  injection Hrun as Hids.
  exists data. split; [reflexivity |]. split; [exact Hids |].
  split; [by apply flush_open |].
  intros Hmode files Hfiles. rewrite <- Hids in Hfiles.
  pose proof (flush_run w group_id s1 data files Hopen Hmode Hfiles) as Hflushrun.
  cbv zeta in Hflushrun. fold s0 in Hflushrun. rewrite Hids in Hflushrun.
  split; [| exact Hflushrun].
  rewrite Hflushrun.
  match goal with
  | |- context [Bot.cap_and_route w ?u ?c ?m ?b ?cp s0] =>
      pose proof (cap_and_route_answers w u c m b cp s0) as Hanswers;
      destruct (Bot.cap_and_route w u c m b cp s0) as [[r s'] t]
  end.
  unfold Bot.trace_of in *. cbn [snd] in *.
  by rewrite fetched_app, fetched_downloads, (fetched_answers t Hanswers), app_nil_r.
Qed.


(** C7. The flush of an album performs each of its effects in a store
    from which the album is already gone, and ends in such a store; on
    an open album it is the processing of the popped entry in the store
    without the album; on a closed album it does nothing at all; and
    after it, through any later events that do not open the album anew
    (other flushes of the same album among them), a flush of the album
    does nothing: an album is processed at most once. *)
Theorem flush_at_most_once
    (w : world) (group_id : string) (s : Bot.store) (evs : list Bot.event) :
  let x := Bot.process_media_group_after_delay w group_id s in
  Forall (fun sa => Bot.media_groups (fst sa) !! group_id = None) (Bot.trace_of x)
  /\ Bot.media_groups (Bot.store_of x) !! group_id = None
  /\ (forall data : Bot.group,
        Bot.media_groups s !! group_id = Some data ->
        x = Bot.process_media_group w data (Bot.without_group s group_id))
  /\ (forall s' : Bot.store,
        Bot.media_groups s' !! group_id = None ->
        Bot.process_media_group_after_delay w group_id s' = (inr tt, s', []))
  /\ ((forall ev, ev ∈ evs -> Bot.album_part group_id ev = None) ->
      let s2 := fst (Bot.run w evs (Bot.store_of x)) in
      Bot.process_media_group_after_delay w group_id s2 = (inr tt, s2, [])).
Proof.
  intros x.
  assert (Hgone : Forall (fun sa => Bot.media_groups (fst sa) !! group_id = None)
                         (Bot.trace_of x)
                  /\ Bot.media_groups (Bot.store_of x) !! group_id = None).
  { subst x. destruct (Bot.media_groups s !! group_id) as [data |] eqn:Hopen.
    - rewrite (flush_open w group_id s data Hopen).
      destruct (keeps_process_media_group w (Bot.album_is group_id None)
                  (album_is_with_pending group_id None) data
                  (Bot.without_group s group_id)) as (Hend & Htrace & _).
      { apply lookup_delete_eq. }
      by split.
    - rewrite (flush_closed w group_id s Hopen). by split. }
  destruct Hgone as [Htrace Hend].
  split; [exact Htrace |]. split; [exact Hend |].
  split; [intros data Hopen; by apply flush_open |].
  split; [intros s' Hclosed; by apply flush_closed |].
  intros Hparts s2. apply flush_closed.
  by apply (run_keeps_closed w group_id evs).
Qed.

(** ** A dispatch, as one step *)

Section DispatchRun.
Import Bot.
Variable w : world.

Lemma dispatch_run (upd : update) (uid : Z) (images : list image)
    (prompt : text) (s : store) :
  (set_pending_images uid [];; process_and_reply w upd uid images prompt) s
  = (inr tt, with_pending s uid [],
     trace_of (process_and_reply w upd uid images prompt (with_pending s uid []))).
Proof.
  destruct (quiet_process_and_reply w upd uid images prompt (with_pending s uid []))
    as ([] & tr & Hrun & _).
  rewrite bind_run. unfold set_pending_images. rewrite Hrun. reflexivity.
Qed.

End DispatchRun.

(** ** Coroutines among the other tasks of the loop *)

Section TaskFacts.
Import Bot Tasks.
Variable w : world.

(** *** Without interference a coroutine is the one step of [Bot.M] *)

Lemma run_alone_bind {A B : Type} (t : task A) (k : A -> task B) (s : store) :
  run_with [] (Tasks.bind t k) s
  = Bot.bind (run_with [] t) (fun x => run_with [] (k x)) s.
Proof.
  revert s. induction t as [x | e | write rest IH | group_id rest IH | effects rest IH];
    intros s.
  - unfold Bot.bind. simpl. by destruct (run_with [] (k x) s) as [[r s'] tr].
  - reflexivity.
  - simpl. apply IH.
  - simpl. rewrite IH. unfold Bot.bind.
    destruct (run_with [] rest s) as [[[e | x] s1] t1]; [reflexivity |].
    by destruct (run_with [] (k x) s1) as [[r s2] t2].
  - simpl. rewrite IH. unfold Bot.bind, id.
    destruct (run_with [] rest s) as [[[e | x] s1] t1]; [reflexivity |].
    destruct (run_with [] (k x) s1) as [[r s2] t2]. by rewrite app_assoc.
Qed.

Lemma alone_bind {A B : Type} (t : task A) (c : M A)
    (k : A -> task B) (k' : A -> M B) :
  (forall s, run_with [] t s = c s) ->
  (forall x s, run_with [] (k x) s = k' x s) ->
  forall s, run_with [] (Tasks.bind t k) s = Bot.bind c k' s.
Proof.
  intros Ht Hk s. rewrite run_alone_bind. unfold Bot.bind. rewrite Ht.
  destruct (c s) as [[[e | x] s1] t1]; [reflexivity |]. by rewrite Hk.
Qed.

Lemma run_with_get_user_data {B : Type} (others : interference) (uid : Z)
    (k : user_data -> task B) (s : store) :
  run_with others (Tasks.bind (Tasks.get_user_data uid) k) s
  = run_with others (k (user_data_of s uid)) s.
Proof. reflexivity. Qed.

Lemma alone_get_file (fid : string) (s : store) :
  run_with [] (Tasks.get_file w fid) s = Bot.get_file w fid s.
Proof.
  unfold Tasks.get_file, Bot.get_file. simpl.
  by destruct (download w fid).
Qed.

Lemma alone_to_thread {A : Type} (r : (exn + A) * list api_call) (s : store) :
  run_with [] (Tasks.to_thread r) s = Bot.to_thread r s.
Proof.
  unfold Tasks.to_thread, Bot.to_thread. simpl. by rewrite app_nil_r, map_map.
Qed.

Ltac alone_step :=
  match goal with
  | |- forall s, run_with [] (Tasks.bind _ _) s = Bot.bind _ _ s =>
      apply alone_bind; [| intros ?]
  | |- forall s, run_with [] (if ?b then _ else _) s = _ => destruct b
  | |- forall s, run_with [] (match ?x with _ => _ end) s = _ => destruct x
  | |- forall s, run_with [] (Tasks.to_thread _) s = _ => apply alone_to_thread
  | |- forall s, run_with [] (Tasks.get_file _ _) s = _ => apply alone_get_file
  | |- forall s, run_with [] _ s = _ => intros ?; reflexivity
  end.

Ltac bare :=
  cbv [mbind mret Tasks.task_bind Tasks.task_ret Bot.M_bind Bot.M_ret].

Lemma alone_reply_parts (upd : update) (parts : list text) :
  forall s, run_with [] (Tasks.reply_parts upd parts) s = Bot.reply_parts upd parts s.
Proof.
  induction parts as [| part rest IH]; [reflexivity |].
  cbn [Tasks.reply_parts Bot.reply_parts]. bare. apply alone_bind; [intros ?; reflexivity | intros _; exact IH].
Qed.

Lemma alone_finish_image (upd : update) (label : string)
    (r : exn + (image * option Processor.usage_str)) :
  forall s, run_with [] (Tasks.finish_image upd label r) s
            = Bot.finish_image upd label r s.
Proof.
  unfold Tasks.finish_image, Bot.finish_image. cbv zeta. bare.
  repeat alone_step.
Qed.

Lemma alone_process_and_reply (upd : update) (ctx : Z)
    (images : list image) (prompt : text) :
  forall s, run_with [] (Tasks.process_and_reply w upd ctx images prompt) s
            = Bot.process_and_reply w upd ctx images prompt s.
Proof.
  unfold Tasks.process_and_reply, Bot.process_and_reply. cbv zeta. bare.
  apply alone_bind; [intros ?; reflexivity | intros ud].
  repeat first [apply alone_finish_image | apply alone_reply_parts | alone_step].
Qed.

Lemma alone_handle_text (upd : update) :
  forall s, run_with [] (Tasks.handle_text w upd) s = Bot.handle_text w upd s.
Proof.
  unfold Tasks.handle_text, Bot.handle_text. cbv zeta. bare.
  apply alone_bind; [intros ?; reflexivity | intros ud].
  repeat first [apply alone_process_and_reply | alone_step].
Qed.

Lemma alone_cap_and_route (target : update) (uid : Z) (model : string)
    (images : list image) (cap : text) :
  forall s, run_with [] (Tasks.cap_and_route w target uid model images cap) s
            = Bot.cap_and_route w target uid model images cap s.
Proof.
  unfold Tasks.cap_and_route, Bot.cap_and_route. bare.
  repeat first [apply alone_process_and_reply | alone_step].
Qed.

Lemma alone_download_all (fids : list string) :
  forall (images : list image) (s : store),
    run_with [] (Tasks.download_all w fids images) s = Bot.download_all w fids images s.
Proof.
  induction fids as [| fid rest IH]; intros images; [reflexivity |].
  cbn [Tasks.download_all Bot.download_all]. bare. apply alone_bind; [apply alone_get_file | intros file; apply IH].
Qed.

Lemma alone_flush (group_id : string) :
  forall s, run_with [] (Tasks.process_media_group_after_delay w group_id) s
            = Bot.process_media_group_after_delay w group_id s.
Proof.
  unfold Tasks.process_media_group_after_delay, Bot.process_media_group_after_delay.
  bare. apply alone_bind; [intros ?; reflexivity | intros [data |]; [| reflexivity]].
  unfold Tasks.process_media_group, Bot.process_media_group. cbv zeta. bare.
  repeat first [apply alone_process_and_reply | apply alone_cap_and_route
               | apply alone_download_all | alone_step].
Qed.

Lemma alone_cap_and_store (upd : update) (uid : Z)
    (images : list image) (cap : text) (s : store) :
  run_with [] (Tasks.cap_and_store w upd uid images cap) s
  = Bot.cap_and_route w upd uid (get_model (user_data_of s uid)) images cap s.
Proof.
  assert (Hend : forall imgs : list image,
    run_with [] (if nonempty cap
                 then Tasks.bind (Tasks.set_pending_images uid [])
                        (fun _ => Tasks.process_and_reply w upd uid imgs cap)
                 else Tasks.bind (Tasks.set_pending_images uid imgs)
                        (fun _ => Tasks.bind (Tasks.get_user_data uid)
                           (fun ud => Tasks.reply_text upd
                                        (MsgReceived (len imgs) (label_of (get_model ud))))))
             s
    = (if nonempty cap
       then Bot.bind (Bot.set_pending_images uid [])
              (fun _ => Bot.process_and_reply w upd uid imgs cap)
       else Bot.bind (Bot.set_pending_images uid imgs)
              (fun _ => Bot.reply_text upd
                          (MsgReceived (len imgs)
                             (label_of (get_model (user_data_of s uid)))))) s).
  { intros imgs. destruct (nonempty cap).
    - revert s. apply alone_bind; [intros ?; reflexivity | intros _].
      apply alone_process_and_reply.
    - simpl. unfold id. by rewrite get_model_with_pending. }
  unfold Tasks.cap_and_store, Bot.cap_and_route. bare.
  rewrite run_alone_bind. unfold Bot.bind at 1 3.
  destruct (10 <? len images).
  - change (run_with [] (Tasks.bind (Tasks.reply_text upd MsgMax10)
                           (fun _ => Return (last_n 10 images))) s)
      with (inr (last_n 10 images) : exn + list image, s,
            [(s, ReplyText (effective_user upd) MsgMax10)]).
    change ((Bot.bind (Bot.reply_text upd MsgMax10)
               (fun _ => Bot.ret (last_n 10 images))) s)
      with (inr (last_n 10 images) : exn + list image, s,
            [(s, ReplyText (effective_user upd) MsgMax10)]).
    cbv iota beta. by rewrite Hend.
  - change (run_with [] (Return images) s)
      with (inr images : exn + list image, s, @nil (store * action)).
    change (Bot.ret images s)
      with (inr images : exn + list image, s, @nil (store * action)).
    cbv iota beta. by rewrite Hend.
Qed.

Lemma alone_handle_images (upd : update) (s : store) :
  run_with [] (Tasks.handle_images w upd) s = Bot.handle_images w upd s.
Proof.
  assert (Hfile : forall (fid : string) (images : list image) (cap : text),
    run_with []
      (Tasks.bind (Tasks.get_file w fid)
         (fun file => Tasks.cap_and_store w upd (effective_user upd)
                        (images ++ [file]) cap)) s
    = Bot.bind (Bot.get_file w fid)
        (fun file => Bot.cap_and_route w upd (effective_user upd)
                       (get_model (user_data_of s (effective_user upd)))
                       (images ++ [file]) cap) s).
  { intros fid images cap. rewrite run_alone_bind. unfold Bot.bind.
    rewrite alone_get_file. unfold Bot.get_file.
    destruct (download w fid) as [e | file]; [reflexivity |].
    by rewrite alone_cap_and_store. }
  unfold Tasks.handle_images, Bot.handle_images. cbv zeta. bare.
  rewrite run_with_get_user_data.
  change (Bot.bind (Bot.get_user_data (effective_user upd)) ?k s)
    with (let '(r, s2, t2) := k (user_data_of s (effective_user upd)) s in
          (r, s2, [] ++ t2)).
  set (ud := user_data_of s (effective_user upd)).
  assert (Hnil : forall x : (exn + unit) * store * trace,
             (let '(r, s2, t2) := x in (r, s2, [] ++ t2)) = x).
  { by intros [[r s2] t2]. }
  rewrite Hnil.
  destruct (is_create (get_model ud) && negb (truthy_id (msg_media_group_id (upd_message upd)))).
  { destruct (nonempty _); [| reflexivity].
    revert s ud Hfile Hnil. intros s _ _ _. revert s.
    apply alone_bind; [intros ?; reflexivity | intros _; apply alone_process_and_reply]. }
  destruct (truthy_id (msg_media_group_id (upd_message upd))).
  { destruct (truthy_id (album_file_id (upd_message upd))).
    - unfold Tasks.collect_album, Bot.collect_album. bare.
      clear. revert s. repeat alone_step.
    - by destruct (msg_document (upd_message upd)). }
  destruct (msg_photo (upd_message upd)) as [| p ps].
  - destruct (msg_document (upd_message upd)) as [d |].
    + destruct (negb (is_image_mime d)); [reflexivity | apply Hfile].
    + apply alone_cap_and_store.
  - apply Hfile.
Qed.

Lemma alone_handle_command (c : command) (upd : update) (s : store) :
  run_with [] (Tasks.handle_command c upd) s = Bot.handle_command c upd s.
Proof. unfold Tasks.handle_command, Bot.handle_command. by destruct (command_model c). Qed.

(** Without interference the handlers as coroutines are the handlers
    of [Bot]. *)
Lemma alone_handle (ev : event) (s : store) :
  run_with [] (Tasks.handle w ev) s = Bot.handle w ev s.
Proof.
  destruct ev as [c upd | upd | upd | group_id]; simpl.
  - apply alone_handle_command.
  - apply alone_handle_images.
  - apply alone_handle_text.
  - apply alone_flush.
Qed.


(** *** Coroutines that write nothing *)










(** *** A coroutine and what follows it *)


(** *** Coroutines that call no backend *)











(** *** The buffer is emptied before the backend is called *)














End TaskFacts.




(** ** The theorems at concrete inputs *)

Lemma one_user_capped (uid : Z) (model : string) (images : list image) :
  (length images <= 10)%nat ->
  Bot.buffers_capped (Samples.one_user uid model images).
Proof.
  intros Hlen uid'. unfold Bot.pending_of, Bot.user_data_of, Samples.one_user.
  cbn [Bot.users]. destruct (decide (uid = uid')) as [<- | Hne].
  - by rewrite lookup_singleton_eq.
  - rewrite lookup_singleton_ne by exact Hne. simpl. lia.
Qed.

Lemma pending_buffer_capped_witness :
  Bot.buffers_capped
    (Bot.store_of (Bot.handle Samples.working_world
                     (Bot.Images (Samples.photo_update 7 None "f11" None))
                     (Samples.one_user 7 "gpt-image-1" Samples.ten_images)))
  /\ Bot.pending_of
       (Bot.store_of (Bot.handle_images Samples.working_world
                        (Samples.photo_update 7 None "f11" None)
                        (Samples.one_user 7 "gpt-image-1" Samples.ten_images)))
       7
     = drop 1 Samples.ten_images ++ [Samples.bytes_of "f11"]
  /\ Bot.pending_of
       (Bot.store_of (Bot.process_media_group_after_delay Samples.working_world "album"
                        (Samples.with_album 7 "gpt-image-1" Samples.ten_images
                           "album" ["f1"; "f2"]%string "")))
       7
     = drop 2 Samples.ten_images ++ [Samples.bytes_of "f1"; Samples.bytes_of "f2"].
Proof.
  destruct (pending_buffer_capped Samples.working_world) as (Hall & Hsingle & Hflush).
  split; [| split].
  - apply Hall, one_user_capped. simpl. lia.
  - refine (proj2 (proj2 (Hsingle (Samples.photo_update 7 None "f11" None)
                            (Samples.one_user 7 "gpt-image-1" Samples.ten_images)
                            "f11"%string (Samples.bytes_of "f11") _ _ _ _ _)));
      vm_compute; reflexivity.
  - refine (proj2 (proj2 (Hflush "album"%string
                            (Samples.with_album 7 "gpt-image-1" Samples.ten_images
                               "album" ["f1"; "f2"]%string "")
                            (Bot.Group ["f1"; "f2"]%string (of_ascii "") 7
                               (Samples.photo_update 7 (Some "album"%string) "f0" None))
                            [Samples.bytes_of "f1"; Samples.bytes_of "f2"] _ _ _ _)));
      vm_compute; reflexivity.
Defined.

Lemma album_flush_batch_witness :
  exists data : Bot.group,
    Bot.media_groups (fst (Bot.run Samples.working_world Samples.album_events
                             (Samples.one_user 7 "gpt-image-1" [])))
      !! "album"%string
    = Some data
    /\ Bot.file_ids data = ["f1"; "f2"; "f1"]%string.
Proof.
  destruct (album_flush_batch Samples.working_world "album" Samples.album_events
              (Samples.one_user 7 "gpt-image-1" []))
    as (data & Hopen & Hids & _).
  - vm_compute. reflexivity.
  - intros ev Hin. unfold Samples.album_events in Hin.
    repeat (apply elem_of_cons in Hin as [-> | Hin]; [discriminate |]).
    by apply elem_of_nil in Hin.
  - vm_compute. discriminate.
  - exists data. split; [exact Hopen | exact Hids].
Defined.



Lemma flush_at_most_once_witness :
  Bot.media_groups
    (Bot.store_of (Bot.process_media_group_after_delay Samples.working_world "album"
                     (Samples.with_album 7 "gpt-image-1" [] "album" ["f1"; "f2"]%string "")))
    !! "album"%string
  = None
  /\ Bot.process_media_group_after_delay Samples.working_world "album"
       (Samples.one_user 7 "gpt-image-1" [])
     = (inr tt, Samples.one_user 7 "gpt-image-1" [], [])
  /\ Bot.process_media_group_after_delay Samples.working_world "album"
       (fst (Bot.run Samples.working_world Samples.later_events
               (Bot.store_of
                  (Bot.process_media_group_after_delay Samples.working_world "album"
                     (Samples.with_album 7 "gpt-image-1" [] "album"
                        ["f1"; "f2"]%string "")))))
     = (inr tt,
        fst (Bot.run Samples.working_world Samples.later_events
               (Bot.store_of
                  (Bot.process_media_group_after_delay Samples.working_world "album"
                     (Samples.with_album 7 "gpt-image-1" [] "album"
                        ["f1"; "f2"]%string "")))),
        []).
Proof.
  destruct (flush_at_most_once Samples.working_world "album"
              (Samples.with_album 7 "gpt-image-1" [] "album" ["f1"; "f2"]%string "")
              Samples.later_events)
    as (_ & Hgone & _ & Hclosed & Hlater).
  split; [exact Hgone |]. split.
  - apply Hclosed. vm_compute. reflexivity.
  - apply Hlater. intros ev Hin. unfold Samples.later_events in Hin.
    repeat (apply elem_of_cons in Hin as [-> | Hin]; [vm_compute; reflexivity |]).
    by apply elem_of_nil in Hin.
Defined.

Lemma dalle2_edit_only_first_image_witness :
  snd (Processor.process Samples.working_world [[x01]; [x02]]
         (of_ascii "make it blue") "dall-e-2")
  = [ImagesEdit (EditRequest "dall-e-2" [ApiFile 0 "png" [x01] "image/png"]
                   (SYSTEM_PROMPT Samples.working_world ++ strip (of_ascii "make it blue"))
                   Processor.QUALITY "1024x1024" Processor.OUTPUT_FORMAT)].
Proof.
  apply (proj1 (proj2 (dalle2_edit_only_first_image Samples.working_world
                         [x01] [x02] [] (of_ascii "make it blue")))).
  - vm_compute. discriminate.
  - vm_compute. reflexivity.
  - vm_compute. reflexivity.
Defined.

(** ** [strip] and the substring test *)

Lemma lstrip_split (t : text) :
  exists pre : text, t = pre ++ lstrip t /\ Forall (fun c => isspace c = true) pre.
Proof.
  induction t as [| c t IH]; [by exists [] |].
  simpl. destruct (isspace c) eqn:Hc.
  - destruct IH as (pre & Heq & Hpre). exists (c :: pre).
    split; [simpl; congruence | by constructor].
  - by exists [].
Qed.

Lemma lstrip_head (t : text) (c : char) (rest : text) :
  lstrip t = c :: rest -> isspace c = false.
Proof.
  induction t as [| x t IH]; [discriminate |].
  simpl. destruct (isspace x) eqn:Hx; [exact IH |]. by intros [= <- _].
Qed.

Lemma lstrip_keep (c : char) (rest : text) :
  isspace c = false -> lstrip (c :: rest) = c :: rest.
Proof. intros Hc. simpl. by rewrite Hc. Qed.

Lemma last_snoc_inv {A : Type} (l : list A) (d : A) :
  last l = Some d -> exists init : list A, l = init ++ [d].
Proof.
  intros Hlast. destruct (decide_rel (=) (length l) 0%nat) as [Hnil | Hne].
  - destruct l; [discriminate | discriminate].
  - destruct (exists_last (l := l)) as (init & d' & ->).
    { intros ->. by apply Hne. }
    rewrite last_snoc in Hlast. injection Hlast as ->. by exists init.
Qed.

Lemma trimmed_strip (t : text) : trimmed t -> strip t = t.
Proof.
  destruct t as [| c rest]; [reflexivity |].
  intros (Hc & d & Hlast & Hd). unfold strip.
  rewrite (lstrip_keep c rest Hc).
  destruct (last_snoc_inv _ d Hlast) as (init & ->).
  rewrite rev_unit, (lstrip_keep d _ Hd).
  change (d :: rev init) with ([d] ++ rev init).
  rewrite rev_app_distr, rev_involutive. reflexivity.
Qed.

Lemma strip_trimmed (t : text) : trimmed (strip t).
Proof.
  unfold strip.
  destruct (lstrip (rev (lstrip t))) as [| a z'] eqn:Hz; [exact Logic.I |].
  pose proof (lstrip_head _ a z' Hz) as Ha.
  destruct (lstrip_split (rev (lstrip t))) as (pre & Hsplit & _).
  rewrite Hz in Hsplit.
  assert (Hy : lstrip t = rev (a :: z') ++ rev pre).
  { rewrite <- rev_app_distr, <- Hsplit, rev_involutive. reflexivity. }
  destruct (rev (a :: z')) as [| c r] eqn:Hrev.
  { apply (f_equal (@length char)) in Hrev. rewrite length_rev in Hrev. discriminate. }
  unfold trimmed. split.
  - apply (lstrip_head t c (r ++ rev pre)). by rewrite Hy.
  - exists a. split; [| exact Ha].
    rewrite <- Hrev. simpl rev. apply last_snoc.
Qed.

Lemma strip_idempotent (t : text) : strip (strip t) = strip t.
Proof. apply trimmed_strip, strip_trimmed. Qed.

Lemma strip_occurs (t : text) : occurs_in (strip t) t.
Proof.
  unfold strip.
  destruct (lstrip_split t) as (pre & Ht & _).
  destruct (lstrip_split (rev (lstrip t))) as (post & Hy & _).
  exists pre, (rev post).
  rewrite <- rev_app_distr, <- Hy, rev_involutive. exact Ht.
Qed.

Lemma occurs_in_length (piece whole : text) :
  occurs_in piece whole -> (length piece <= length whole)%nat.
Proof. intros (pre & post & ->). rewrite !length_app. lia. Qed.

Lemma strip_length (t : text) : (length (strip t) <= length t)%nat.
Proof. apply occurs_in_length, strip_occurs. Qed.

Lemma trimmed_not_blank (t : text) :
  trimmed t -> t <> [] -> Processor.blank t = false.
Proof.
  intros Ht Hne. unfold Processor.blank. rewrite (trimmed_strip t Ht).
  by destruct t.
Qed.

(** The text cut at [n] characters, with the marker: trimmed when the
    text is, since the marker ends with a bracket. *)
Lemma trimmed_cut_to (n : nat) (t : text) :
  trimmed t -> t <> [] -> (0 < n)%nat -> trimmed (Bot.cut_to n t).
Proof.
  intros Ht Hne Hn. destruct t as [| c rest]; [done |].
  destruct Ht as (Hc & _). destruct n as [| n]; [lia |].
  unfold Bot.cut_to. cbn [take app]. split; [exact Hc |].
  exists 93%N. split; [| reflexivity].
  change (c :: take n rest ++ Bot.cut_marker)
    with ((c :: take n rest) ++ Bot.cut_marker).
  unfold Bot.cut_marker.
  change [10; 10; 91; 46; 46; 46; 32; 1086; 1073; 1088; 1077; 1079; 1072; 1085; 1086; 93]%N
    with ([10; 10; 91; 46; 46; 46; 32; 1086; 1073; 1088; 1077; 1079; 1072; 1085; 1086]%N ++ [93%N]).
  rewrite app_assoc. apply last_snoc.
Qed.

Lemma length_cut_to (n : nat) (t : text) :
  (length (Bot.cut_to n t) <= n + 16)%nat.
Proof.
  unfold Bot.cut_to. rewrite length_app, length_take. simpl. lia.
Qed.

Lemma starts_with_spec (needle hay : text) :
  starts_with needle hay = true <-> exists post : text, hay = needle ++ post.
Proof.
  revert hay. induction needle as [| a needle IH]; intros hay; simpl.
  - split; [intros _; by exists hay | done].
  - destruct hay as [| b hay].
    + split; [done | intros (post & [=])].
    + rewrite andb_true_iff, N.eqb_eq, IH. split.
      * intros (-> & post & ->). by exists post.
      * intros (post & [= -> ->]). split; [done | by exists post].
Qed.

(** [contains] is the substring test. *)
Lemma contains_spec (needle hay : text) :
  contains needle hay = true <-> occurs_in needle hay.
Proof.
  induction hay as [| b hay IH].
  - simpl. rewrite orb_false_r, starts_with_spec. split.
    + intros (post & Heq). by exists [], post.
    + intros (pre & post & Heq).
      destruct pre; [by exists post |]. discriminate.
  - cbn [contains]. rewrite orb_true_iff, starts_with_spec, IH. split.
    + intros [(post & Heq) | (pre & post & Heq)].
      * by exists [], post.
      * exists (b :: pre), post. simpl. congruence.
    + intros (pre & post & Heq). destruct pre as [| p pre].
      * left. by exists post.
      * right. injection Heq as _ Heq. by exists pre, post.
Qed.

(** ** [processor.py]: validation and the request built *)

Section ProcessorFacts.
Import Processor.
Variable w : world.

(** The files prepared for the client: one per image, in order, numbered
    from [index]. *)
Lemma api_images_from_ok (images : list image) :
  forall (index : nat) (files : list api_file),
    api_images_from w index images = inr files ->
    length files = length images
    /\ forall (i : nat) (img : image),
         images !! i = Some img ->
         exists (ext mime : string) (buf : image),
           normalize w img = Some (ext, mime, buf)
           /\ files !! i = Some (ApiFile (index + i) ext buf mime).
Proof.
  induction images as [| item rest IH]; intros index files; simpl.
  - intros [= <-]. split; [reflexivity | intros i img Hi; by destruct i].
  - unfold _to_api_format at 1.
    destruct (normalize w item) as [[[ext mime] buf] |] eqn:Hitem; [| discriminate].
    destruct (api_images_from w (S index) rest) as [e | fs] eqn:Hrest; [discriminate |].
    intros [= <-]. destruct (IH (S index) fs Hrest) as [Hlen Hfiles].
    split; [simpl; congruence |].
    intros [| i] img Hi; simpl in Hi.
    + injection Hi as <-. exists ext, mime, buf.
      rewrite Nat.add_0_r. by split.
    + destruct (Hfiles i img Hi) as (ext' & mime' & buf' & Hnorm & Hfile).
      exists ext', mime', buf'. split; [exact Hnorm |].
      simpl. rewrite Hfile. do 2 f_equal. lia.
Qed.

(** The comprehension fails exactly on an image that Pillow cannot
    read, with the [ValueError] of [_to_api_format]. *)
Lemma api_images_from_error (images : list image) :
  forall (index : nat) (e : exn),
    api_images_from w index images = inl e ->
    e = value_error ErrBadImage
    /\ exists img : image, img ∈ images /\ normalize w img = None.
Proof.
  induction images as [| item rest IH]; intros index e; simpl; [discriminate |].
  unfold _to_api_format at 1.
  destruct (normalize w item) as [[[ext mime] buf] |] eqn:Hitem.
  - destruct (api_images_from w (S index) rest) as [e' | fs] eqn:Hrest; [| discriminate].
    intros [= <-]. destruct (IH (S index) e' Hrest) as (He & img & Hin & Hnone).
    split; [exact He |]. exists img. split; [by right | exact Hnone].
  - intros [= <-]. split; [reflexivity |]. exists item. split; [by left | exact Hitem].
Qed.

(** [process], once the count is right and the prompt is not blank. *)
Lemma process_run (images : list image) (prompt : text) (model : string) :
  1 <= len images <= 10 ->
  blank prompt = false ->
  process w images prompt model
  = match api_images_from w 0 (sent_images model images) with
    | inl e => (inl e, [])
    | inr files =>
        let req := EditRequest (model_or_default model) files
                     (SYSTEM_PROMPT w ++ strip prompt) QUALITY
                     (sent_size model images) OUTPUT_FORMAT in
        (match images_edit w req with
         | inl e => inl e
         | inr result => decode_result w result
         end, [ImagesEdit req])
    end.
Proof.
  intros [Hlo Hhi] Hblank. unfold process, process_with, sent_images, sent_size.
  destruct (Z.leb_spec 1 (len images)); [| lia].
  destruct (Z.leb_spec (len images) 10); [| lia].
  cbn [andb negb]. rewrite Hblank.
  destruct ((model_or_default model =? "dall-e-2")%string && (1 <? len images)).
  - destruct (api_images_from w 0 (take 1 images)) as [e | files]; [reflexivity |].
    cbv zeta. by destruct (images_edit w _).
  - destruct (api_images_from w 0 images) as [e | files]; [reflexivity |].
    cbv zeta. by destruct (images_edit w _).
Qed.

(** An image comes out of [decode_result] only as the decoding of the
    first [b64_json], which is then not the empty string. *)
Lemma decode_result_ok (result : images_response) (b : image)
    (u : option usage_str) :
  decode_result w result = inr (b, u) ->
  exists d : text,
    head (resp_data result) = Some d /\ d <> []
    /\ b64decode w d = inr b
    /\ u = _format_usage (resp_usage result).
Proof.
  unfold decode_result. destruct (resp_data result) as [| d rest]; [discriminate |].
  destruct d as [| c d]; [discriminate |]. cbn [nonempty].
  destruct (b64decode w (c :: d)) as [e | decoded] eqn:Hdecode; [discriminate |].
  intros [= <- <-]. exists (c :: d). by repeat split.
Qed.

(** [process_create], once the prompt is not blank. *)
Lemma process_create_run (prompt : text) (model : string) :
  blank prompt = false ->
  model = "gpt-image-1.5"%string \/ model = "dall-e-2"%string ->
  let req :=
    if String.eqb model "dall-e-2"
    then GenerateRequest (strip prompt) "dall-e-2" "1024x1024" None None
                         (Some "b64_json"%string)
    else GenerateRequest (strip prompt) "gpt-image-1.5" SIZE (Some QUALITY)
                         (Some OUTPUT_FORMAT) None in
  process_create w prompt model
  = (match images_generate w req with
     | inl e => inl e
     | inr result => decode_result w result
     end, [ImagesGenerate req]).
Proof.
  intros Hblank [-> | ->]; unfold process_create, process_create_with; rewrite Hblank; simpl;
    by destruct (images_generate w _).
Qed.

End ProcessorFacts.

(** ** [process_and_reply], branch by branch *)

Section ReplyRuns.
Import Bot Trace.
Variable w : world.

Lemma actions_app (t1 t2 : trace) : actions (t1 ++ t2) = actions t1 ++ actions t2.
Proof. unfold actions. apply map_app. Qed.

Lemma observe_app {B : Type} (pick : action -> option B) (t1 t2 : trace) :
  observe pick (t1 ++ t2) = observe pick t1 ++ observe pick t2.
Proof. unfold observe. by rewrite actions_app, omap_app. Qed.

Lemma observe_calls {B : Type} (pick : action -> option B) (s : store)
    (calls : list api_call) :
  (forall c, pick (ApiCall c) = None) ->
  observe pick (map (fun c => (s, ApiCall c)) calls) = [].
Proof.
  intros Hpick. induction calls as [| c rest IH]; [reflexivity |].
  unfold observe in *. simpl. by rewrite Hpick.
Qed.

(** The end of an image branch: stays in [s], never raises; it sends
    either one photo and deletes the status message, or edits the
    status message into the error. *)
Lemma finish_image_trace (upd : update) (label : string)
    (r : exn + (image * option Processor.usage_str)) (s : store) :
  finish_image upd label r s
  = (inr tt, s,
     match r with
     | inl e => [(s, EditText (effective_user upd) (image_error_reply e))]
     | inr (b, u) => [(s, ReplyPhoto (effective_user upd) b label u);
                      (s, DeleteMessage (effective_user upd))]
     end).
Proof.
  unfold finish_image, image_error_reply. destruct r as [e | [b u]]; [| reflexivity].
  by destruct (exn_class_of e).
Qed.

(** The three image branches have one shape. *)
Lemma image_branch_run {A : Type} (upd : update) (status : reply) (label : string)
    (out : (exn + (image * option Processor.usage_str)) * list api_call)
    (s : store) :
  (reply_text upd status;; r ← to_thread out; finish_image upd label r) s
  = (inr tt, s,
     (s, ReplyText (effective_user upd) status)
     :: map (fun c => (s, ApiCall c)) (snd out)
     ++ match fst out with
        | inl e => [(s, EditText (effective_user upd) (image_error_reply e))]
        | inr (b, u) => [(s, ReplyPhoto (effective_user upd) b label u);
                         (s, DeleteMessage (effective_user upd))]
        end).
Proof.
  rewrite bind_run. unfold reply_text at 1, emit at 1.
  rewrite bind_run. unfold to_thread at 1. cbn [fst snd].
  rewrite finish_image_trace. reflexivity.
Qed.

Lemma process_and_reply_edit (upd : update) (ctx : Z) (images : list image)
    (prompt : text) (s : store) :
  is_edit_mode (model_of s ctx) = true ->
  let model := model_of s ctx in
  process_and_reply w upd ctx images prompt s
  = (inr tt, s,
     (s, ReplyText (effective_user upd) (MsgWorkingImages (label_of model)))
     :: map (fun c => (s, ApiCall c)) (snd (Processor.process w images prompt model))
     ++ match fst (Processor.process w images prompt model) with
        | inl e => [(s, EditText (effective_user upd) (image_error_reply e))]
        | inr (b, u) => [(s, ReplyPhoto (effective_user upd) b (label_of model) u);
                         (s, DeleteMessage (effective_user upd))]
        end).
Proof.
  intros Hmode model. apply is_edit_mode_tests in Hmode as (H1 & H2 & H3 & _).
  unfold process_and_reply. rewrite bind_get_user_data. cbv zeta.
  fold (model_of s ctx). fold model. fold model in H1, H2, H3.
  rewrite H1, H2, H3. apply (image_branch_run (A := unit)).
Qed.

Lemma process_and_reply_create (upd : update) (ctx : Z) (images : list image)
    (prompt : text) (s : store) :
  is_create (model_of s ctx) = true ->
  let model := model_of s ctx in
  let backend := if String.eqb model "create" then "gpt-image-1.5"%string
                 else "dall-e-2"%string in
  process_and_reply w upd ctx images prompt s
  = (inr tt, s,
     (s, ReplyText (effective_user upd) (MsgGenerating (label_of model)))
     :: map (fun c => (s, ApiCall c)) (snd (Processor.process_create w prompt backend))
     ++ match fst (Processor.process_create w prompt backend) with
        | inl e => [(s, EditText (effective_user upd) (image_error_reply e))]
        | inr (b, u) => [(s, ReplyPhoto (effective_user upd) b (label_of model) u);
                         (s, DeleteMessage (effective_user upd))]
        end).
Proof.
  intros Hmode model backend. subst backend.
  unfold process_and_reply. rewrite bind_get_user_data. cbv zeta.
  fold (model_of s ctx). fold model. fold model in Hmode.
  unfold is_create in Hmode.
  destruct (String.eqb model "create") eqn:H1.
  - apply (image_branch_run (A := unit)).
  - simpl in Hmode. rewrite Hmode. apply (image_branch_run (A := unit)).
Qed.

(** The chat branch: one call, with the first image if there is one. *)
Lemma process_and_reply_chat (upd : update) (ctx : Z) (images : list image)
    (prompt : text) (s : store) :
  model_of s ctx = "gpt-5.2"%string ->
  let out :=
    match images with
    | img :: _ => Processor.process_text_with_image w img prompt "gpt-5.2"
    | [] => Processor.process_text_only w prompt "gpt-5.2"
    end in
  process_and_reply w upd ctx images prompt s
  = (inr tt, s,
     (s, ReplyText (effective_user upd) MsgWorking)
     :: map (fun c => (s, ApiCall c)) (snd out)
     ++ match fst out with
        | inl e =>
            [(s, EditText (effective_user upd)
                   (match exn_class_of e with
                    | OtherException => MsgError (exn_str e)
                    | _ => MsgStr (exn_str e)
                    end))]
        | inr answer =>
            (s, DeleteMessage (effective_user upd))
            :: match Chunk.chunk_text answer Chunk.TELEGRAM_MAX_MESSAGE with
               | Some (p :: ps) =>
                   map (fun part => (s, ReplyText (effective_user upd) (MsgPart part)))
                       (p :: ps)
               | _ => [(s, ReplyText (effective_user upd) MsgEmptyAnswer)]
               end
        end).
Proof.
  intros Hmodel out.
  assert (Hparts : forall parts : list text,
             reply_parts upd parts s
             = (inr tt, s,
                map (fun part => (s, ReplyText (effective_user upd) (MsgPart part))) parts)).
  { induction parts as [| part rest IH]; [reflexivity |].
    cbn [reply_parts]. rewrite bind_run. unfold reply_text at 1, emit at 1.
    rewrite IH. reflexivity. }
  unfold process_and_reply. rewrite bind_get_user_data. cbv zeta.
  fold (model_of s ctx). rewrite Hmodel.
  change ("gpt-5.2" =? "create")%string with false.
  change ("gpt-5.2" =? "dalle_create")%string with false.
  change ("gpt-5.2" =? "gpt-5.2")%string with true. cbv iota.
  rewrite bind_run. unfold reply_text at 1, emit at 1.
  rewrite bind_run.
  assert (Hcall :
    (if nonempty images
     then match (if 1 <? len images then take 1 images else images) with
          | img :: _ => to_thread (Processor.process_text_with_image w img prompt "gpt-5.2")
          | [] => mret (inl (Exn IndexError None (ErrExternal [])))
          end
     else to_thread (Processor.process_text_only w prompt "gpt-5.2")) s
    = (inr (fst out), s, map (fun c => (s, ApiCall c)) (snd out))).
  { subst out. destruct images as [| img rest]; [reflexivity |].
    cbn [nonempty]. destruct (1 <? len (img :: rest)); reflexivity. }
  rewrite Hcall. cbn [fst snd].
  destruct (fst out) as [e | answer].
  - destruct (exn_class_of e); reflexivity.
  - rewrite bind_run. unfold emit at 1.
    destruct (Chunk.chunk_text answer Chunk.TELEGRAM_MAX_MESSAGE) as [[| p ps] |];
      [reflexivity | | reflexivity].
    rewrite Hparts. reflexivity.
Qed.

(** [handle_text], when it dispatches. *)
Lemma handle_text_dispatch (upd : update) (s : store) :
  let uid := effective_user upd in
  let model := model_of s uid in
  let t := strip (default [] (msg_text (upd_message upd))) in
  let cleared := with_pending s uid [] in
  text_dispatches model (pending_of s uid) t = true ->
  handle_text w upd s
  = (inr tt, cleared,
     (if Z.of_nat (text_limit model) <? len t
      then [(s, ReplyText uid (cut_warning model))] else [])
     ++ trace_of (process_and_reply w upd uid
                    (dispatched_images model (pending_of s uid))
                    (instruction_of model t) cleared)).
Proof.
  intros uid model t cleared Hgo.
  assert (Hrun : forall (limit : nat) (m : reply) (images : list image),
    ((if Z.of_nat limit <? len t
      then reply_text upd m;; mret (cut_to limit t)
      else mret t) ≫= fun text0 =>
     set_pending_images uid [];; process_and_reply w upd uid images text0) s
    = (inr tt, cleared,
       (if Z.of_nat limit <? len t then [(s, ReplyText uid m)] else [])
       ++ trace_of (process_and_reply w upd uid images
                      (if Z.of_nat limit <? len t then cut_to limit t else t)
                      cleared))).
  { intros limit m images. destruct (Z.of_nat limit <? len t).
    - rewrite bind_run.
      change ((reply_text upd m;; mret (cut_to limit t)) s)
        with (inr (cut_to limit t) : exn + text, s, [(s, ReplyText uid m)]).
      cbv iota beta. rewrite dispatch_run. reflexivity.
    - rewrite bind_run.
      change ((mret t : M text) s) with (inr t : exn + text, s, @nil (store * action)).
      cbv iota beta. rewrite dispatch_run. reflexivity. }
  unfold handle_text. rewrite bind_get_user_data. cbv zeta.
  fold uid. fold (model_of s uid). fold model. fold t.
  fold (pending_of s uid).
  unfold text_dispatches, is_edit_mode, is_create in Hgo.
  unfold instruction_of, text_limit, cut_warning, dispatched_images, is_create.
  destruct (String.eqb model "create") eqn:H1.
  { apply String.eqb_eq in H1. rewrite H1.
    change ("create" =? "dalle_create")%string with false.
    cbn in Hgo. rewrite Hgo. cbn [negb orb].
    change (Z.of_nat 4000) with 4000. apply (Hrun 4000%nat). }
  destruct (String.eqb model "dalle_create") eqn:H2.
  { cbn in Hgo. rewrite Hgo. cbn [negb orb].
    change (Z.of_nat 1000) with 1000. apply (Hrun 1000%nat). }
  destruct (String.eqb model "gpt-5.2") eqn:H3.
  { cbn in Hgo. rewrite Hgo. cbn [negb orb].
    change (Z.of_nat 4000) with 4000. apply (Hrun 4000%nat). }
  cbn in Hgo. rewrite Hgo. cbn [negb orb].
  change (Z.of_nat 4000) with 4000. apply (Hrun 4000%nat).
Qed.

(** [handle_text], when it does not dispatch. *)
Lemma handle_text_rejection (upd : update) (s : store) :
  let uid := effective_user upd in
  let model := model_of s uid in
  let t := strip (default [] (msg_text (upd_message upd))) in
  text_dispatches model (pending_of s uid) t = false ->
  handle_text w upd s = (inr tt, s, [(s, ReplyText uid (text_rejection model))]).
Proof.
  intros uid model t Hno.
  unfold handle_text. rewrite bind_get_user_data. cbv zeta.
  fold uid. fold (model_of s uid). fold model. fold t.
  fold (pending_of s uid).
  unfold text_dispatches, is_edit_mode, is_create in Hno.
  unfold text_rejection, is_create.
  destruct (String.eqb model "create") eqn:H1.
  { cbn in Hno. rewrite Hno. reflexivity. }
  destruct (String.eqb model "dalle_create") eqn:H2.
  { cbn in Hno. rewrite Hno. reflexivity. }
  destruct (String.eqb model "gpt-5.2") eqn:H3.
  { cbn in Hno. rewrite Hno. reflexivity. }
  cbn in Hno. rewrite Hno. reflexivity.
Qed.

End ReplyRuns.

(** ** Text messages: rejection and dispatch *)

Section TextFacts.
Import Bot Trace.
Variable w : world.

Lemma api_images_from_fails (images : list image) (img : image) :
  img ∈ images -> normalize w img = None ->
  forall index : nat,
    Processor.api_images_from w index images = inl (value_error ErrBadImage).
Proof.
  intros Hin Hnone. induction images as [| item rest IH]; intros index.
  { by apply elem_of_nil in Hin. }
  simpl. unfold Processor._to_api_format at 1.
  destruct (normalize w item) as [[[ext mime] buf] |] eqn:Hitem; [| reflexivity].
  apply elem_of_cons in Hin as [-> | Hin]; [congruence |].
  by rewrite (IH Hin (S index)).
Qed.

Lemma model_of_with_pending (s : store) (uid uid' : Z) (images : list image) :
  model_of (with_pending s uid images) uid' = model_of s uid'.
Proof. apply get_model_with_pending. Qed.

Lemma api_calls_cons_other (s : store) (a : action) (t : trace) :
  is_api_call a = false -> api_calls ((s, a) :: t) = api_calls t.
Proof. intros Ha. unfold api_calls, actions. simpl. by destruct a. Qed.

Lemma instruction_of_length (model : string) (t : text) :
  (length (instruction_of model t) <= text_limit model + 16)%nat.
Proof.
  unfold instruction_of.
  destruct (Z.ltb_spec (Z.of_nat (text_limit model)) (len t)) as [Hlong | Hshort].
  - apply length_cut_to.
  - unfold len in Hshort. lia.
Qed.

Lemma text_limit_pos (model : string) : (0 < text_limit model)%nat.
Proof. unfold text_limit. destruct (String.eqb model "dalle_create"); lia. Qed.

Lemma instruction_of_trimmed (model : string) (t : text) :
  trimmed t -> t <> [] ->
  trimmed (instruction_of model t) /\ instruction_of model t <> [].
Proof.
  intros Ht Hne. unfold instruction_of.
  destruct (Z.of_nat (text_limit model) <? len t); [| by split].
  split; [apply trimmed_cut_to; auto using text_limit_pos |].
  unfold cut_to. intros Hnil. apply app_eq_nil in Hnil as [_ Hmarker]. discriminate.
Qed.

End TextFacts.

(** X1. In the chat mode and in the two text-to-image modes a text
    message that is empty once stripped is answered with one request for
    input and nothing else: no backend call, and the store, buffer
    included, stays as it is. *)
Theorem blank_text_asks_for_input (w : world) (upd : Bot.update) (s : Bot.store) :
  let uid := Bot.effective_user upd in
  let model := Bot.model_of s uid in
  Bot.is_edit_mode model = false ->
  strip (default [] (Bot.msg_text (Bot.upd_message upd))) = [] ->
  Bot.handle_text w upd s
  = (inr tt, s,
     [(s, Bot.ReplyText uid (if Bot.is_create model then Bot.MsgEnterDescription
                             else Bot.MsgEnterMessage))]).
Proof.
  intros uid model Hmode Hblank.
  pose proof (handle_text_rejection w upd s) as Hrun. cbv zeta in Hrun.
  fold uid model in Hrun. rewrite Hblank in Hrun.
  unfold Trace.text_dispatches in Hrun. rewrite Hmode in Hrun.
  rewrite (Hrun eq_refl). unfold Trace.text_rejection.
  unfold Bot.is_edit_mode in Hmode.
  destruct (Bot.is_create model); [reflexivity |].
  cbn [negb andb] in Hmode. apply negb_false_iff in Hmode. by rewrite Hmode.
Qed.

(** X2. In an edit mode, a blank text message that finds 1 to 10
    buffered images is dispatched all the same: the buffer is emptied,
    [process] refuses the empty command before any backend call, and the
    user is shown that error. The buffered images are lost. *)
Theorem blank_text_in_edit_mode_empties_buffer
    (w : world) (upd : Bot.update) (s : Bot.store) :
  let uid := Bot.effective_user upd in
  let model := Bot.model_of s uid in
  let cleared := Bot.with_pending s uid [] in
  Bot.is_edit_mode model = true ->
  1 <= len (Bot.pending_of s uid) <= 10 ->
  strip (default [] (Bot.msg_text (Bot.upd_message upd))) = [] ->
  Bot.handle_text w upd s
  = (inr tt, cleared,
     [(cleared, Bot.ReplyText uid (Bot.MsgWorkingImages (Bot.label_of model)));
      (cleared, Bot.EditText uid (Bot.MsgStr ErrEmptyCommand))])
  /\ Bot.pending_of cleared uid = [].
Proof.
  intros uid model cleared Hmode Hcount Hblank.
  pose proof (handle_text_dispatch w upd s) as Hrun. cbv zeta in Hrun.
  fold uid model cleared in Hrun. rewrite Hblank in Hrun.
  unfold Trace.text_dispatches in Hrun. rewrite Hmode in Hrun.
  assert (Hsome : nonempty (Bot.pending_of s uid) = true).
  { destruct (Bot.pending_of s uid); [unfold len in Hcount; simpl in Hcount; lia | done]. }
  rewrite (Hrun Hsome). clear Hrun.
  assert (Hprompt : Trace.instruction_of model [] = []).
  { unfold Trace.instruction_of.
    destruct (Z.ltb_spec (Z.of_nat (Trace.text_limit model)) (len (@nil char)));
      [unfold len in *; simpl in *; lia | reflexivity]. }
  assert (Hshort : (Z.of_nat (Trace.text_limit model) <? len (@nil char)) = false).
  { apply Z.ltb_ge. unfold len. simpl. lia. }
  rewrite Hprompt, Hshort.
  assert (Hm : Bot.model_of cleared uid = model).
  { unfold cleared. apply model_of_with_pending. }
  assert (Hmode' : Bot.is_edit_mode (Bot.model_of cleared uid) = true).
  { by rewrite Hm. }
  rewrite (process_and_reply_edit w upd uid _ [] cleared Hmode'). cbv zeta.
  rewrite !Hm. unfold Trace.dispatched_images.
  apply is_edit_mode_tests in Hmode as (_ & _ & _ & Hcreate). rewrite Hcreate.
  assert (Hout : Processor.process w (Bot.pending_of s uid) [] model
                 = (inl (value_error ErrEmptyCommand), [])).
  { unfold Processor.process, Processor.process_with.
    destruct (Z.leb_spec 1 (len (Bot.pending_of s uid))); [| lia].
    destruct (Z.leb_spec (len (Bot.pending_of s uid)) 10); [| lia].
    cbn [andb negb].
    by destruct ((Processor.model_or_default model =? "dall-e-2")%string
                 && (1 <? len (Bot.pending_of s uid))). }
  rewrite Hout. split; [reflexivity |].
  unfold cleared. rewrite pending_of_with_pending. by destruct (decide (uid = uid)).
Qed.

(** X3. In the two text-to-image modes a text message that is not blank
    makes exactly one call, to [images.generate], with the stripped
    text, cut at the limit of the mode (4000 characters, 1000 for
    DALL-E 2) and then followed by the marker: gpt-image-1.5 with
    quality, size 1536x1024 and output format; dall-e-2 with size
    1024x1024 and the b64_json response format only. No image is sent,
    and the buffer is emptied. *)
Theorem text_to_image_request (w : world) (upd : Bot.update) (s : Bot.store) :
  let uid := Bot.effective_user upd in
  let model := Bot.model_of s uid in
  let t := strip (default [] (Bot.msg_text (Bot.upd_message upd))) in
  let prompt := Trace.instruction_of model t in
  Bot.is_create model = true ->
  t <> [] ->
  Bot.api_calls (Bot.trace_of (Bot.handle_text w upd s))
  = [ImagesGenerate
       (if String.eqb model "create"
        then GenerateRequest prompt "gpt-image-1.5" Processor.SIZE
               (Some Processor.QUALITY) (Some Processor.OUTPUT_FORMAT) None
        else GenerateRequest prompt "dall-e-2" "1024x1024" None None
               (Some "b64_json"%string))]
  /\ (length prompt <= Trace.text_limit model + 16)%nat
  /\ (len t <= Z.of_nat (Trace.text_limit model) -> prompt = t)
  /\ Bot.pending_of (Bot.store_of (Bot.handle_text w upd s)) uid = [].
Proof.
  intros uid model t prompt Hmode Hne.
  pose proof (handle_text_dispatch w upd s) as Hrun. cbv zeta in Hrun.
  fold uid model t in Hrun.
  assert (Hgo : Trace.text_dispatches model (Bot.pending_of s uid) t = true).
  { unfold Trace.text_dispatches, Bot.is_edit_mode. rewrite Hmode. by destruct t. }
  rewrite (Hrun Hgo). clear Hrun.
  unfold Bot.store_of, Bot.trace_of at 1. cbn [fst snd].
  split; [| split; [apply instruction_of_length | split]].
  - rewrite api_calls_app.
    assert (Hwarn : forall b : bool,
              Bot.api_calls
                (if b then [(s, Bot.ReplyText uid (Trace.cut_warning model))] else [])
              = []).
    { by intros []. }
    rewrite Hwarn. cbn [app].
    assert (Hmode' : Bot.is_create (Bot.model_of (Bot.with_pending s uid []) uid) = true).
    { by rewrite model_of_with_pending. }
    rewrite (process_and_reply_create w upd uid _ _ _ Hmode'). cbv zeta.
    rewrite model_of_with_pending. fold model. fold prompt.
    unfold Bot.trace_of. cbn [snd].
    rewrite api_calls_cons_other by reflexivity.
    rewrite api_calls_app, api_calls_to_thread.
    destruct (instruction_of_trimmed model t (strip_trimmed _) Hne) as [Htrim Hsome].
    fold prompt in Htrim, Hsome.
    pose proof (trimmed_not_blank prompt Htrim Hsome) as Hblank.
    assert (Hbackend : (if String.eqb model "create" then "gpt-image-1.5"%string
                        else "dall-e-2"%string) = "gpt-image-1.5"%string
                       \/ (if String.eqb model "create" then "gpt-image-1.5"%string
                           else "dall-e-2"%string) = "dall-e-2"%string).
    { destruct (String.eqb model "create"); auto. }
    rewrite (process_create_run w prompt _ Hblank Hbackend). cbv zeta. cbn [fst snd].
    rewrite (trimmed_strip prompt Htrim).
    assert (Hnone : forall r : exn + (image * option Processor.usage_str),
              Bot.api_calls
                match r with
                | inl e => [(Bot.with_pending s uid [],
                             Bot.EditText (Bot.effective_user upd) (Trace.image_error_reply e))]
                | inr (b, u) =>
                    [(Bot.with_pending s uid [],
                      Bot.ReplyPhoto (Bot.effective_user upd) b (Bot.label_of model) u);
                     (Bot.with_pending s uid [], Bot.DeleteMessage (Bot.effective_user upd))]
                end = []).
    { intros [e | [b u]]; reflexivity. }
    rewrite Hnone, app_nil_r.
    by destruct (String.eqb model "create").
  - intros Hshort. unfold prompt, Trace.instruction_of.
    destruct (Z.ltb_spec (Z.of_nat (Trace.text_limit model)) (len t)); [lia | reflexivity].
  - rewrite pending_of_with_pending. by destruct (decide (uid = uid)).
Qed.

(** ** Edit dispatch, outcomes, and the chat mode *)

Section DispatchFacts.
Import Bot Trace.
Variable w : world.

Lemma observers_cons (s : store) (a : action) (t : trace) :
  photos ((s, a) :: t)
  = match a with ReplyPhoto _ p _ _ => p :: photos t | _ => photos t end
  /\ edits ((s, a) :: t)
     = match a with EditText _ m => m :: edits t | _ => edits t end
  /\ replies ((s, a) :: t)
     = match a with ReplyText _ m => m :: replies t | _ => replies t end.
Proof. by destruct a. Qed.

Lemma photos_app (t1 t2 : trace) : photos (t1 ++ t2) = photos t1 ++ photos t2.
Proof. unfold photos, actions. by rewrite map_app, omap_app. Qed.

Lemma edits_app (t1 t2 : trace) : edits (t1 ++ t2) = edits t1 ++ edits t2.
Proof. unfold edits, actions. by rewrite map_app, omap_app. Qed.

Lemma replies_app (t1 t2 : trace) : replies (t1 ++ t2) = replies t1 ++ replies t2.
Proof. unfold replies, actions. by rewrite map_app, omap_app. Qed.

Lemma photos_calls (s : store) (calls : list api_call) :
  photos (map (fun c => (s, ApiCall c)) calls) = [].
Proof. induction calls as [| c rest IH]; [reflexivity | exact IH]. Qed.

Lemma edits_calls (s : store) (calls : list api_call) :
  edits (map (fun c => (s, ApiCall c)) calls) = [].
Proof. induction calls as [| c rest IH]; [reflexivity | exact IH]. Qed.

Lemma replies_calls (s : store) (calls : list api_call) :
  replies (map (fun c => (s, ApiCall c)) calls) = [].
Proof. induction calls as [| c rest IH]; [reflexivity | exact IH]. Qed.

Lemma image_outcome_observed (s : store) (chat : Z) (label : string)
    (r : exn + (image * option Processor.usage_str)) :
  api_calls (image_outcome s chat label r) = []
  /\ replies (image_outcome s chat label r) = []
  /\ photos (image_outcome s chat label r)
     = match r with inl _ => [] | inr (b, _) => [b] end
  /\ edits (image_outcome s chat label r)
     = match r with inl e => [image_error_reply e] | inr _ => [] end.
Proof. by destruct r as [e | [b u]]. Qed.

(** A text message in an edit mode with something buffered. *)
Lemma handle_text_edit_run (upd : update) (s : store) :
  let uid := effective_user upd in
  let model := model_of s uid in
  let t := strip (default [] (msg_text (upd_message upd))) in
  let cleared := with_pending s uid [] in
  let out := Processor.process w (pending_of s uid) (instruction_of model t) model in
  is_edit_mode model = true ->
  pending_of s uid <> [] ->
  handle_text w upd s
  = (inr tt, cleared,
     (if Z.of_nat (text_limit model) <? len t
      then [(s, ReplyText uid (cut_warning model))] else [])
     ++ (cleared, ReplyText uid (MsgWorkingImages (label_of model)))
     :: map (fun c => (cleared, ApiCall c)) (snd out)
     ++ image_outcome cleared uid (label_of model) (fst out)).
Proof.
  intros uid model t cleared out Hmode Hsome.
  pose proof (handle_text_dispatch w upd s) as Hrun. cbv zeta in Hrun.
  fold uid model t cleared in Hrun.
  assert (Hgo : text_dispatches model (pending_of s uid) t = true).
  { unfold text_dispatches. rewrite Hmode. by destruct (pending_of s uid). }
  rewrite (Hrun Hgo). clear Hrun.
  assert (Hm : model_of cleared uid = model).
  { unfold cleared. apply model_of_with_pending. }
  assert (Hmode' : is_edit_mode (model_of cleared uid) = true) by (by rewrite Hm).
  rewrite (process_and_reply_edit w upd uid _ _ cleared Hmode'). cbv zeta.
  rewrite !Hm. unfold dispatched_images.
  apply is_edit_mode_tests in Hmode as (_ & _ & _ & Hcreate). rewrite Hcreate.
  reflexivity.
Qed.

Lemma api_calls_edit_trace (s cleared : store) (uid : Z) (warn : bool)
    (m status : reply) (label : string)
    (out : (exn + (image * option Processor.usage_str)) * list api_call) :
  let t := (if warn then [(s, ReplyText uid m)] else [])
           ++ (cleared, ReplyText uid status)
           :: map (fun c => (cleared, ApiCall c)) (snd out)
           ++ image_outcome cleared uid label (fst out) in
  api_calls t = snd out
  /\ photos t = match fst out with inl _ => [] | inr (b, _) => [b] end
  /\ edits t = match fst out with inl e => [image_error_reply e] | inr _ => [] end
  /\ replies t = (if warn then [m] else []) ++ [status].
Proof.
  intros t. subst t.
  destruct (image_outcome_observed cleared uid label (fst out)) as (Hc & Hr & Hp & He).
  rewrite api_calls_app, photos_app, edits_app, replies_app.
  change ((cleared, ReplyText uid status)
          :: map (fun c => (cleared, ApiCall c)) (snd out)
          ++ image_outcome cleared uid label (fst out))
    with ([(cleared, ReplyText uid status)]
          ++ map (fun c => (cleared, ApiCall c)) (snd out)
          ++ image_outcome cleared uid label (fst out)).
  rewrite !api_calls_app, !photos_app, !edits_app, !replies_app.
  rewrite api_calls_to_thread, photos_calls, edits_calls, replies_calls.
  rewrite Hc, Hr, Hp, He.
  destruct warn; cbn; rewrite ?app_nil_r; by repeat split.
Qed.

Lemma process_with_one_call (images : list image) (prompt : text)
    (model quality size output_format : string) :
  (length (snd (Processor.process_with w images prompt model
                  quality size output_format)) <= 1)%nat.
Proof.
  unfold Processor.process_with.
  destruct (negb _); [simpl; lia |].
  destruct (_ && _);
    (destruct (Processor.blank prompt); [simpl; lia |]);
    (match goal with
     | |- context [Processor.api_images_from w 0 ?l] =>
         destruct (Processor.api_images_from w 0 l) as [e | files]
     end; [simpl; lia |]);
    cbv zeta;
    (match goal with
     | |- context [images_edit w ?r] => destruct (images_edit w r) as [e | result]
     end; simpl; lia).
Qed.

Lemma process_create_with_one_call (prompt : text)
    (model quality size output_format : string) :
  (length (snd (Processor.process_create_with w prompt model
                  quality size output_format)) <= 1)%nat.
Proof.
  unfold Processor.process_create_with.
  destruct (Processor.blank prompt); [simpl; lia |].
  destruct (String.eqb _ "dall-e-2"); cbv iota beta zeta;
    (match goal with
     | |- context [images_generate w ?r] => destruct (images_generate w r) as [e | result]
     end; simpl; lia).
Qed.

End DispatchFacts.

(** X4. In an edit mode, a text message that is not blank and finds 1
    to 10 buffered images that Pillow can read makes exactly one call,
    to [images.edit]: with the model of the user, the system prompt
    followed by the instruction (cut at 4000 characters), and one file
    per image sent, in the order of the buffer, numbered from 0: every
    buffered image, or the first one only for dall-e-2 with several.
    The buffer is emptied. *)
Theorem edit_text_sends_buffer
    (w : world) (upd : Bot.update) (s : Bot.store) (files : list api_file) :
  let uid := Bot.effective_user upd in
  let model := Bot.model_of s uid in
  let t := strip (default [] (Bot.msg_text (Bot.upd_message upd))) in
  let sent := sent_images model (Bot.pending_of s uid) in
  Bot.is_edit_mode model = true ->
  1 <= len (Bot.pending_of s uid) <= 10 ->
  t <> [] ->
  Processor.api_images_from w 0 sent = inr files ->
  Bot.api_calls (Bot.trace_of (Bot.handle_text w upd s))
  = [ImagesEdit
       (EditRequest (Processor.model_or_default model) files
          (SYSTEM_PROMPT w ++ Trace.instruction_of model t)
          Processor.QUALITY (sent_size model (Bot.pending_of s uid))
          Processor.OUTPUT_FORMAT)]
  /\ length files = length sent
  /\ (forall (i : nat) (img : image),
        sent !! i = Some img ->
        exists (ext mime : string) (buf : image),
          normalize w img = Some (ext, mime, buf)
          /\ files !! i = Some (ApiFile i ext buf mime))
  /\ Bot.pending_of (Bot.store_of (Bot.handle_text w upd s)) uid = [].
Proof.
  intros uid model t sent Hmode Hcount Hne Hfiles.
  assert (Hsome : Bot.pending_of s uid <> []).
  { intros Hnil. rewrite Hnil in Hcount. unfold len in Hcount. simpl in Hcount. lia. }
  pose proof (handle_text_edit_run w upd s Hmode Hsome) as Hrun.
  cbv zeta in Hrun. fold uid model t in Hrun. rewrite Hrun.
  unfold Bot.trace_of, Bot.store_of. cbn [fst snd].
  destruct (api_calls_edit_trace s (Bot.with_pending s uid []) uid
              (Z.of_nat (Trace.text_limit model) <? len t)
              (Trace.cut_warning model) (Bot.MsgWorkingImages (Bot.label_of model))
              (Bot.label_of model)
              (Processor.process w (Bot.pending_of s uid)
                 (Trace.instruction_of model t) model)) as (Hcalls & _).
  rewrite Hcalls.
  destruct (instruction_of_trimmed model t (strip_trimmed _) Hne) as [Htrim Hprompt].
  rewrite (process_run w _ _ model Hcount (trimmed_not_blank _ Htrim Hprompt)).
  fold sent. rewrite Hfiles. cbv zeta. cbn [snd].
  rewrite (trimmed_strip _ Htrim).
  destruct (api_images_from_ok w sent 0 files Hfiles) as [Hlen Hnth].
  split; [reflexivity |]. split; [exact Hlen |]. split; [exact Hnth |].
  rewrite pending_of_with_pending. by destruct (decide (uid = uid)).
Qed.

(** X5. In an edit mode, when one of the images to send cannot be read
    by Pillow, a text message that is not blank makes no backend call
    at all: the user is shown the error of the unreadable file, no
    photo is sent, and the buffer is emptied. *)
Theorem unreadable_image_stops_edit
    (w : world) (upd : Bot.update) (s : Bot.store) (img : image) :
  let uid := Bot.effective_user upd in
  let model := Bot.model_of s uid in
  let t := strip (default [] (Bot.msg_text (Bot.upd_message upd))) in
  let x := Bot.handle_text w upd s in
  Bot.is_edit_mode model = true ->
  1 <= len (Bot.pending_of s uid) <= 10 ->
  t <> [] ->
  img ∈ sent_images model (Bot.pending_of s uid) ->
  normalize w img = None ->
  Bot.api_calls (Bot.trace_of x) = []
  /\ Trace.edits (Bot.trace_of x) = [Bot.MsgStr ErrBadImage]
  /\ Trace.photos (Bot.trace_of x) = []
  /\ Bot.result_of x = inr tt
  /\ Bot.pending_of (Bot.store_of x) uid = [].
Proof.
  intros uid model t x Hmode Hcount Hne Hin Hnone. subst x.
  assert (Hsome : Bot.pending_of s uid <> []).
  { intros Hnil. rewrite Hnil in Hcount. unfold len in Hcount. simpl in Hcount. lia. }
  pose proof (handle_text_edit_run w upd s Hmode Hsome) as Hrun.
  cbv zeta in Hrun. fold uid model t in Hrun. rewrite Hrun.
  unfold Bot.trace_of, Bot.store_of, Bot.result_of. cbn [fst snd].
  destruct (api_calls_edit_trace s (Bot.with_pending s uid []) uid
              (Z.of_nat (Trace.text_limit model) <? len t)
              (Trace.cut_warning model) (Bot.MsgWorkingImages (Bot.label_of model))
              (Bot.label_of model)
              (Processor.process w (Bot.pending_of s uid)
                 (Trace.instruction_of model t) model)) as (Hcalls & Hphotos & Hedits & _).
  rewrite Hcalls, Hphotos, Hedits.
  destruct (instruction_of_trimmed model t (strip_trimmed _) Hne) as [Htrim Hprompt].
  rewrite (process_run w _ _ model Hcount (trimmed_not_blank _ Htrim Hprompt)).
  rewrite (api_images_from_fails w _ img Hin Hnone 0). cbn [fst snd].
  repeat split; try reflexivity.
  rewrite pending_of_with_pending. by destruct (decide (uid = uid)).
Qed.

(** X6. In every mode but the chat mode, [process_and_reply] leaves
    the store as it is and makes the one call of the processor that the
    mode asks for, after one status message: [process_create] with
    gpt-image-1.5 or dall-e-2 in the two text-to-image modes, [process]
    with the images, the prompt and the model otherwise. The backend
    calls are those of that call, so at most one. Whatever exception
    the call ends in (a refused input, a failure of the backend, an
    answer without image, an image that does not decode) is caught and
    shown by one edit of the status message, and no photo is sent; a
    result is sent as exactly one photo, and nothing is edited. *)
Theorem image_reply_is_photo_or_error
    (w : world) (upd : Bot.update) (ctx : Z) (images : list image)
    (prompt : text) (s : Bot.store) :
  let model := Bot.model_of s ctx in
  let out := if String.eqb model "create"
             then Processor.process_create w prompt "gpt-image-1.5"
             else if String.eqb model "dalle_create"
                  then Processor.process_create w prompt "dall-e-2"
                  else Processor.process w images prompt model in
  let x := Bot.process_and_reply w upd ctx images prompt s in
  model <> "gpt-5.2"%string ->
  Bot.store_of x = s
  /\ Bot.api_calls (Bot.trace_of x) = snd out
  /\ (length (Bot.api_calls (Bot.trace_of x)) <= 1)%nat
  /\ length (Trace.replies (Bot.trace_of x)) = 1%nat
  /\ match fst out with
     | inl e =>
         Trace.photos (Bot.trace_of x) = []
         /\ Trace.edits (Bot.trace_of x) = [Trace.image_error_reply e]
     | inr (b, _) =>
         Trace.photos (Bot.trace_of x) = [b]
         /\ Trace.edits (Bot.trace_of x) = []
     end.
Proof.
  intros model out x Hchat. subst x.
  assert (Hshape : exists (status : Bot.reply) (label : string),
             Bot.process_and_reply w upd ctx images prompt s
             = (inr tt, s,
                [] ++ (s, Bot.ReplyText (Bot.effective_user upd) status)
                :: map (fun c => (s, Bot.ApiCall c)) (snd out)
                ++ Trace.image_outcome s (Bot.effective_user upd) label (fst out))
             /\ (length (snd out) <= 1)%nat).
  { subst out. unfold Bot.is_create.
    destruct (String.eqb model "create") eqn:Hcreate.
    - eexists _, _. split; [| apply process_create_with_one_call].
      rewrite (process_and_reply_create w upd ctx images prompt s)
        by (unfold Bot.is_create; fold model; by rewrite Hcreate).
      cbv zeta. fold model. rewrite Hcreate. reflexivity.
    - destruct (String.eqb model "dalle_create") eqn:Hdalle.
      + eexists _, _. split; [| apply process_create_with_one_call].
        rewrite (process_and_reply_create w upd ctx images prompt s)
          by (unfold Bot.is_create; fold model; by rewrite Hcreate, Hdalle).
        cbv zeta. fold model. rewrite Hcreate. reflexivity.
      + assert (Hedit : Bot.is_edit_mode (Bot.model_of s ctx) = true).
        { unfold Bot.is_edit_mode, Bot.is_create. fold model.
          rewrite Hcreate, Hdalle. cbn [negb andb orb].
          apply negb_true_iff. by apply String.eqb_neq. }
        eexists _, _. split; [| apply process_with_one_call].
        exact (process_and_reply_edit w upd ctx images prompt s Hedit). }
  destruct Hshape as (status & label & Hrun & Hcalls).
  rewrite Hrun. unfold Bot.store_of, Bot.trace_of. cbn [fst snd].
  destruct (api_calls_edit_trace s s (Bot.effective_user upd) false status status label out)
    as (Hc & Hp & He & Hr).
  cbv zeta in Hc, Hp, He, Hr. rewrite Hc, Hp, He, Hr.
  split; [reflexivity |]. split; [reflexivity |]. split; [exact Hcalls |].
  split; [reflexivity |].
  by destruct (fst out) as [e | [b u]].
Qed.

(** X7. The mask of moderation errors: an exception whose code is
    ["moderation_blocked"] is shown as the fixed moderation message;
    one without code is shown so exactly when its text mentions
    ["moderation_blocked"]; one with any other code is shown as its own
    text, even when that text mentions moderation. *)
Theorem moderation_errors_are_masked (e : exn) :
  (exn_code e = Some "moderation_blocked"%string ->
   Bot._format_image_error e = Bot.MsgModerationBlocked)
  /\ (forall s : text,
        exn_code e = None \/ exn_code e = Some ""%string ->
        exn_str e = ErrExternal s ->
        (Bot._format_image_error e = Bot.MsgModerationBlocked
         <-> occurs_in Bot.moderation_blocked s))
  /\ (forall c : string,
        exn_code e = Some c -> c <> ""%string -> c <> "moderation_blocked"%string ->
        Bot._format_image_error e = Bot.MsgStr (exn_str e)).
Proof.
  split; [| split].
  - intros Hcode. unfold Bot._format_image_error. by rewrite Hcode.
  - intros s Hcode Hstr. unfold Bot._format_image_error, Bot.mentions_moderation.
    rewrite Hstr. rewrite <- contains_spec.
    generalize (contains Bot.moderation_blocked s). intros b.
    destruct Hcode as [-> | ->]; destruct b; cbn; split; congruence.
  - intros c Hcode Hne Hother. unfold Bot._format_image_error. rewrite Hcode.
    apply String.eqb_neq in Hne, Hother. by rewrite Hne, Hother.
Qed.

(** ** The chat mode *)

Section ChatFacts.
Import Bot Trace.
Variable w : world.

Lemma process_and_reply_chat_run (upd : update) (ctx : Z) (images : list image)
    (prompt : text) (s : store) :
  model_of s ctx = "gpt-5.2"%string ->
  process_and_reply w upd ctx images prompt s
  = (inr tt, s,
     (s, ReplyText (effective_user upd) MsgWorking)
     :: map (fun c => (s, ApiCall c)) (snd (chat_call w images prompt))
     ++ chat_outcome s (effective_user upd) (fst (chat_call w images prompt))).
Proof. intros Hmodel. exact (process_and_reply_chat w upd ctx images prompt s Hmodel). Qed.

Lemma parts_observed (s : store) (chat : Z) (parts : list text) :
  let t := map (fun part => (s, ReplyText chat (MsgPart part))) parts in
  replies t = map MsgPart parts
  /\ api_calls t = [] /\ edits t = [] /\ photos t = [].
Proof.
  induction parts as [| p rest IH]; [by repeat split |].
  destruct IH as (Hr & Hc & He & Hp). repeat split; try assumption.
  change (replies (map (fun part => (s, ReplyText chat (MsgPart part))) (p :: rest)))
    with (MsgPart p :: replies (map (fun part => (s, ReplyText chat (MsgPart part))) rest)).
  cbv zeta in Hr. by rewrite Hr.
Qed.

Lemma chat_outcome_calls (s : store) (chat : Z) (r : exn + text) :
  api_calls (chat_outcome s chat r) = [].
Proof.
  destruct r as [e | answer]; [reflexivity |]. unfold chat_outcome.
  rewrite api_calls_cons_other by reflexivity.
  destruct (Chunk.chunk_text answer Chunk.TELEGRAM_MAX_MESSAGE) as [[| p ps] |];
    [reflexivity | | reflexivity].
  apply (parts_observed s chat (p :: ps)).
Qed.

End ChatFacts.

(** X8. In the chat mode a text message that is not blank makes exactly
    one call, to [chat.completions]: with the model gpt-5.2, the
    stripped text cut at 4000 characters, and the first buffered image
    with the mime type read off its first bytes, or no image when
    nothing is buffered. Images after the first are not sent, and the
    buffer is emptied. *)
Theorem chat_text_sends_first_image (w : world) (upd : Bot.update) (s : Bot.store) :
  let uid := Bot.effective_user upd in
  let model := Bot.model_of s uid in
  let t := strip (default [] (Bot.msg_text (Bot.upd_message upd))) in
  model = "gpt-5.2"%string ->
  t <> [] ->
  Bot.api_calls (Bot.trace_of (Bot.handle_text w upd s))
  = [ChatCompletions
       (ChatRequest "gpt-5.2" (Trace.instruction_of model t)
          (match Bot.pending_of s uid with
           | img :: _ => Some (Processor.sniff_mime img, img)
           | [] => None
           end))]
  /\ Bot.pending_of (Bot.store_of (Bot.handle_text w upd s)) uid = [].
Proof.
  intros uid model t Hmodel Hne.
  pose proof (handle_text_dispatch w upd s) as Hrun. cbv zeta in Hrun.
  fold uid model t in Hrun.
  assert (Hgo : Trace.text_dispatches model (Bot.pending_of s uid) t = true).
  { unfold Trace.text_dispatches. rewrite Hmodel.
    change (Bot.is_edit_mode "gpt-5.2") with false. by destruct t. }
  rewrite (Hrun Hgo). clear Hrun.
  unfold Bot.store_of, Bot.trace_of at 1. cbn [fst snd].
  split.
  2: { rewrite pending_of_with_pending. by destruct (decide (uid = uid)). }
  rewrite api_calls_app.
  assert (Hwarn : forall b : bool,
            Bot.api_calls
              (if b then [(s, Bot.ReplyText uid (Trace.cut_warning model))] else [])
            = []).
  { by intros []. }
  rewrite Hwarn. cbn [app].
  assert (Hm : Bot.model_of (Bot.with_pending s uid []) uid = "gpt-5.2"%string).
  { rewrite model_of_with_pending. exact Hmodel. }
  rewrite (process_and_reply_chat_run w upd uid _ _ _ Hm).
  unfold Bot.trace_of. cbn [snd].
  rewrite api_calls_cons_other by reflexivity.
  rewrite api_calls_app, api_calls_to_thread, chat_outcome_calls, app_nil_r.
  destruct (instruction_of_trimmed model t (strip_trimmed _) Hne) as [Htrim Hprompt].
  unfold Trace.dispatched_images. rewrite Hmodel at 1.
  change (Bot.is_create "gpt-5.2") with false. cbv iota.
  unfold Trace.chat_call.
  destruct (Bot.pending_of s uid) as [| img rest].
  - unfold Processor.process_text_only.
    rewrite (trimmed_not_blank _ Htrim Hprompt). cbn [snd].
    by rewrite (trimmed_strip _ Htrim).
  - unfold Processor.process_text_with_image. cbn [snd].
    by rewrite (trimmed_strip _ Htrim).
Qed.

(** X9. In the chat mode, when the backend answers, the status message
    is deleted and the answer is replied in parts: the parts are not
    empty, have at most 4000 characters each, and put end to end they
    are the answer; an empty answer is replied as the one message
    "(empty answer)". Nothing is edited and no photo is sent. *)
Theorem chat_answer_is_split
    (w : world) (upd : Bot.update) (ctx : Z) (images : list image)
    (prompt : text) (s : Bot.store) (answer : text) :
  let t := Bot.trace_of (Bot.process_and_reply w upd ctx images prompt s) in
  Bot.model_of s ctx = "gpt-5.2"%string ->
  fst (Trace.chat_call w images prompt) = inr answer ->
  exists parts : list text,
    Trace.replies t
    = Bot.MsgWorking
      :: match answer with
         | [] => [Bot.MsgEmptyAnswer]
         | _ :: _ => map Bot.MsgPart parts
         end
    /\ concat parts = answer
    /\ Forall (fun p : text => p <> [] /\ len p <= 4000) parts
    /\ Trace.edits t = []
    /\ Trace.photos t = []
    /\ In (Bot.DeleteMessage (Bot.effective_user upd)) (Bot.actions t).
Proof.
  intros t Hmodel Hanswer. subst t.
  rewrite (process_and_reply_chat_run w upd ctx images prompt s Hmodel).
  rewrite Hanswer. unfold Bot.trace_of. cbn [snd].
  destruct (chunk_text_result 4000 ltac:(lia) answer)
    as (parts & Hchunks & Hcat & Hall & _).
  exists parts.
  set (chat := Bot.effective_user upd).
  set (calls := map (fun c => (s, Bot.ApiCall c)) (snd (Trace.chat_call w images prompt))).
  change ((s, Bot.ReplyText chat Bot.MsgWorking) :: calls
          ++ Trace.chat_outcome s chat (inr answer))
    with ([(s, Bot.ReplyText chat Bot.MsgWorking)] ++ calls
          ++ Trace.chat_outcome s chat (inr answer)).
  rewrite !replies_app, !edits_app, !photos_app, !actions_app.
  subst calls. rewrite replies_calls, edits_calls, photos_calls.
  unfold Trace.chat_outcome. unfold Chunk.TELEGRAM_MAX_MESSAGE. rewrite Hchunks.
  assert (Hparts := parts_observed s chat parts). cbv zeta in Hparts.
  destruct Hparts as (Hr & _ & He & Hp).
  assert (Hshape : match answer with [] => parts = [] | _ :: _ => parts <> [] end).
  { destruct answer as [| c rest].
    - destruct parts as [| p ps]; [reflexivity |].
      apply Forall_cons in Hall as [[Hne _] _].
      simpl in Hcat. apply app_eq_nil in Hcat as [Hp0 _]. contradiction.
    - intros ->. discriminate. }
  destruct answer as [| c rest].
  - rewrite Hshape in *. repeat split; try reflexivity; try assumption.
    apply in_or_app. right. apply in_or_app. right. by left.
  - destruct parts as [| p ps]; [done |].
    split; [cbn [app]; f_equal; exact Hr |].
    split; [exact Hcat |]. split; [exact Hall |].
    split; [exact He |]. split; [exact Hp |].
    apply in_or_app. right. apply in_or_app. right. by left.
Qed.

(** ** Photos, documents and downloads *)

Section ImageFacts.
Import Bot Trace.
Variable w : world.

(** [max_from] returns the first of the largest sizes: every size
    before it is strictly smaller, no size after it is larger. *)
Lemma max_from_first (rest : list photo_size) :
  forall best : photo_size,
    exists before after : list photo_size,
      best :: rest = before ++ max_from best rest :: after
      /\ Forall (fun q => ps_file_size q < ps_file_size (max_from best rest)) before
      /\ Forall (fun q => ps_file_size q <= ps_file_size (max_from best rest)) after.
Proof.
  induction rest as [| p rest IH]; intros best; simpl.
  - exists [], []. repeat split; constructor.
  - destruct (Z.ltb_spec (ps_file_size best) (ps_file_size p)) as [Hlt | Hge].
    + destruct (IH p) as (before & after & Hsplit & Hbefore & Hafter).
      exists (best :: before), after. split; [simpl; by rewrite Hsplit |].
      split; [| exact Hafter]. constructor; [| exact Hbefore].
      destruct before as [| q before'].
      * simpl in Hsplit. injection Hsplit as <- _. exact Hlt.
      * simpl in Hsplit. injection Hsplit as <- _.
        apply Forall_cons in Hbefore as [Hq _]. lia.
    + destruct (IH best) as (before & after & Hsplit & Hbefore & Hafter).
      destruct before as [| q before'].
      * simpl in Hsplit. injection Hsplit as Hbest Hrest.
        exists [], (p :: after). split; [simpl; by rewrite <- Hbest, Hrest |].
        split; [constructor |]. constructor; [rewrite <- Hbest; lia | exact Hafter].
      * simpl in Hsplit. injection Hsplit as <- Hrest.
        exists (best :: p :: before'), after.
        split; [simpl; do 2 f_equal; exact Hrest |]. split; [| exact Hafter].
        apply Forall_cons in Hbefore as [Hq Hbefore].
        constructor; [exact Hq |]. constructor; [lia | exact Hbefore].
Qed.

(** A single photo or image document outside the text-to-image modes:
    the one file fetched, whether or not the download succeeds. *)
Lemma handle_images_single_fetched (upd : update) (s : store) (fid : string) :
  truthy_id (msg_media_group_id (upd_message upd)) = false ->
  is_create (model_of s (effective_user upd)) = false ->
  album_file_id (upd_message upd) = Some fid ->
  fetched (trace_of (handle_images w upd s)) = [fid]
  /\ (forall e : exn,
        download w fid = inl e ->
        handle_images w upd s = (inl e, s, [(s, GetFile fid)])).
Proof.
  intros Hsingle Hmode Hfid.
  destruct (download w fid) as [e | file] eqn:Hfile.
  - assert (Hrun : handle_images w upd s = (inl e, s, [(s, GetFile fid)])).
    { unfold handle_images. rewrite bind_get_user_data. cbv zeta.
      fold (model_of s (effective_user upd)). rewrite Hmode, Hsingle. cbn [andb negb].
      unfold album_file_id in Hfid.
      destruct (msg_photo (upd_message upd)) as [| p ps].
      - destruct (msg_document (upd_message upd)) as [d |]; [| discriminate].
        destruct (is_image_mime d); [| discriminate].
        injection Hfid as <-. cbn [negb].
        rewrite bind_run. unfold get_file at 1. by rewrite Hfile.
      - injection Hfid as <-.
        rewrite bind_run. unfold get_file at 1. by rewrite Hfile. }
    split; [by rewrite Hrun | intros e' [= <-]; exact Hrun].
  - split; [| discriminate].
    rewrite (handle_images_single_run w upd s fid file Hsingle Hmode Hfid Hfile).
    cbv zeta.
    match goal with
    | |- context [cap_and_route w ?u ?c ?m ?b ?cp ?s0] =>
        pose proof (cap_and_route_answers w u c m b cp s0) as Hanswers;
        destruct (cap_and_route w u c m b cp s0) as [[r s'] t]
    end.
    unfold trace_of in *. cbn [snd] in *.
    change ((s, GetFile fid) :: t) with ([(s, GetFile fid)] ++ t).
    by rewrite fetched_app, (fetched_answers t Hanswers).
Qed.

(** The download loop stops at the first file that cannot be fetched. *)
Lemma download_all_failure (fids : list string) :
  forall (acc : list image) (s : store),
    downloads w fids = None ->
    exists (e : exn) (k : nat),
      download_all w fids acc s
      = (inl e, s, map (fun fid => (s, GetFile fid)) (take (S k) fids))
      /\ (k < length fids)%nat
      /\ (exists fid, fids !! k = Some fid /\ download w fid = inl e)
      /\ is_Some (downloads w (take k fids)).
Proof.
  induction fids as [| fid rest IH]; intros acc s; simpl; [discriminate |].
  destruct (download w fid) as [e | file] eqn:Hfile.
  - intros _. exists e, 0%nat. rewrite bind_run. unfold get_file at 1. rewrite Hfile.
    split; [by rewrite take_0 |]. split; [lia |]. split; [by exists fid | by eexists].
  - destruct (downloads w rest) as [files |] eqn:Hrest; [discriminate |].
    intros _. destruct (IH (acc ++ [file]) s eq_refl) as (e & k & Hrun & Hk & Hat & Hbefore).
    exists e, (S k). rewrite bind_run. unfold get_file at 1. rewrite Hfile, Hrun.
    split; [reflexivity |]. split; [lia |]. split; [exact Hat |].
    cbn [take downloads]. rewrite Hfile. destruct Hbefore as [files' ->]. by eexists.
Qed.

End ImageFacts.

(** X10. Of the sizes of a photo the bot takes the first of the
    largest: the sizes of the message that come before the one chosen
    have a strictly smaller [file_size], and none of those that come
    after it has a larger one. A document in the same message is not
    looked at. Outside the text-to-image modes a single photo makes the
    bot fetch exactly the file of that size. *)
Theorem largest_photo_size_is_fetched
    (w : world) (upd : Bot.update) (s : Bot.store)
    (p : Bot.photo_size) (ps : list Bot.photo_size) :
  Bot.msg_photo (Bot.upd_message upd) = p :: ps ->
  exists (before : list Bot.photo_size) (m : Bot.photo_size)
         (after : list Bot.photo_size),
    p :: ps = before ++ m :: after
    /\ Forall (fun q => Bot.ps_file_size q < Bot.ps_file_size m) before
    /\ Forall (fun q => Bot.ps_file_size q <= Bot.ps_file_size m) after
    /\ Bot.album_file_id (Bot.upd_message upd) = Some (Bot.ps_file_id m)
    /\ (truthy_id (Bot.msg_media_group_id (Bot.upd_message upd)) = false ->
        Bot.is_create (Bot.model_of s (Bot.effective_user upd)) = false ->
        Bot.fetched (Bot.trace_of (Bot.handle_images w upd s)) = [Bot.ps_file_id m]).
Proof.
  intros Hphoto.
  destruct (max_from_first ps p) as (before & after & Hsplit & Hbefore & Hafter).
  exists before, (Bot.max_from p ps), after.
  assert (Hfid : Bot.album_file_id (Bot.upd_message upd)
                 = Some (Bot.ps_file_id (Bot.max_from p ps))).
  { unfold Bot.album_file_id. by rewrite Hphoto. }
  split; [exact Hsplit |]. split; [exact Hbefore |]. split; [exact Hafter |].
  split; [exact Hfid |].
  intros Hsingle Hmode.
  by destruct (handle_images_single_fetched w upd s _ Hsingle Hmode Hfid).
Qed.

(** X11. A message without photo whose document is not an image (its
    mime type is absent or does not start with "image/") is answered
    with "only images are supported" and nothing else, as part of an
    album in every mode and alone outside the text-to-image modes:
    nothing is fetched, no album is opened or extended, and the store
    stays as it is. *)
Theorem non_image_document_is_refused
    (w : world) (upd : Bot.update) (s : Bot.store) (d : Bot.document) :
  Bot.msg_photo (Bot.upd_message upd) = [] ->
  Bot.msg_document (Bot.upd_message upd) = Some d ->
  Bot.is_image_mime d = false ->
  truthy_id (Bot.msg_media_group_id (Bot.upd_message upd)) = true
  \/ Bot.is_create (Bot.model_of s (Bot.effective_user upd)) = false ->
  Bot.handle_images w upd s
  = (inr tt, s, [(s, Bot.ReplyText (Bot.effective_user upd) Bot.MsgImagesOnly)]).
Proof.
  intros Hphoto Hdoc Hmime Hwhere.
  unfold Bot.handle_images. rewrite bind_get_user_data. cbv zeta.
  fold (Bot.model_of s (Bot.effective_user upd)).
  unfold Bot.album_file_id. rewrite Hphoto, Hdoc, Hmime. cbn [truthy_id negb].
  destruct (truthy_id (Bot.msg_media_group_id (Bot.upd_message upd))) eqn:Hgroup.
  - rewrite andb_false_r. reflexivity.
  - destruct Hwhere as [Habs | Hmode]; [discriminate |].
    rewrite Hmode. reflexivity.
Qed.

(** X12. A download that fails. For a single photo the exception
    leaves the handler with the store as it was and nothing replied.
    For the flush of an album outside the text-to-image modes the album
    has already been taken out of [media_groups]: the flush stops at the
    first file that cannot be fetched, the buffers are as before, and
    the user is told nothing; the images of the album are lost. *)
Theorem failed_download_drops_the_batch (w : world) (s : Bot.store) :
  (forall (upd : Bot.update) (fid : string) (e : exn),
      truthy_id (Bot.msg_media_group_id (Bot.upd_message upd)) = false ->
      Bot.is_create (Bot.model_of s (Bot.effective_user upd)) = false ->
      Bot.album_file_id (Bot.upd_message upd) = Some fid ->
      download w fid = inl e ->
      Bot.handle_images w upd s = (inl e, s, [(s, Bot.GetFile fid)]))
  /\ (forall (group_id : string) (data : Bot.group),
        Bot.media_groups s !! group_id = Some data ->
        Bot.is_create (Bot.model_of s (Bot.user_id data)) = false ->
        Bot.downloads w (Bot.file_ids data) = None ->
        exists (e : exn) (k : nat),
          Bot.process_media_group_after_delay w group_id s
          = (inl e, Bot.without_group s group_id,
             map (fun fid => (Bot.without_group s group_id, Bot.GetFile fid))
                 (take (S k) (Bot.file_ids data)))
          /\ (exists fid, Bot.file_ids data !! k = Some fid /\ download w fid = inl e)
          /\ is_Some (Bot.downloads w (take k (Bot.file_ids data)))
          /\ Bot.users (Bot.without_group s group_id) = Bot.users s
          /\ Bot.media_groups (Bot.without_group s group_id) !! group_id = None).
Proof.
  split.
  - intros upd fid e Hsingle Hmode Hfid Hfile.
    destruct (handle_images_single_fetched w upd s fid Hsingle Hmode Hfid) as [_ Hfail].
    by apply Hfail.
  - intros group_id data Hopen Hmode Hfiles.
    rewrite (flush_open w group_id s data Hopen).
    unfold Bot.process_media_group. rewrite bind_get_user_data. cbv zeta.
    change (Bot.get_model (Bot.user_data_of (Bot.without_group s group_id) (Bot.user_id data)))
      with (Bot.model_of s (Bot.user_id data)).
    rewrite Hmode. rewrite bind_run.
    destruct (download_all_failure w (Bot.file_ids data) [] (Bot.without_group s group_id) Hfiles)
      as (e & k & Hrun & Hk & Hat & Hbefore).
    rewrite Hrun. exists e, k. split; [reflexivity |].
    split; [exact Hat |]. split; [exact Hbefore |]. split; [reflexivity |].
    apply lookup_delete_eq.
Qed.

(** ** Images by mode *)

Section ModeFacts.
Import Bot Trace.
Variable w : world.


Lemma api_calls_reply_create (upd : update) (ctx : Z) (images : list image)
    (prompt : text) (s : store) :
  is_create (model_of s ctx) = true ->
  api_calls (trace_of (process_and_reply w upd ctx images prompt s))
  = snd (Processor.process_create w prompt
           (if String.eqb (model_of s ctx) "create" then "gpt-image-1.5"%string
            else "dall-e-2"%string)).
Proof.
  intros Hmode. rewrite (process_and_reply_create w upd ctx images prompt s Hmode).
  cbv zeta. unfold trace_of. cbn [snd].
  set (out := Processor.process_create w prompt _).
  by destruct (api_calls_edit_trace s s (effective_user upd) false
                 (MsgGenerating (label_of (model_of s ctx)))
                 (MsgGenerating (label_of (model_of s ctx)))
                 (label_of (model_of s ctx)) out) as (Hc & _).
Qed.

Lemma api_calls_reply_chat (upd : update) (ctx : Z) (images : list image)
    (prompt : text) (s : store) :
  model_of s ctx = "gpt-5.2"%string ->
  api_calls (trace_of (process_and_reply w upd ctx images prompt s))
  = snd (chat_call w images prompt).
Proof.
  intros Hmodel. rewrite (process_and_reply_chat_run w upd ctx images prompt s Hmodel).
  unfold trace_of. cbn [snd].
  rewrite api_calls_cons_other by reflexivity.
  by rewrite api_calls_app, api_calls_to_thread, chat_outcome_calls, app_nil_r.
Qed.

Lemma process_create_calls (prompt : text) (model : string) :
  Forall (fun c => exists r : generate_request, c = ImagesGenerate r)
         (snd (Processor.process_create w prompt model)).
Proof.
  unfold Processor.process_create, Processor.process_create_with.
  destruct (Processor.blank prompt); [constructor |].
  destruct (String.eqb _ "dall-e-2"); cbv iota beta zeta;
    (match goal with
     | |- context [images_generate w ?r] => destruct (images_generate w r)
     end); repeat constructor; eauto.
Qed.

Lemma fetched_reply (upd : update) (ctx : Z) (images : list image)
    (prompt : text) (s : store) :
  fetched (trace_of (process_and_reply w upd ctx images prompt s)) = [].
Proof.
  destruct (process_and_reply_run w upd ctx images prompt s) as [_ Hall].
  apply fetched_answers. eapply Forall_impl; [exact Hall |]. by intros sa [_ Ha].
Qed.

(** The cap and the routing when there is nothing to cut. *)
Lemma cap_and_route_small (target : update) (uid : Z) (model : string)
    (images : list image) (cap : text) (s : store) :
  len images <= 10 ->
  cap_and_route w target uid model images cap s
  = if nonempty cap
    then (inr tt, with_pending s uid [],
          trace_of (process_and_reply w target uid images cap (with_pending s uid [])))
    else (inr tt, with_pending s uid images,
          [(with_pending s uid images,
            ReplyText (effective_user target) (MsgReceived (len images) (label_of model)))]).
Proof.
  intros Hsmall. rewrite cap_and_route_run. cbv zeta.
  destruct (Z.ltb_spec 10 (len images)); [lia | reflexivity].
Qed.

(** A photo outside an album in a text-to-image mode. *)
Lemma handle_images_create_run (upd : update) (s : store) :
  let uid := effective_user upd in
  let cap := strip (default [] (msg_caption (upd_message upd))) in
  truthy_id (msg_media_group_id (upd_message upd)) = false ->
  is_create (model_of s uid) = true ->
  handle_images w upd s
  = if nonempty cap
    then (inr tt, with_pending s uid [],
          trace_of (process_and_reply w upd uid [] cap (with_pending s uid [])))
    else (inr tt, s,
          [(s, ReplyText uid (MsgCreateTextOnly (mode_name_of (model_of s uid))))]).
Proof.
  intros uid cap Hsingle Hmode.
  unfold handle_images. rewrite bind_get_user_data. cbv zeta.
  fold uid. fold (model_of s uid). fold cap.
  rewrite Hmode, Hsingle. cbn [andb negb].
  destruct (nonempty cap); [apply dispatch_run | reflexivity].
Qed.

(** The flush of an album in a text-to-image mode. *)
Lemma flush_create_run (group_id : string) (s : store) (data : group) :
  let uid := user_id data in
  let cleared := with_pending (without_group s group_id) uid [] in
  media_groups s !! group_id = Some data ->
  is_create (model_of s uid) = true ->
  process_media_group_after_delay w group_id s
  = (inr tt, cleared,
     if nonempty (caption data)
     then trace_of (process_and_reply w (first_update data) uid [] (caption data) cleared)
     else [(cleared, ReplyText (effective_user (first_update data))
                       (MsgCreateNeedCaption (mode_name_of (model_of s uid))))]).
Proof.
  intros uid cleared Hopen Hmode.
  rewrite (flush_open w group_id s data Hopen).
  unfold process_media_group. rewrite bind_get_user_data. cbv zeta.
  change (get_model (user_data_of (without_group s group_id) (user_id data)))
    with (model_of s uid).
  rewrite Hmode. fold uid.
  destruct (nonempty (caption data)).
  - rewrite bind_run. unfold set_pending_images at 1. fold cleared.
    destruct (quiet_process_and_reply w (first_update data) uid [] (caption data) cleared)
      as ([] & tr & Hrun & _).
    rewrite Hrun. reflexivity.
  - reflexivity.
Qed.

Lemma collect_album_trace (upd : update) (group_id file_id : string)
    (cap : text) (s : store) :
  fetched (trace_of (collect_album upd group_id file_id cap s)) = []
  /\ api_calls (trace_of (collect_album upd group_id file_id cap s)) = [].
Proof.
  unfold collect_album. rewrite !bind_run. unfold group_is_open.
  destruct (bool_decide (is_Some (media_groups s !! group_id))); split; reflexivity.
Qed.

End ModeFacts.

(** X13. In the two text-to-image modes no event makes the bot fetch a
    file, and every backend call it makes is a call of
    [images.generate]: a photo, an album part, an album flush, a text
    message or a command, whatever they carry. *)
Theorem text_to_image_modes_use_no_image
    (w : world) (ev : Bot.event) (s : Bot.store) :
  Bot.is_create (Bot.model_of s (Bot.owner ev s)) = true ->
  Bot.fetched (Bot.trace_of (Bot.handle w ev s)) = []
  /\ Forall (fun c => exists r : generate_request, c = ImagesGenerate r)
            (Bot.api_calls (Bot.trace_of (Bot.handle w ev s))).
Proof.
  intros Hmode.
  assert (Hreply : forall (upd : Bot.update) (uid : Z) (images : list image)
                     (prompt : text) (s' : Bot.store),
             Bot.is_create (Bot.model_of s' uid) = true ->
             Bot.fetched (Bot.trace_of (Bot.process_and_reply w upd uid images prompt s')) = []
             /\ Forall (fun c => exists r : generate_request, c = ImagesGenerate r)
                  (Bot.api_calls
                     (Bot.trace_of (Bot.process_and_reply w upd uid images prompt s')))).
  { intros upd uid images prompt s' Hcreate. split; [apply fetched_reply |].
    rewrite (api_calls_reply_create w upd uid images prompt s' Hcreate).
    apply process_create_calls. }
  destruct ev as [c upd | upd | upd | group_id]; simpl Bot.owner in Hmode; simpl Bot.handle.
  - unfold Bot.handle_command. destruct (Bot.command_model c); [| by split].
    rewrite bind_run. by split.
  - destruct (truthy_id (Bot.msg_media_group_id (Bot.upd_message upd))) eqn:Hgroup.
    + unfold Bot.handle_images. rewrite bind_get_user_data. cbv zeta.
      rewrite Hgroup, andb_false_r.
      destruct (truthy_id (Bot.album_file_id (Bot.upd_message upd))).
      * destruct (collect_album_trace upd
                    (default ""%string (Bot.msg_media_group_id (Bot.upd_message upd)))
                    (default ""%string (Bot.album_file_id (Bot.upd_message upd)))
                    (strip (default [] (Bot.msg_caption (Bot.upd_message upd)))) s)
          as [-> ->].
        by split.
      * by destruct (Bot.msg_document (Bot.upd_message upd)).
    + rewrite (handle_images_create_run w upd s Hgroup Hmode).
      destruct (nonempty _); [| by split].
      unfold Bot.trace_of at 1 3. cbn [snd]. apply Hreply.
      by rewrite model_of_with_pending.
  - destruct (Trace.text_dispatches (Bot.model_of s (Bot.effective_user upd))
                (Bot.pending_of s (Bot.effective_user upd))
                (strip (default [] (Bot.msg_text (Bot.upd_message upd))))) eqn:Hgo.
    + rewrite (handle_text_dispatch w upd s Hgo).
      unfold Bot.trace_of at 1 3. cbn [snd].
      rewrite fetched_app, api_calls_app.
      match goal with
      | |- context [Bot.process_and_reply w ?u ?c ?i ?p ?s0] =>
          destruct (Hreply u c i p s0) as [Hf Hc]
      end.
      { by rewrite model_of_with_pending. }
      rewrite Hf.
      destruct (Z.of_nat _ <? _); cbn [app]; (split; [reflexivity | exact Hc]).
    + rewrite (handle_text_rejection w upd s Hgo). by split.
  - destruct (Bot.media_groups s !! group_id) as [data |] eqn:Hopen.
    + rewrite (flush_create_run w group_id s data Hopen Hmode).
      destruct (nonempty (Bot.caption data)); [| by split].
      unfold Bot.trace_of at 1 3. cbn [snd]. apply Hreply.
      rewrite model_of_with_pending. exact Hmode.
    + rewrite (flush_closed w group_id s Hopen). by split.
Qed.

(** X14. The chat mode keeps one image. A single photo whose download
    succeeds replaces whatever was buffered: without caption the buffer
    becomes that one image, with a caption the image and the caption go
    to the chat call. The flush of an album keeps the first downloaded
    image only. *)
Theorem chat_mode_keeps_one_image (w : world) (s : Bot.store) :
  (forall (upd : Bot.update) (fid : string) (file : image),
      let uid := Bot.effective_user upd in
      let cap := strip (default [] (Bot.msg_caption (Bot.upd_message upd))) in
      let x := Bot.handle_images w upd s in
      Bot.model_of s uid = "gpt-5.2"%string ->
      truthy_id (Bot.msg_media_group_id (Bot.upd_message upd)) = false ->
      Bot.album_file_id (Bot.upd_message upd) = Some fid ->
      download w fid = inr file ->
      Bot.result_of x = inr tt
      /\ Bot.pending_of (Bot.store_of x) uid = (if nonempty cap then [] else [file])
      /\ Bot.api_calls (Bot.trace_of x)
         = (if nonempty cap then snd (Trace.chat_call w [file] cap) else [])
      /\ Bot.fetched (Bot.trace_of x) = [fid])
  /\ (forall (group_id : string) (data : Bot.group) (files : list image),
        let uid := Bot.user_id data in
        let cap := Bot.caption data in
        let x := Bot.process_media_group_after_delay w group_id s in
        Bot.media_groups s !! group_id = Some data ->
        Bot.model_of s uid = "gpt-5.2"%string ->
        Bot.downloads w (Bot.file_ids data) = Some files ->
        Bot.result_of x = inr tt
        /\ Bot.pending_of (Bot.store_of x) uid
           = (if nonempty cap then [] else take 1 files)
        /\ Bot.api_calls (Bot.trace_of x)
           = (if nonempty cap then snd (Trace.chat_call w (take 1 files) cap) else [])
        /\ Bot.fetched (Bot.trace_of x) = Bot.file_ids data).
Proof.
  assert (Hroute : forall (target : Bot.update) (uid : Z) (images : list image)
                     (cap : text) (s0 : Bot.store) (pre : Bot.trace),
             Bot.model_of s0 uid = "gpt-5.2"%string ->
             len images <= 10 ->
             Bot.api_calls pre = [] ->
             let x := (let '(r, s', t) :=
                         Bot.cap_and_route w target uid "gpt-5.2" images cap s0 in
                       (r, s', pre ++ t)) in
             Bot.result_of x = inr tt
             /\ Bot.pending_of (Bot.store_of x) uid = (if nonempty cap then [] else images)
             /\ Bot.api_calls (Bot.trace_of x)
                = (if nonempty cap then snd (Trace.chat_call w images cap) else [])
             /\ Bot.fetched (Bot.trace_of x) = Bot.fetched pre).
  { intros target uid images cap s0 pre Hmodel Hsmall Hpre x. subst x.
    rewrite (cap_and_route_small w target uid "gpt-5.2" images cap s0 Hsmall).
    destruct (nonempty cap).
    - set (inner := Bot.trace_of (Bot.process_and_reply w target uid images cap _)).
      unfold Bot.result_of, Bot.store_of, Bot.trace_of. cbn [fst snd]. subst inner.
      rewrite pending_of_with_pending, api_calls_app, fetched_app, Hpre.
      destruct (decide (uid = uid)); [| done].
      rewrite fetched_reply, app_nil_r. repeat split.
      apply api_calls_reply_chat. by rewrite model_of_with_pending.
    - unfold Bot.result_of, Bot.store_of, Bot.trace_of. cbn [fst snd].
      rewrite pending_of_with_pending, api_calls_app, fetched_app, Hpre.
      destruct (decide (uid = uid)); [| done].
      split; [done |]. split; [done |]. split; [reflexivity | apply app_nil_r]. }
  split.
  - intros upd fid file uid cap x Hmodel Hsingle Hfid Hfile. subst x.
    rewrite (handle_images_single_run w upd s fid file Hsingle
               ltac:(fold uid; by rewrite Hmodel) Hfid Hfile).
    cbv zeta. fold uid cap. rewrite Hmodel.
    change ("gpt-5.2" =? "gpt-5.2")%string with true. cbv iota. cbn [app].
    apply (Hroute upd uid [file] cap s [(s, Bot.GetFile fid)] Hmodel);
      [unfold len; simpl; lia | reflexivity].
  - intros group_id data files uid cap x Hopen Hmodel Hfiles. subst x.
    rewrite (flush_run w group_id s data files Hopen
               ltac:(fold uid; by rewrite Hmodel) Hfiles).
    cbv zeta. fold uid cap. rewrite Hmodel.
    change ("gpt-5.2" =? "gpt-5.2")%string with true. cbv iota.
    assert (Hpre : Bot.api_calls
                     (map (fun fid => (Bot.without_group s group_id, Bot.GetFile fid))
                        (Bot.file_ids data)) = []).
    { clear. induction (Bot.file_ids data) as [| f rest IH]; [reflexivity | exact IH]. }
    assert (Hone : len (take 1 files) <= 10)
      by (unfold len; rewrite length_take; lia).
    pose proof (Hroute (Bot.first_update data) uid (take 1 files) cap
                  (Bot.without_group s group_id) _ Hmodel Hone Hpre) as Hall.
    cbv zeta in Hall. rewrite fetched_downloads in Hall. exact Hall.
Qed.


(** ** [processor.py]: the checks before the call *)

Section ProcessorChecks.
Import Processor.
Variable w : world.

Lemma process_bad_count (images : list image) (prompt : text)
    (model quality size output_format : string) :
  ~ 1 <= len images <= 10 ->
  process_with w images prompt model quality size output_format
  = (inl (value_error ErrImageCount), []).
Proof.
  intros Hbad. unfold process_with.
  destruct (Z.leb_spec 1 (len images)); [| reflexivity].
  destruct (Z.leb_spec (len images) 10); [lia | reflexivity].
Qed.

Lemma process_blank (images : list image) (prompt : text)
    (model quality size output_format : string) :
  1 <= len images <= 10 -> blank prompt = true ->
  process_with w images prompt model quality size output_format
  = (inl (value_error ErrEmptyCommand), []).
Proof.
  intros [Hlo Hhi] Hblank. unfold process_with.
  destruct (Z.leb_spec 1 (len images)); [| lia].
  destruct (Z.leb_spec (len images) 10); [| lia].
  cbn [andb negb]. rewrite Hblank. by destruct (_ && _).
Qed.

(** [process], once the count is right and the prompt is not blank,
    with any keywords. *)
Lemma process_with_run (images : list image) (prompt : text)
    (model quality size output_format : string) :
  1 <= len images <= 10 ->
  blank prompt = false ->
  process_with w images prompt model quality size output_format
  = match api_images_from w 0 (sent_images model images) with
    | inl e => (inl e, [])
    | inr files =>
        let req := EditRequest (model_or_default model) files
                     (SYSTEM_PROMPT w ++ strip prompt) quality
                     (if String.eqb (model_or_default model) "dall-e-2"
                         && (1 <? len images)
                      then "1024x1024"%string else size)
                     output_format in
        (match images_edit w req with
         | inl e => inl e
         | inr result => decode_result w result
         end, [ImagesEdit req])
    end.
Proof.
  intros [Hlo Hhi] Hblank. unfold process_with, sent_images.
  destruct (Z.leb_spec 1 (len images)); [| lia].
  destruct (Z.leb_spec (len images) 10); [| lia].
  cbn [andb negb]. rewrite Hblank.
  destruct ((model_or_default model =? "dall-e-2")%string && (1 <? len images)).
  - destruct (api_images_from w 0 (take 1 images)) as [e | files]; [reflexivity |].
    cbv zeta. by destruct (images_edit w _).
  - destruct (api_images_from w 0 images) as [e | files]; [reflexivity |].
    cbv zeta. by destruct (images_edit w _).
Qed.

Lemma sent_images_length (images : list image) (model : string) :
  1 <= len images <= 10 -> (1 <= length (sent_images model images) <= 10)%nat.
Proof.
  intros Hlen. unfold sent_images, len in *.
  destruct (_ && _); [rewrite length_take |]; lia.
Qed.

Lemma blank_false_strip (prompt : text) : blank prompt = false -> strip prompt <> [].
Proof. unfold blank. by destruct (strip prompt). Qed.

Lemma prefix_dalle (model : string) :
  String.prefix "dall-e" model = false -> String.eqb model "dall-e-2" = false.
Proof.
  intros Hprefix. destruct (String.eqb_spec model "dall-e-2") as [-> |]; [| reflexivity].
  discriminate.
Qed.

Lemma sniff_mime_cases (data : image) :
  (sniff_mime data = "image/jpeg"%string /\ take 3 data = [xff; xd8; xff])
  \/ (sniff_mime data = "image/png"%string /\ take 3 data <> [xff; xd8; xff]
      /\ ~ (take 4 data = [x52; x49; x46; x46]
            /\ take 4 (drop 8 data) = [x57; x45; x42; x50]
            /\ take 8 data <> [x89; x50; x4e; x47; x0d; x0a; x1a; x0a]))
  \/ (sniff_mime data = "image/webp"%string
      /\ take 4 data = [x52; x49; x46; x46]
      /\ take 4 (drop 8 data) = [x57; x45; x42; x50]).
Proof.
  unfold sniff_mime.
  destruct (bool_decide_reflect (take 3 data = [xff; xd8; xff])) as [Hjpeg | Hjpeg];
    [by left |].
  destruct (bool_decide_reflect
              (take 8 data = [x89; x50; x4e; x47; x0d; x0a; x1a; x0a])) as [Hpng | Hpng].
  { right. left. repeat split; [exact Hjpeg |]. by intros (_ & _ & Hno). }
  destruct (bool_decide_reflect (take 4 data = [x52; x49; x46; x46])) as [Hriff | Hriff];
    [| right; left; repeat split; [exact Hjpeg | by intros (? & _)]].
  destruct (bool_decide_reflect (take 4 (drop 8 data) = [x57; x45; x42; x50]))
    as [Hwebp | Hwebp]; cbn [andb].
  - right. right. by repeat split.
  - right. left. repeat split; [exact Hjpeg | by intros (_ & ? & _)].
Qed.

End ProcessorChecks.

(** X16. [ImageProcessor.process], given its images as bytes, checks
    its input in a fixed order and calls the backend only when every
    check has passed: a batch that is not of 1 to 10 images is refused
    first, whatever the prompt; then a blank prompt; then an image that
    Pillow cannot read. In none of these cases is a call made. A call,
    when there is one, is the only one: [images.edit] with the model
    given (gpt-image-1.5 when none is), the system prompt followed by
    the stripped prompt, the quality and the output format as given,
    the size as given unless the model is dall-e-2 and the batch has
    several images (then 1024x1024), and 1 to 10 files numbered from 0.
    An image is returned only as what [b64decode] makes of the first
    [b64_json] of the answer to that call, which is then not the empty
    string. *)
Theorem process_checks_before_calling
    (w : world) (images : list image) (prompt : text)
    (model quality size output_format : string) :
  let out := Processor.process_with w images prompt model
               quality size output_format in
  (~ 1 <= len images <= 10 -> out = (inl (value_error ErrImageCount), []))
  /\ (1 <= len images <= 10 -> Processor.blank prompt = true ->
      out = (inl (value_error ErrEmptyCommand), []))
  /\ (1 <= len images <= 10 -> Processor.blank prompt = false ->
      forall img : image,
        img ∈ sent_images model images -> normalize w img = None ->
        out = (inl (value_error ErrBadImage), []))
  /\ (forall c : api_call,
        c ∈ snd out ->
        exists req : edit_request,
          snd out = [ImagesEdit req]
          /\ er_model req = Processor.model_or_default model
          /\ er_prompt req = SYSTEM_PROMPT w ++ strip prompt
          /\ strip prompt <> []
          /\ er_quality req = quality
          /\ er_output_format req = output_format
          /\ er_size req
             = (if String.eqb (Processor.model_or_default model) "dall-e-2"
                   && (1 <? len images)
                then "1024x1024"%string else size)
          /\ (1 <= length (er_image req) <= 10)%nat
          /\ forall (i : nat) (f : api_file),
               er_image req !! i = Some f -> af_index f = i)
  /\ (forall (b : image) (u : option Processor.usage_str),
        fst out = inr (b, u) ->
        exists (req : edit_request) (result : images_response) (d : text),
          snd out = [ImagesEdit req]
          /\ images_edit w req = inr result
          /\ head (resp_data result) = Some d /\ d <> []
          /\ b64decode w d = inr b
          /\ u = Processor._format_usage (resp_usage result)).
Proof.
  intros out. subst out.
  split; [apply process_bad_count |].
  split; [apply process_blank |].
  split.
  { intros Hlen Hblank img Hin Hnone.
    rewrite (process_with_run w images prompt model _ _ _ Hlen Hblank).
    by rewrite (api_images_from_fails w _ img Hin Hnone 0%nat). }
  assert (Hcases : ~ 1 <= len images <= 10
                   \/ (1 <= len images <= 10 /\ Processor.blank prompt = true)
                   \/ (1 <= len images <= 10 /\ Processor.blank prompt = false)).
  { destruct (Processor.blank prompt); lia. }
  destruct Hcases as [Hbad | [[Hlen Hblank] | [Hlen Hblank]]].
  - rewrite (process_bad_count w images prompt model _ _ _ Hbad). cbn [fst snd].
    split; [intros c Hc; by apply elem_of_nil in Hc | discriminate].
  - rewrite (process_blank w images prompt model _ _ _ Hlen Hblank). cbn [fst snd].
    split; [intros c Hc; by apply elem_of_nil in Hc | discriminate].
  - rewrite (process_with_run w images prompt model _ _ _ Hlen Hblank).
    destruct (Processor.api_images_from w 0 (sent_images model images))
      as [e | files] eqn:Hfiles.
    { cbn [fst snd]. split; [intros c Hc; by apply elem_of_nil in Hc | discriminate]. }
    destruct (api_images_from_ok w _ 0%nat files Hfiles) as [Hcount Hnth].
    pose proof (sent_images_length images model Hlen) as Hsent.
    cbv zeta. cbn [fst snd]. split.
    + intros c _. eexists. split; [reflexivity |]. cbn.
      repeat split; try lia; [by apply blank_false_strip |].
      intros i f Hf.
      destruct (sent_images model images !! i) as [img |] eqn:Himg.
      * destruct (Hnth i img Himg) as (ext & mime & buf & _ & Hfile).
        rewrite Hf in Hfile. by injection Hfile as ->.
      * apply lookup_ge_None in Himg. apply lookup_lt_Some in Hf. lia.
    + intros b u Hok.
      destruct (images_edit w _) as [e | result] eqn:Hcall; [discriminate |].
      destruct (decode_result_ok w result b u Hok) as (d & Hd & Hne & Hdec & Hu).
      eexists _, result, d. split; [reflexivity |]. by repeat split.
Qed.

(** X17. [ImageProcessor.process_create] refuses a blank description
    without a call, and otherwise makes exactly one call, to
    [images.generate], with the stripped description and the model
    given (gpt-image-1.5 when none is). A model whose name starts with
    "dall-e" is sent the response format b64_json and neither quality
    nor output format, whatever the caller gave: so the quality
    "standard" that the function picks for dall-e-2 is never sent. Any
    other model is sent the quality and the output format as given. The
    size is 1024x1024 for dall-e-2 and as given otherwise. *)
Theorem process_create_request_by_model
    (w : world) (prompt : text) (model quality size output_format : string) :
  let out := Processor.process_create_with w prompt model
               quality size output_format in
  (Processor.blank prompt = true ->
   out = (inl (value_error ErrEmptyDescription), []))
  /\ (Processor.blank prompt = false ->
      exists req : generate_request,
        snd out = [ImagesGenerate req]
        /\ fst out = match images_generate w req with
                     | inl e => inl e
                     | inr result => Processor.decode_result w result
                     end
        /\ gr_prompt req = strip prompt
        /\ strip prompt <> []
        /\ gr_model req = Processor.model_or_default model
        /\ gr_size req = (if String.eqb (gr_model req) "dall-e-2"
                          then "1024x1024"%string else size)
        /\ (if String.prefix "dall-e" (gr_model req)
            then gr_quality req = None /\ gr_output_format req = None
                 /\ gr_response_format req = Some "b64_json"%string
            else gr_quality req = Some quality
                 /\ gr_output_format req = Some output_format
                 /\ gr_response_format req = None)
        /\ (gr_model req = "dall-e-2"%string -> gr_quality req = None)).
Proof.
  intros out. subst out. unfold Processor.process_create_with. split.
  { by intros ->. }
  intros Hblank. rewrite Hblank.
  pose proof (blank_false_strip prompt Hblank) as Hne.
  destruct (String.prefix "dall-e" (Processor.model_or_default model)) eqn:Hprefix.
  - destruct (String.eqb (Processor.model_or_default model) "dall-e-2") eqn:Hlegacy;
      cbv iota beta zeta;
      (eexists; split; [by destruct (images_generate w _) |]);
      (split; [by destruct (images_generate w _) |]);
      cbn; rewrite Hprefix, Hlegacy; by repeat split.
  - rewrite (prefix_dalle _ Hprefix). cbv iota beta zeta.
    (eexists; split; [by destruct (images_generate w _) |]);
      (split; [by destruct (images_generate w _) |]).
    cbn. rewrite Hprefix, (prefix_dalle _ Hprefix).
    repeat split; try done. intros Hlegacy. rewrite Hlegacy in Hprefix. discriminate.
Qed.

(** X18. The two chat calls differ in what they check.
    [process_text_only] refuses a blank message without a call.
    [process_text_with_image] checks nothing: whatever the prompt, a
    blank one included, it makes one call with the stripped prompt and
    the image as it is. The mime type it declares is read off the
    first bytes: image/jpeg exactly for data that starts with FF D8 FF,
    image/webp only for RIFF....WEBP, image/png for everything else,
    data that is no image included. *)
Theorem chat_calls_and_mime_type
    (w : world) (img : image) (prompt : text) (model : string) :
  (Processor.blank prompt = true ->
   Processor.process_text_only w prompt model = (inl (value_error ErrEmptyMessage), []))
  /\ (Processor.blank prompt = false ->
      snd (Processor.process_text_only w prompt model)
      = [ChatCompletions (ChatRequest model (strip prompt) None)])
  /\ snd (Processor.process_text_with_image w img prompt model)
     = [ChatCompletions
          (ChatRequest model (strip prompt) (Some (Processor.sniff_mime img, img)))]
  /\ (Processor.sniff_mime img = "image/jpeg"%string
      <-> take 3 img = [xff; xd8; xff])
  /\ (Processor.sniff_mime img = "image/webp"%string ->
      take 4 img = [x52; x49; x46; x46]
      /\ take 4 (drop 8 img) = [x57; x45; x42; x50]
      /\ (12 <= length img)%nat)
  /\ (Processor.sniff_mime img = "image/jpeg"%string
      \/ Processor.sniff_mime img = "image/png"%string
      \/ Processor.sniff_mime img = "image/webp"%string).
Proof.
  split; [unfold Processor.process_text_only; by intros -> |].
  split; [unfold Processor.process_text_only; by intros -> |].
  split; [reflexivity |].
  destruct (sniff_mime_cases img) as [[-> Hj] | [(-> & Hj & Hw) | (-> & Hr & Hw)]].
  - split; [by split |]. split; [discriminate | by left].
  - split; [split; [discriminate | done] |]. split; [discriminate | right; by left].
  - split.
    + split; [discriminate |]. intros Hj.
      assert (Hhead : take 3 (take 4 img) = take 3 img) by (rewrite take_take; f_equal).
      rewrite Hr, Hj in Hhead. discriminate.
    + split; [| right; by right]. intros _. repeat split; [exact Hr | exact Hw |].
      assert (Hlen : length (take 4 (drop 8 img)) = 4%nat) by by rewrite Hw.
      rewrite length_take, length_drop in Hlen. lia.
Qed.

(** ** [chunk_text]: how many parts, and where they end *)

Section ChunkParts.
Import Chunk.
Variable max_len : Z.
Hypothesis max_len_pos : 0 < max_len.

Lemma half_window : max_len / 2 + 1 <= max_len.
Proof.
  assert (max_len / 2 < max_len) by (apply Z.div_lt; lia). lia.
Qed.

(** A part that is not the last one is a full window or ends just
    after a line feed beyond the middle of the window. *)
Lemma cuts_parts (t : text) (cs : list text) :
  cuts max_len t cs ->
  (Z.of_nat (length cs) - 1) * (max_len / 2 + 1) < len t
  /\ forall (i : nat) (c : text),
       cs !! i = Some c -> (S i < length cs)%nat ->
       len c = max_len \/ (max_len / 2 + 1 < len c /\ last c = Some nl).
Proof.
  pose proof half_window as Hhalf.
  assert (Hk : 0 <= max_len / 2) by (apply Z.div_pos; lia).
  induction 1 as [| t i rest Ht Hi Hgt Hrest [IHn IHs] | t rest Ht Hi Hrest [IHn IHs]].
  - split; [unfold len; simpl; lia | intros i c Hc; by destruct i].
  - pose proof (rfind_upper nl (take (Z.to_nat max_len) t)) as Hup.
    rewrite Hi in Hup. unfold len in Hup. rewrite length_take in Hup.
    assert (Hlen : length (take (Z.to_nat (i + 1)) t) = Z.to_nat (i + 1))
      by (rewrite length_take; lia).
    assert (Hsplit : len t = i + 1 + len (drop (Z.to_nat (i + 1)) t)).
    { unfold len. rewrite length_drop. lia. }
    split.
    + simpl length. rewrite Hsplit. nia.
    + intros [| j] c Hc Hj; simpl in Hc.
      * injection Hc as <-. right. unfold len. rewrite Hlen. split; [lia |].
        rewrite last_lookup, Hlen.
        replace (Nat.pred (Z.to_nat (i + 1))) with (Z.to_nat i) by lia.
        rewrite lookup_take_lt by lia.
        assert (Hfound : take (Z.to_nat max_len) t !! Z.to_nat i = Some nl).
        { rewrite <- Hi. apply rfind_lookup. lia. }
        rewrite lookup_take_lt in Hfound by lia. exact Hfound.
      * apply (IHs j c Hc). simpl in Hj. lia.
  - assert (Hsplit : len t = len (take (Z.to_nat max_len) t)
                             + len (drop (Z.to_nat max_len) t)).
    { unfold len. rewrite <- Nat2Z.inj_add, <- length_app, take_drop. reflexivity. }
    assert (Hpos : 0 < len t) by (unfold len; destruct t; [done | simpl; lia]).
    destruct rest as [| r rest'].
    + split; [simpl; lia | intros [| j] c Hc Hj; simpl in Hj; lia].
    + assert (Hmore : 0 < len (drop (Z.to_nat max_len) t)).
      { simpl length in IHn. pose proof (len_nonneg rest') as Hr. unfold len in Hr. nia. }
      assert (Hfull : len (take (Z.to_nat max_len) t) = max_len).
      { unfold len in *. rewrite length_drop in Hmore. rewrite length_take. lia. }
      split.
      * simpl length in *. rewrite Hsplit, Hfull. nia.
      * intros [| j] c Hc Hj; simpl in Hc.
        -- injection Hc as <-. by left.
        -- apply (IHs j c Hc). simpl in Hj. simpl. lia.
Qed.

End ChunkParts.

(** X19. The parts returned by [chunk_text] for a positive [max_len]:
    each has between 1 and [max_len] characters; each part but the last
    is a full window of [max_len] characters or ends with a line feed
    and has more than [max_len // 2 + 1] characters; so [k] parts need
    a text of more than [(k - 1) * (max_len // 2 + 1)] characters,
    which bounds the number of messages an answer is sent in. *)
Theorem chunk_text_parts_are_few (t : text) (max_len : Z) :
  0 < max_len ->
  exists chunks : list text,
    Chunk.chunk_text t max_len = Some chunks
    /\ Forall (fun c : text => 1 <= len c <= max_len) chunks
    /\ (forall (i : nat) (c : text),
          chunks !! i = Some c -> (S i < length chunks)%nat ->
          len c = max_len \/ (max_len / 2 + 1 < len c /\ last c = Some nl))
    /\ (Z.of_nat (length chunks) - 1) * (max_len / 2 + 1) < len t.
Proof.
  intros Hpos.
  destruct (chunk_text_result max_len Hpos t) as (chunks & Hrun & Hcat & Hall & Hcuts).
  exists chunks. split; [exact Hrun |]. split.
  { eapply Forall_impl; [exact Hall |]. intros c [Hne Hle]. split; [| exact Hle].
    unfold len. destruct c; [done | simpl; lia]. }
  destruct (Z.ltb_spec max_len (len t)) as [Hlong | Hshort].
  - destruct (cuts_parts max_len Hpos t chunks (Hcuts Hlong)) as [Hn Hs].
    split; [exact Hs | exact Hn].
  - assert (Hk : 0 <= max_len / 2) by (apply Z.div_pos; lia).
    destruct t as [| x t'].
    + unfold Chunk.chunk_text, Chunk.chunk_text_fuel in Hrun.
      destruct (Z.leb_spec (len (@nil char)) max_len) as [_ | Hbad];
        [| unfold len in Hbad; simpl in Hbad; lia].
      injection Hrun as <-. split; [intros i c Hc; by destruct i |].
      unfold len. simpl. lia.
    + rewrite (chunk_text_short max_len (x :: t')) in Hrun by (done || exact Hshort).
      injection Hrun as <-. split.
      * intros [| i] c Hc Hi; simpl in Hi; lia.
      * unfold len. simpl. lia.
Qed.

(** ** What a handler emits *)

Section Emits.
Import Bot Trace.
Variable w : world.
Variable P : action -> Prop.

Lemma emits_nil {A : Type} (c : M A) :
  (forall s : store, trace_of (c s) = []) -> emits P c.
Proof. intros Hc s. rewrite Hc. constructor. Qed.

Lemma emits_ret {A : Type} (x : A) : emits P (mret x : M A).
Proof. by apply emits_nil. Qed.

Lemma emits_bind {A B : Type} (c : M A) (k : A -> M B) :
  emits P c -> (forall x : A, emits P (k x)) -> emits P (c ≫= k).
Proof.
  intros Hc Hk s. rewrite bind_run. specialize (Hc s).
  destruct (c s) as [[[e | x] s1] t1]; [exact Hc |].
  specialize (Hk x s1). destruct (k x s1) as [[r s2] t2].
  unfold trace_of in *. cbn [snd] in *. by apply Forall_app.
Qed.

Lemma emits_emit (a : action) : P a -> emits P (emit a).
Proof. intros Ha s. by repeat constructor. Qed.

Variable chat : Z.
Hypothesis P_chat : forall a : action, addressee a = Some chat -> P a.
Hypothesis P_api : forall c : api_call, P (ApiCall c).
Hypothesis P_get : forall fid : string, P (GetFile fid).

Lemma emits_reply_text (upd : update) (m : reply) :
  effective_user upd = chat -> emits P (reply_text upd m).
Proof. intros <-. by apply emits_emit, P_chat. Qed.

Lemma emits_to_thread {A : Type} (r : (exn + A) * list api_call) :
  emits P (to_thread r).
Proof.
  intros s. apply Forall_forall. intros sa Hsa.
  apply list_elem_of_fmap in Hsa as (c & -> & _). apply P_api.
Qed.

Lemma emits_get_file (fid : string) : emits P (get_file w fid).
Proof. intros s. repeat constructor. apply P_get. Qed.

Lemma emits_reply_parts (upd : update) (parts : list text) :
  effective_user upd = chat -> emits P (reply_parts upd parts).
Proof.
  intros Hchat. induction parts as [| part rest IH]; simpl.
  - apply emits_ret.
  - apply emits_bind; [by apply emits_reply_text | intros _; exact IH].
Qed.

Ltac emits_step :=
  match goal with
  | |- emits _ (_ ≫= _) => apply emits_bind; [| intros ?]
  | |- emits _ (if ?b then _ else _) => destruct b
  | |- emits _ (match ?x with _ => _ end) => destruct x
  | |- emits _ (mret _) => apply emits_ret
  | |- emits _ (emit _) => apply emits_emit, P_chat; simpl; congruence
  | |- emits _ (reply_text _ _) => apply emits_reply_text; assumption
  | |- emits _ (reply_parts _ _) => apply emits_reply_parts; assumption
  | |- emits _ (get_user_data _) => apply emits_nil; reflexivity
  | |- emits _ (set_pending_images _ _) => apply emits_nil; reflexivity
  | |- emits _ (set_model _ _) => apply emits_nil; reflexivity
  | |- emits _ (to_thread _) => apply emits_to_thread
  | |- emits _ (get_file _ _) => apply emits_get_file
  end.

Lemma emits_finish_image (upd : update) (label : string)
    (r : exn + (image * option Processor.usage_str)) :
  effective_user upd = chat -> emits P (finish_image upd label r).
Proof. intros Hchat. unfold finish_image. cbv zeta. repeat emits_step. Qed.

Lemma emits_process_and_reply (upd : update) (ctx : Z)
    (images : list image) (prompt : text) :
  effective_user upd = chat -> emits P (process_and_reply w upd ctx images prompt).
Proof.
  intros Hchat. unfold process_and_reply. cbv zeta.
  apply emits_bind; [emits_step | intros ud].
  repeat first [apply emits_finish_image; assumption | emits_step].
Qed.

Lemma emits_cap_and_route (target : update) (uid : Z) (model : string)
    (images : list image) (cap : text) :
  effective_user target = chat ->
  emits P (cap_and_route w target uid model images cap).
Proof.
  intros Hchat. unfold cap_and_route.
  repeat first [apply emits_process_and_reply; assumption | emits_step].
Qed.

Lemma emits_handle_text (upd : update) :
  effective_user upd = chat -> emits P (handle_text w upd).
Proof.
  intros Hchat. unfold handle_text. cbv zeta.
  repeat first [apply emits_process_and_reply; assumption | emits_step].
Qed.

Lemma emits_handle_command (c : command) (upd : update) :
  effective_user upd = chat -> emits P (handle_command c upd).
Proof. intros Hchat. unfold handle_command. repeat emits_step. Qed.

Lemma emits_download_all (fids : list string) (images : list image) :
  emits P (download_all w fids images).
Proof.
  revert images. induction fids as [| fid rest IH]; intros images; simpl.
  - apply emits_ret.
  - apply emits_bind; [apply emits_get_file | intros file; apply IH].
Qed.

Lemma emits_process_media_group (data : group) :
  effective_user (first_update data) = chat -> emits P (process_media_group w data).
Proof.
  intros Hchat. unfold process_media_group. cbv zeta.
  repeat first [apply emits_process_and_reply; assumption
               | apply emits_cap_and_route; assumption
               | apply emits_download_all | emits_step].
Qed.

Lemma emits_collect_album (upd : update) (group_id file_id : string) (cap : text) :
  P (CreateTask group_id) -> emits P (collect_album upd group_id file_id cap).
Proof.
  intros Htask. unfold collect_album.
  apply emits_bind; [by apply emits_nil | intros is_open].
  destruct is_open; [by apply emits_nil |].
  apply emits_bind; [by apply emits_nil | intros _; by apply emits_emit].
Qed.

(** [handle_images]: the one timer it may start is that of the album
    the update adds a part to. *)
Lemma emits_handle_images (upd : update) :
  effective_user upd = chat ->
  (forall group_id : string,
      msg_media_group_id (upd_message upd) = Some group_id ->
      truthy_id (msg_media_group_id (upd_message upd)) = true ->
      truthy_id (album_file_id (upd_message upd)) = true ->
      P (CreateTask group_id)) ->
  emits P (handle_images w upd).
Proof.
  intros Hchat Htask. unfold handle_images. cbv zeta.
  apply emits_bind; [emits_step | intros ud].
  destruct (is_create (get_model ud) && negb (truthy_id (msg_media_group_id (upd_message upd)))).
  { repeat first [apply emits_process_and_reply; assumption | emits_step]. }
  destruct (truthy_id (msg_media_group_id (upd_message upd))) eqn:Hgroup.
  - destruct (truthy_id (album_file_id (upd_message upd))) eqn:Hfile.
    + destruct (msg_media_group_id (upd_message upd)) as [group_id |] eqn:Hid;
        [| discriminate].
      simpl. apply emits_collect_album. by apply Htask.
    + repeat emits_step.
  - repeat first [apply emits_cap_and_route; assumption | emits_step].
Qed.

End Emits.

(** ** The shape of the open albums *)

Section AlbumShape.
Import Bot Trace.
Variable w : world.

Lemma wf_with_pending (s : store) (uid : Z) (images : list image) :
  (length images <= 10)%nat ->
  albums_well_formed s -> albums_well_formed (with_pending s uid images).
Proof. intros _ Hs. exact Hs. Qed.

Lemma wf_with_model (s : store) (uid : Z) (model : string) :
  albums_well_formed s -> albums_well_formed (with_model s uid model).
Proof. intros Hs. exact Hs. Qed.

Lemma wf_without_group (s : store) (group_id : string) :
  albums_well_formed s -> albums_well_formed (without_group s group_id).
Proof.
  intros Hs k data Hk. unfold without_group in Hk. cbn [media_groups] in Hk.
  apply lookup_delete_Some in Hk as [_ Hk]. by apply Hs.
Qed.

Lemma wf_empty_store : albums_well_formed empty_store.
Proof. intros k data Hk. unfold empty_store in Hk. cbn in Hk. by rewrite lookup_empty in Hk. Qed.

Lemma truthy_id_some (o : option string) :
  truthy_id o = true -> exists x : string, o = Some x /\ x <> ""%string.
Proof.
  destruct o as [x |]; [| discriminate]. simpl.
  destruct (String.eqb_spec x ""); [discriminate |]. intros _. by exists x.
Qed.

Lemma keeps_wf_collect_album (upd : update) (group_id file_id : string) :
  msg_media_group_id (upd_message upd) = Some group_id ->
  group_id <> ""%string -> file_id <> ""%string ->
  keeps albums_well_formed any_value
        (collect_album upd group_id file_id
           (strip (default [] (msg_caption (upd_message upd))))).
Proof.
  intros Hid Hgroup Hfile s Hs.
  unfold collect_album. rewrite !bind_run. unfold group_is_open.
  destruct (bool_decide (is_Some (media_groups s !! group_id))).
  - unfold group_append, store_of, trace_of. cbn [fst snd app].
    split; [| split; [constructor | done]].
    intros k data Hk. cbn [media_groups] in Hk.
    destruct (decide (k = group_id)) as [-> | Hne].
    + rewrite lookup_alter_eq in Hk.
      destruct (media_groups s !! group_id) as [old |] eqn:Hold; [| discriminate].
      injection Hk as <-.
      destruct (Hs group_id old Hold) as (Hne & Hall & Hg & Hkey & Huser & Hcap).
      unfold add_file_id, album_well_formed. cbn.
      repeat split; try assumption.
      * by destruct (file_ids old).
      * apply Forall_app. split; [exact Hall | by repeat constructor].
    + rewrite lookup_alter_ne in Hk by congruence. by apply Hs.
  - unfold group_open, emit, store_of, trace_of. cbn [fst snd app].
    assert (Hopened : albums_well_formed
              (Store (<[group_id :=
                          Group [file_id]
                                (strip (default [] (msg_caption (upd_message upd))))
                                (effective_user upd) upd]> (media_groups s))
                     (users s))).
    { intros k data Hk. cbn [media_groups] in Hk.
      destruct (decide (k = group_id)) as [-> | Hne].
      - rewrite lookup_insert_eq in Hk. injection Hk as <-.
        unfold album_well_formed. cbn. repeat split; try done.
        by repeat constructor.
      - rewrite lookup_insert_ne in Hk by congruence. by apply Hs. }
    rewrite bind_run. cbn.
    split; [exact Hopened | split; [| done]].
    constructor; [exact Hopened | constructor].
Qed.

Lemma keeps_wf_handle_images (upd : update) :
  keeps albums_well_formed any_value (handle_images w upd).
Proof.
  destruct (truthy_id (msg_media_group_id (upd_message upd))
            && truthy_id (album_file_id (upd_message upd))) eqn:Hpart.
  - apply andb_true_iff in Hpart as [Hgroup Hfile].
    destruct (truthy_id_some _ Hgroup) as (group_id & Hid & Hg).
    destruct (truthy_id_some _ Hfile) as (file_id & Hfid & Hf).
    intros s Hs. unfold handle_images. rewrite bind_get_user_data. cbv zeta.
    rewrite Hgroup, Hfile, andb_false_r. rewrite Hid, Hfid.
    cbn [default from_option]. unfold id.
    by apply keeps_wf_collect_album.
  - apply keeps_handle_images; [apply wf_with_pending |].
    intros group_id _ Hgroup Hfile. rewrite Hgroup, Hfile in Hpart. discriminate.
Qed.

Lemma keeps_wf_flush (group_id : string) :
  keeps albums_well_formed any_value (process_media_group_after_delay w group_id).
Proof.
  unfold process_media_group_after_delay.
  apply keeps_bind with (Q := any_value).
  - intros s Hs. unfold group_pop, store_of, trace_of. cbn [fst snd].
    split; [by apply wf_without_group | split; [constructor | done]].
  - intros [data |] _; [| by apply keeps_ret].
    apply keeps_process_media_group. apply wf_with_pending.
Qed.

Lemma keeps_wf (ev : event) : keeps albums_well_formed any_value (handle w ev).
Proof.
  destruct ev as [c upd | upd | upd | group_id]; simpl.
  - apply keeps_handle_command. apply wf_with_model.
  - apply keeps_wf_handle_images.
  - apply keeps_handle_text. apply wf_with_pending.
  - apply keeps_wf_flush.
Qed.

Lemma run_trace_cons (ev : event) (rest : list event) (s : store) :
  run_trace w (ev :: rest) s
  = trace_of (handle w ev s) ++ run_trace w rest (store_of (handle w ev s)).
Proof.
  unfold run_trace. simpl. unfold store_of, trace_of.
  destruct (handle w ev s) as [[r s1] t1]. simpl.
  by destruct (run w rest s1).
Qed.

Lemma run_keeps_wf (evs : list event) (s : store) :
  albums_well_formed s ->
  albums_well_formed (fst (run w evs s))
  /\ Forall (fun sa => albums_well_formed (fst sa)) (run_trace w evs s).
Proof.
  revert s. induction evs as [| ev rest IH]; intros s Hs.
  - split; [exact Hs | constructor].
  - destruct (keeps_wf ev s Hs) as (Hs1 & Ht1 & _).
    destruct (IH _ Hs1) as (Hs2 & Ht2).
    rewrite run_cons, run_trace_cons. split; [exact Hs2 | by apply Forall_app].
Qed.

Lemma tasks_app (t1 t2 : trace) : tasks (t1 ++ t2) = tasks t1 ++ tasks t2.
Proof. unfold tasks, actions. by rewrite map_app, omap_app. Qed.

Lemma tasks_emitted (group_id : string) (t : trace) :
  Forall (fun sa => snd sa <> CreateTask group_id) t ->
  filter (fun g => g = group_id) (tasks t) = [].
Proof.
  unfold tasks, actions. induction 1 as [| [s a] t Ha Ht IH]; [reflexivity |].
  cbn [map omap list_omap snd]. cbn [snd] in Ha.
  destruct a; try exact IH.
  rewrite filter_cons_False; [exact IH | congruence].
Qed.

(** An event that adds no part to the album starts no timer for it. *)
Lemma no_timer_without_part (group_id : string) (ev : event) (s : store) :
  album_part group_id ev = None ->
  filter (fun g => g = group_id) (tasks (trace_of (handle w ev s))) = [].
Proof.
  intros Hpart. apply tasks_emitted.
  set (P := fun a : action => a <> CreateTask group_id).
  assert (Hchat : forall (chat : Z) (a : action), addressee a = Some chat -> P a).
  { intros chat a Ha. unfold P. by destruct a. }
  assert (Hapi : forall c : api_call, P (ApiCall c)) by done.
  assert (Hget : forall fid : string, P (GetFile fid)) by done.
  destruct ev as [c upd | upd | upd | other]; simpl handle.
  - by apply (emits_handle_command P (effective_user upd) (Hchat _)).
  - apply (emits_handle_images w P (effective_user upd) (Hchat _) Hapi Hget);
      [reflexivity |].
    intros g Hid Hgroup Hfile. unfold P. intros [= ->].
    unfold album_part in Hpart.
    rewrite Hgroup, Hfile, bool_decide_eq_true_2 in Hpart by exact Hid.
    cbn [andb] in Hpart. rewrite Hpart in Hfile. discriminate.
  - by apply (emits_handle_text w P (effective_user upd) (Hchat _) Hapi).
  - destruct (media_groups s !! other) as [data |] eqn:Hopen.
    + rewrite (flush_open w other s data Hopen).
      by apply (emits_process_media_group w P (effective_user (first_update data))
                  (Hchat _) Hapi Hget).
    + rewrite (flush_closed w other s Hopen). constructor.
Qed.

End AlbumShape.

(** X20. Every open album is well formed, and stays so: it holds at
    least one file id and no empty one; its key is the non-empty
    [media_group_id] of the update that opened it; its owner is the
    sender of that update; its caption is the stripped caption of that
    update. The property holds in the store after any events and in the
    store of each effect on the way, from any store that has it, the
    empty store among them. *)
Theorem open_albums_are_well_formed (w : world) (evs : list Bot.event) :
  (forall s : Bot.store,
      Trace.albums_well_formed s ->
      Trace.albums_well_formed (fst (Bot.run w evs s))
      /\ Forall (fun sa => Trace.albums_well_formed (fst sa)) (Trace.run_trace w evs s))
  /\ (forall (group_id : string) (data : Bot.group),
        Bot.media_groups (fst (Bot.run w evs Trace.empty_store)) !! group_id = Some data ->
        Bot.file_ids data <> []
        /\ Forall (fun fid : string => fid <> ""%string) (Bot.file_ids data)
        /\ group_id <> ""%string
        /\ Bot.msg_media_group_id (Bot.upd_message (Bot.first_update data)) = Some group_id
        /\ Bot.user_id data = Bot.effective_user (Bot.first_update data)
        /\ Bot.caption data
           = strip (default [] (Bot.msg_caption (Bot.upd_message (Bot.first_update data))))).
Proof.
  split; [intros s; apply run_keeps_wf |].
  intros group_id data Hopen.
  destruct (run_keeps_wf w evs Trace.empty_store wf_empty_store) as [Hend _].
  exact (Hend group_id data Hopen).
Qed.

(** X22. One timer per album. Through any events that do not flush the
    album, the task that will flush it is created exactly once if the
    album was closed at the start and one of the events adds a part to
    it, and not at all otherwise: however many parts follow the first,
    none of them starts the delay anew. *)
Theorem one_timer_per_album
    (w : world) (group_id : string) (evs : list Bot.event) (s : Bot.store) :
  (forall ev, ev ∈ evs -> ev <> Bot.Flush group_id) ->
  filter (fun g => g = group_id) (Trace.tasks (Trace.run_trace w evs s))
  = match Bot.media_groups s !! group_id, omap (Bot.album_part group_id) evs with
    | None, _ :: _ => [group_id]
    | _, _ => []
    end.
Proof.
  revert s. induction evs as [| ev rest IH]; intros s Hflush.
  { by destruct (Bot.media_groups s !! group_id). }
  rewrite run_trace_cons, tasks_app, filter_app.
  rewrite IH by (intros ev' Hin; apply Hflush; by right).
  assert (Hev : ev <> Bot.Flush group_id) by (apply Hflush; by left).
  cbn [omap list_omap].
  destruct (Bot.album_part group_id ev) as [fid |] eqn:Hpart.
  - destruct ev as [c upd | upd | upd | other]; try discriminate. simpl Bot.handle.
    destruct (handle_images_album_entry w group_id upd s fid Hpart) as (-> & _ & _).
    rewrite app_nil_r.
    unfold Bot.album_part in Hpart.
    destruct (truthy_id (Bot.msg_media_group_id (Bot.upd_message upd))) eqn:Hgroup; [| done].
    destruct (bool_decide (Bot.msg_media_group_id (Bot.upd_message upd) = Some group_id))
      eqn:Hid; [| done].
    apply bool_decide_eq_true_1 in Hid.
    destruct (truthy_id (Bot.album_file_id (Bot.upd_message upd))) eqn:Hfile; [| done].
    cbn [andb] in Hpart. rewrite Hid in Hgroup. rewrite Hpart in Hfile.
    rewrite (handle_images_album_run w group_id upd s fid Hid Hgroup Hpart Hfile).
    destruct (Bot.media_groups s !! group_id) as [data |]; [reflexivity |].
    cbv zeta. unfold Bot.trace_of, Trace.tasks, Bot.actions. cbn.
    by destruct (decide (group_id = group_id)).
  - rewrite (no_timer_without_part w group_id ev s Hpart). cbn [app].
    destruct (keeps_album_is w group_id (Bot.media_groups s !! group_id) ev Hpart Hev
                s eq_refl) as (-> & _ & _).
    reflexivity.
Qed.

(** ** [rag_store.py]: [_chunk_text] *)

Section RagSlices.
Import Rag.

Lemma occurs_in_trans (a b c : text) : occurs_in a b -> occurs_in b c -> occurs_in a c.
Proof.
  intros (p1 & q1 & ->) (p2 & q2 & ->).
  exists (p2 ++ p1), (q1 ++ q2). by rewrite <- !app_assoc.
Qed.

Lemma take_occurs (n : nat) (t : text) : occurs_in (take n t) t.
Proof. exists [], (drop n t). simpl. by rewrite take_drop. Qed.

Lemma slice_occurs (t : text) (a b : Z) : occurs_in (slice t a b) t.
Proof.
  unfold slice. cbv zeta.
  set (j := Z.to_nat (clamp_index (len t) a)).
  set (k := Z.to_nat (clamp_index (len t) b - clamp_index (len t) a)).
  exists (take j t), (drop k (drop j t)). by rewrite take_drop, take_drop.
Qed.

Lemma slice_length_le (t : text) (a n : Z) :
  0 <= n -> len (slice t a (a + n)) <= n.
Proof.
  intros Hn. unfold slice, clamp_index, len. cbv zeta.
  rewrite length_take, length_drop.
  destruct (Z.ltb_spec a 0); destruct (Z.ltb_spec (a + n) 0); lia.
Qed.

Lemma slice_prefix (t : text) (b : Z) :
  0 <= b -> slice t 0 b = take (Z.to_nat b) t.
Proof.
  intros Hb. unfold slice, clamp_index, len. cbv zeta.
  destruct (Z.ltb_spec 0 0); [lia |]. destruct (Z.ltb_spec b 0); [lia |].
  rewrite (Z.min_l 0) by lia. rewrite Z.sub_0_r. change (Z.to_nat 0) with 0%nat.
  rewrite drop_0.
  destruct (Z.le_gt_cases b (Z.of_nat (length t))).
  - by rewrite Z.min_l.
  - rewrite Z.min_r, Nat2Z.id by lia. by rewrite !take_ge by lia.
Qed.

(** Stripping a text that starts with a character that is no white
    space removes characters at the end only. *)
Lemma strip_prefix (c : char) (rest : text) :
  isspace c = false ->
  exists kept : text, strip (c :: rest) = c :: kept /\ strip (c :: rest) `prefix_of` c :: rest.
Proof.
  intros Hc. unfold strip. rewrite (lstrip_keep c rest Hc).
  destruct (lstrip_split (rev (c :: rest))) as (pre & Hsplit & Hpre).
  assert (Hwhole : c :: rest = rev (lstrip (rev (c :: rest))) ++ rev pre).
  { rewrite <- rev_app_distr, <- Hsplit. by rewrite rev_involutive. }
  destruct (rev (lstrip (rev (c :: rest)))) as [| x kept] eqn:Hkept.
  - simpl in Hwhole.
    assert (Hrev : pre = rev rest ++ [c]).
    { rewrite <- (rev_involutive pre), <- Hwhole. reflexivity. }
    rewrite Hrev in Hpre. apply Forall_app in Hpre as [_ Hlast].
    apply Forall_cons in Hlast as [Hspace _]. congruence.
  - simpl in Hwhole. injection Hwhole as <- Hrest.
    exists kept. split; [reflexivity |]. exists (rev pre). simpl. by rewrite Hrest.
Qed.

Lemma trimmed_head (t : text) (c : char) (rest : text) :
  trimmed t -> t = c :: rest -> isspace c = false.
Proof. intros Ht ->. by destruct Ht. Qed.

End RagSlices.

Section RagChunks.
Import Rag.
Variables chunk_size overlap : Z.
Variable t : text.
Hypothesis size_pos : 0 < chunk_size.

(** The piece of the text that one pass strips. *)
Lemma chunk_step_piece (start : Z) :
  exists piece : text,
    fst (chunk_step chunk_size overlap t start) = strip piece
    /\ occurs_in piece t
    /\ len piece <= chunk_size
    /\ (start = 0 -> t <> [] -> exists k : nat, (0 < k)%nat /\ piece = take k t).
Proof.
  unfold chunk_step. cbv zeta.
  assert (Hhalf : 0 <= chunk_size / 2) by (apply Z.div_pos; lia).
  pose proof (slice_length_le t start chunk_size ltac:(lia)) as Hwin.
  assert (Hfirst : start = 0 -> t <> [] ->
            exists k : nat, (0 < k)%nat /\ slice t start (start + chunk_size) = take k t).
  { intros -> Hne. exists (Z.to_nat chunk_size). split; [lia |].
    rewrite Z.add_0_l. apply slice_prefix. lia. }
  destruct (start + chunk_size <? len t).
  - destruct (Z.gtb_spec (rfind space (slice t start (start + chunk_size)))
                (chunk_size / 2)) as [Hcut | Hkeep]; cbn [fst].
    + eexists. split; [reflexivity |].
      rewrite slice_to_nonneg by lia.
      split; [| split].
      * eapply occurs_in_trans; [apply take_occurs | apply slice_occurs].
      * unfold len in *. rewrite length_take. lia.
      * intros Hz Hne. destruct (Hfirst Hz Hne) as (k & Hk & Hslice).
        rewrite Hslice in *.
        exists (Z.to_nat (rfind space (take k t) + 1) `min` k)%nat.
        split; [lia |]. by rewrite take_take.
    + eexists. split; [reflexivity |].
      split; [apply slice_occurs | split; [exact Hwin | exact Hfirst]].
  - cbn [fst]. eexists. split; [reflexivity |].
    split; [apply slice_occurs | split; [exact Hwin | exact Hfirst]].
Qed.

Lemma chunk_step_chunk (start : Z) :
  let chunk := fst (chunk_step chunk_size overlap t start) in
  trimmed chunk /\ len chunk <= chunk_size /\ occurs_in chunk t.
Proof.
  intros chunk. subst chunk.
  destruct (chunk_step_piece start) as (piece & -> & Hocc & Hlen & _).
  split; [apply strip_trimmed |]. split.
  - pose proof (strip_length piece). unfold len in *. lia.
  - eapply occurs_in_trans; [apply strip_occurs | exact Hocc].
Qed.

(** The first pass on a text that starts with a character that is no
    white space: its chunk is a non-empty prefix of the text. *)
Lemma chunk_step_first (c : char) (rest : text) :
  t = c :: rest -> isspace c = false ->
  fst (chunk_step chunk_size overlap t 0) <> []
  /\ fst (chunk_step chunk_size overlap t 0) `prefix_of` t.
Proof.
  intros Ht Hc.
  destruct (chunk_step_piece 0) as (piece & -> & _ & _ & Hfirst).
  destruct (Hfirst eq_refl) as (k & Hk & ->); [by rewrite Ht |].
  rewrite Ht. destruct k as [| k]; [lia |]. simpl take.
  destruct (strip_prefix c (take k rest) Hc) as (kept & Hkept & Hpre).
  split; [by rewrite Hkept |].
  etrans; [exact Hpre |]. apply prefix_cons, prefix_take.
Qed.

(** The next value of [start]. *)
Lemma chunk_step_next (start : Z) :
  let end_ := start + chunk_size in
  let last_space := rfind space (slice t start end_) in
  snd (chunk_step chunk_size overlap t start)
  = if end_ <? len t
    then (if last_space >? chunk_size / 2 then start + last_space + 1 else end_) - overlap
    else len t.
Proof.
  intros end_ last_space. unfold chunk_step. cbv zeta. fold end_. fold last_space.
  pose proof (rfind_upper space (slice t start end_)) as Hup. fold last_space in Hup.
  pose proof (slice_length_le t start chunk_size ltac:(lia)) as Hwin. fold end_ in Hwin.
  destruct (Z.ltb_spec end_ (len t)) as [Hin | Hout].
  - destruct (Z.gtb_spec last_space (chunk_size / 2)); cbn [snd].
    + destruct (Z.ltb_spec (start + last_space + 1) (len t)); [reflexivity | lia].
    + destruct (Z.ltb_spec end_ (len t)); [reflexivity | lia].
  - cbn [snd]. destruct (Z.ltb_spec end_ (len t)); [lia | reflexivity].
Qed.

Lemma chunk_loop_unfold (fuel : nat) (start : Z) (chunks : list text) :
  chunk_loop (S fuel) chunk_size overlap t start chunks
  = if start <? len t
    then chunk_loop fuel chunk_size overlap t
           (snd (chunk_step chunk_size overlap t start))
           (if nonempty (fst (chunk_step chunk_size overlap t start))
            then chunks ++ [fst (chunk_step chunk_size overlap t start)]
            else chunks)
    else Some chunks.
Proof.
  simpl. destruct (start <? len t); [| reflexivity].
  by destruct (chunk_step chunk_size overlap t start).
Qed.

Section Terminates.
Hypothesis overlap_small : overlap <= chunk_size / 2.

Lemma chunk_step_progress (start : Z) :
  start < len t -> start < snd (chunk_step chunk_size overlap t start).
Proof.
  intros Hstart. rewrite chunk_step_next. cbv zeta.
  assert (Hhalf : chunk_size / 2 < chunk_size) by (apply Z.div_lt; lia).
  destruct (Z.ltb_spec (start + chunk_size) (len t)); [| lia].
  destruct (Z.gtb_spec (rfind space (slice t start (start + chunk_size)))
              (chunk_size / 2)); lia.
Qed.

Lemma rag_chunk_loop_result (fuel : nat) :
  forall (start : Z) (chunks : list text),
    0 <= start ->
    (Z.to_nat (len t - start) < fuel)%nat ->
    exists more : list text,
      chunk_loop fuel chunk_size overlap t start chunks = Some (chunks ++ more)
      /\ Forall (fun c : text =>
                   c <> [] /\ trimmed c /\ len c <= chunk_size /\ occurs_in c t) more
      /\ (start < len t ->
          nonempty (fst (chunk_step chunk_size overlap t start)) = true ->
          head more = Some (fst (chunk_step chunk_size overlap t start))).
Proof.
  induction fuel as [| fuel IH]; intros start chunks Hstart Hfuel; [lia |].
  rewrite chunk_loop_unfold.
  destruct (Z.ltb_spec start (len t)) as [Hin | Hout].
  - pose proof (chunk_step_progress start Hin) as Hnext.
    destruct (chunk_step_chunk start) as (Htrim & Hlen & Hocc).
    remember (fst (chunk_step chunk_size overlap t start)) as chunk eqn:Hchunk.
    remember (snd (chunk_step chunk_size overlap t start)) as start' eqn:Hstart'.
    destruct (IH start' (if nonempty chunk then chunks ++ [chunk] else chunks))
      as (more & Hrun & Hall & _); [lia | lia |].
    rewrite Hrun. clear Hchunk. destruct chunk as [| x chunk']; cbn [nonempty].
    + exists more. split; [reflexivity | split; [exact Hall | discriminate]].
    + exists ((x :: chunk') :: more). split; [by rewrite <- app_assoc |].
      split; [| reflexivity]. constructor; [| exact Hall]. auto.
  - exists []. rewrite app_nil_r. split; [reflexivity |]. split; [constructor | lia].
Qed.

End Terminates.

Section Diverges.
Hypothesis overlap_large : chunk_size <= overlap.
Hypothesis text_long : chunk_size < len t.

Lemma chunk_step_back (start : Z) :
  start <= 0 -> snd (chunk_step chunk_size overlap t start) <= 0.
Proof.
  intros Hstart. rewrite chunk_step_next. cbv zeta.
  pose proof (rfind_upper space (slice t start (start + chunk_size))) as Hup.
  pose proof (slice_length_le t start chunk_size ltac:(lia)) as Hwin.
  destruct (Z.ltb_spec (start + chunk_size) (len t)); [| lia].
  destruct (Z.gtb_spec (rfind space (slice t start (start + chunk_size)))
              (chunk_size / 2)); lia.
Qed.

Lemma rag_chunk_loop_diverges (fuel : nat) :
  forall (start : Z) (chunks : list text),
    start <= 0 -> chunk_loop fuel chunk_size overlap t start chunks = None.
Proof.
  induction fuel as [| fuel IH]; intros start chunks Hstart; [reflexivity |].
  rewrite chunk_loop_unfold.
  destruct (Z.ltb_spec start (len t)); [| lia].
  apply IH, chunk_step_back, Hstart.
Qed.

End Diverges.
End RagChunks.

(** X23. [_chunk_text] with a positive [chunk_size] and an [overlap] of
    at most [chunk_size // 2] (the defaults 500 and 50 are such)
    returns, and each chunk it returns is not empty, has no white space
    at either end, has at most [chunk_size] characters and occurs in
    the stripped text. A blank text gives no chunk and any other text
    at least one; the first chunk is a prefix of the stripped text; a
    stripped text of at most [chunk_size] characters is returned as the
    one chunk. *)
Theorem rag_chunk_text_chunks (t : text) (chunk_size overlap : Z) :
  0 < chunk_size -> overlap <= chunk_size / 2 ->
  exists chunks : list text,
    Rag._chunk_text t chunk_size overlap = Some chunks
    /\ Forall (fun c : text =>
                 c <> [] /\ trimmed c /\ len c <= chunk_size
                 /\ occurs_in c (strip t)) chunks
    /\ (strip t = [] <-> chunks = [])
    /\ (forall c : text, head chunks = Some c -> c `prefix_of` strip t)
    /\ (strip t <> [] -> len (strip t) <= chunk_size -> chunks = [strip t]).
Proof.
  intros Hsize Hoverlap. unfold Rag._chunk_text, Rag._chunk_text_fuel.
  destruct (strip t) as [| c rest] eqn:Hstrip; cbn [nonempty negb].
  { exists []. repeat split; first [done | constructor]. }
  rewrite <- Hstrip.
  pose proof (strip_trimmed t) as Htrim.
  pose proof (trimmed_head (strip t) c rest Htrim Hstrip) as Hc.
  destruct (chunk_step_first chunk_size overlap (strip t) Hsize c rest Hstrip Hc)
    as (Hne & Hpre).
  destruct (rag_chunk_loop_result chunk_size overlap (strip t) Hsize Hoverlap
              (S (length t)) 0 []) as (chunks & Hrun & Hall & Hhead).
  { lia. }
  { pose proof (strip_length t). unfold len. lia. }
  assert (Hlen : 0 < len (strip t)) by (rewrite Hstrip; unfold len; simpl; lia).
  assert (Hfirst : head chunks = Some (fst (Rag.chunk_step chunk_size overlap (strip t) 0))).
  { apply Hhead; [exact Hlen |].
    by destruct (fst (Rag.chunk_step chunk_size overlap (strip t) 0)). }
  exists chunks. split; [exact Hrun |]. split; [exact Hall |].
  split; [| split].
  - split; [rewrite Hstrip; discriminate | intros ->; discriminate].
  - intros c' Hc'. rewrite Hfirst in Hc'. by injection Hc' as <-.
  - intros _ Hshort.
    assert (Hskip : forall fuel : nat,
               Rag.chunk_loop (S (S fuel)) chunk_size overlap (strip t) 0 []
               = Some [strip t]).
    { intros fuel. rewrite chunk_loop_unfold by exact Hsize.
      destruct (Z.ltb_spec 0 (len (strip t))); [| lia].
      rewrite chunk_step_next by exact Hsize. cbv zeta.
      destruct (Z.ltb_spec (0 + chunk_size) (len (strip t))); [lia |].
      assert (Hwhole : fst (Rag.chunk_step chunk_size overlap (strip t) 0) = strip t).
      { unfold Rag.chunk_step. cbv zeta.
        destruct (Z.ltb_spec (0 + chunk_size) (len (strip t))); [lia |]. cbn [fst].
        rewrite slice_prefix by lia. rewrite take_ge by (unfold len in *; lia).
        apply strip_idempotent. }
      rewrite Hwhole, Hstrip. cbn [nonempty app]. rewrite <- Hstrip.
      rewrite chunk_loop_unfold by exact Hsize.
      destruct (Z.ltb_spec (len (strip t)) (len (strip t))); [lia | reflexivity]. }
    destruct (length t) as [| n] eqn:Hn.
    + pose proof (strip_length t) as Hle. rewrite Hn in Hle.
      unfold len in Hlen. lia.
    + rewrite Hskip in Hrun. by injection Hrun as <-.
Qed.

(** X24. [_chunk_text] does not return when [overlap] is [chunk_size]
    or more and the stripped text is longer than [chunk_size]: [start]
    never gets past 0, so the loop goes on whatever the number of
    passes allowed. *)
Theorem rag_chunk_text_diverges (t : text) (chunk_size overlap : Z) (fuel : nat) :
  0 < chunk_size -> chunk_size <= overlap -> chunk_size < len (strip t) ->
  Rag._chunk_text_fuel fuel t chunk_size overlap = None.
Proof.
  intros Hsize Hoverlap Hlong. unfold Rag._chunk_text_fuel.
  destruct (strip t) as [| c rest] eqn:Hstrip.
  { unfold len in Hlong. simpl in Hlong. lia. }
  cbn [nonempty negb]. rewrite <- Hstrip in *.
  by apply rag_chunk_loop_diverges.
Qed.

(** X25. A part of an album is collected in every mode, and silently:
    the update that adds a part to an album is answered with nothing,
    fetches nothing and calls nothing, whatever the mode of the sender
    (a text-to-image mode, where a single photo is refused, included);
    it leaves the user data and the other albums as they are, and the
    one effect it may have is the creation of the task that will flush
    the album, when the part is the first. *)
Theorem album_part_is_collected_silently
    (w : world) (group_id : string) (upd : Bot.update) (s : Bot.store) (fid : string) :
  let x := Bot.handle_images w upd s in
  Bot.album_part group_id (Bot.Images upd) = Some fid ->
  Bot.result_of x = inr tt
  /\ Bot.users (Bot.store_of x) = Bot.users s
  /\ (forall other : string,
        other <> group_id ->
        Bot.media_groups (Bot.store_of x) !! other = Bot.media_groups s !! other)
  /\ (exists data : Bot.group,
        Bot.media_groups (Bot.store_of x) !! group_id = Some data
        /\ last (Bot.file_ids data) = Some fid)
  /\ Bot.actions (Bot.trace_of x)
     = match Bot.media_groups s !! group_id with
       | Some _ => []
       | None => [Bot.CreateTask group_id]
       end.
Proof.
  intros x Hpart. subst x.
  unfold Bot.album_part in Hpart.
  destruct (truthy_id (Bot.msg_media_group_id (Bot.upd_message upd))) eqn:Hgroup; [| done].
  destruct (bool_decide (Bot.msg_media_group_id (Bot.upd_message upd) = Some group_id))
    eqn:Hid; [| done].
  apply bool_decide_eq_true_1 in Hid.
  destruct (truthy_id (Bot.album_file_id (Bot.upd_message upd))) eqn:Hfile; [| done].
  cbn [andb] in Hpart. rewrite Hid in Hgroup. rewrite Hpart in Hfile.
  rewrite (handle_images_album_run w group_id upd s fid Hid Hgroup Hpart Hfile).
  destruct (Bot.media_groups s !! group_id) as [data |]; cbv zeta;
    unfold Bot.result_of, Bot.store_of, Bot.trace_of, Bot.actions;
    cbn [fst snd map Bot.media_groups Bot.users];
    (split; [reflexivity |]); (split; [reflexivity |]);
    (split; [intros other Hother; by rewrite lookup_insert_ne |]);
    (split; [| reflexivity]); eexists; rewrite lookup_insert_eq;
    (split; [reflexivity |]).
  - unfold Bot.add_file_id. cbn [Bot.file_ids]. apply last_snoc.
  - reflexivity.
Qed.


(** ** The further theorems at concrete inputs *)

Lemma blank_text_asks_for_input_witness :
  Bot.handle_text Samples.failing_world (Samples.text_update 7 "  ")
    (Samples.one_user 7 "gpt-5.2" [[x01]])
  = (inr tt, Samples.one_user 7 "gpt-5.2" [[x01]],
     [(Samples.one_user 7 "gpt-5.2" [[x01]], Bot.ReplyText 7 Bot.MsgEnterMessage)]).
Proof.
  apply (blank_text_asks_for_input Samples.failing_world (Samples.text_update 7 "  ")
           (Samples.one_user 7 "gpt-5.2" [[x01]])).
  - vm_compute. reflexivity.
  - vm_compute. reflexivity.
Defined.

Lemma blank_text_in_edit_mode_empties_buffer_witness :
  Bot.handle_text Samples.failing_world (Samples.text_update 7 "  ")
    (Samples.one_user 7 "gpt-image-1" [[x01]])
  = (inr tt, Bot.with_pending (Samples.one_user 7 "gpt-image-1" [[x01]]) 7 [],
     [(Bot.with_pending (Samples.one_user 7 "gpt-image-1" [[x01]]) 7 [],
       Bot.ReplyText 7 (Bot.MsgWorkingImages "gpt-image-1"));
      (Bot.with_pending (Samples.one_user 7 "gpt-image-1" [[x01]]) 7 [],
       Bot.EditText 7 (Bot.MsgStr ErrEmptyCommand))]).
Proof.
  apply (proj1 (blank_text_in_edit_mode_empties_buffer Samples.failing_world
                  (Samples.text_update 7 "  ")
                  (Samples.one_user 7 "gpt-image-1" [[x01]])
                  ltac:(vm_compute; reflexivity)
                  ltac:(vm_compute; split; discriminate)
                  ltac:(vm_compute; reflexivity))).
Defined.

Lemma text_to_image_request_witness :
  Bot.api_calls (Bot.trace_of (Bot.handle_text Samples.working_world
                                 (Samples.text_update 7 " a cat ")
                                 (Samples.one_user 7 "create" [[x01]])))
  = [ImagesGenerate (GenerateRequest (of_ascii "a cat") "gpt-image-1.5" "1536x1024"
                       (Some "high"%string) (Some "png"%string) None)].
Proof.
  apply (proj1 (text_to_image_request Samples.working_world
                  (Samples.text_update 7 " a cat ")
                  (Samples.one_user 7 "create" [[x01]])
                  ltac:(vm_compute; reflexivity)
                  ltac:(vm_compute; discriminate))).
Defined.

Lemma edit_text_sends_buffer_witness :
  Bot.api_calls (Bot.trace_of (Bot.handle_text Samples.working_world
                                 (Samples.text_update 7 "make it blue")
                                 (Samples.one_user 7 "gpt-image-1" [[x01]; [x02]])))
  = [ImagesEdit
       (EditRequest "gpt-image-1"
          [ApiFile 0 "png" [x01] "image/png"; ApiFile 1 "png" [x02] "image/png"]
          (of_ascii "SYSTEM make it blue") "high" "1536x1024" "png")].
Proof.
  apply (proj1 (edit_text_sends_buffer Samples.working_world
                  (Samples.text_update 7 "make it blue")
                  (Samples.one_user 7 "gpt-image-1" [[x01]; [x02]])
                  [ApiFile 0 "png" [x01] "image/png"; ApiFile 1 "png" [x02] "image/png"]
                  ltac:(vm_compute; reflexivity)
                  ltac:(vm_compute; split; discriminate)
                  ltac:(vm_compute; discriminate)
                  ltac:(vm_compute; reflexivity))).
Defined.

Lemma unreadable_image_stops_edit_witness :
  Bot.api_calls (Bot.trace_of (Bot.handle_text Samples.unreadable_world
                                 (Samples.text_update 7 "make it blue")
                                 (Samples.one_user 7 "gpt-image-1" [[x01]; [x02]])))
  = []
  /\ Trace.edits (Bot.trace_of (Bot.handle_text Samples.unreadable_world
                                  (Samples.text_update 7 "make it blue")
                                  (Samples.one_user 7 "gpt-image-1" [[x01]; [x02]])))
     = [Bot.MsgStr ErrBadImage].
Proof.
  destruct (unreadable_image_stops_edit Samples.unreadable_world
              (Samples.text_update 7 "make it blue")
              (Samples.one_user 7 "gpt-image-1" [[x01]; [x02]]) [x02]
              ltac:(vm_compute; reflexivity)
              ltac:(vm_compute; split; discriminate)
              ltac:(vm_compute; discriminate)
              ltac:(vm_compute; apply list_elem_of_further, list_elem_of_here)
              ltac:(vm_compute; reflexivity))
    as (Hcalls & Hedits & _).
  split; [exact Hcalls | exact Hedits].
Defined.

Lemma image_reply_is_photo_or_error_witness :
  Bot.store_of (Bot.process_and_reply Samples.working_world
                  (Samples.text_update 7 "make it blue") 7 [[x01]]
                  (of_ascii "make it blue") (Samples.one_user 7 "gpt-image-1" []))
  = Samples.one_user 7 "gpt-image-1" []
  /\ Trace.photos
       (Bot.trace_of (Bot.process_and_reply Samples.working_world
                        (Samples.text_update 7 "make it blue") 7 [[x01]]
                        (of_ascii "make it blue")
                        (Samples.one_user 7 "gpt-image-1" [])))
     = [[x02]]
  /\ Trace.edits
       (Bot.trace_of (Bot.process_and_reply Samples.failing_world
                        (Samples.text_update 7 "make it blue") 7 [[x01]]
                        (of_ascii "make it blue")
                        (Samples.one_user 7 "gpt-image-1" [])))
     = [Trace.image_error_reply Samples.boom].
Proof.
  destruct (image_reply_is_photo_or_error Samples.working_world
              (Samples.text_update 7 "make it blue") 7 [[x01]]
              (of_ascii "make it blue") (Samples.one_user 7 "gpt-image-1" [])
              ltac:(vm_compute; discriminate))
    as (Hstore & _ & _ & _ & Hsent).
  destruct (image_reply_is_photo_or_error Samples.failing_world
              (Samples.text_update 7 "make it blue") 7 [[x01]]
              (of_ascii "make it blue") (Samples.one_user 7 "gpt-image-1" [])
              ltac:(vm_compute; discriminate))
    as (_ & _ & _ & _ & Hshown).
  split; [exact Hstore |]. split.
  - vm_compute in Hsent. vm_compute. exact (proj1 Hsent).
  - vm_compute in Hshown. vm_compute. exact (proj2 Hshown).
Defined.

Lemma moderation_errors_are_masked_witness :
  Bot._format_image_error
    (Exn OtherException (Some "moderation_blocked"%string) (ErrExternal (of_ascii "refused")))
  = Bot.MsgModerationBlocked
  /\ Bot._format_image_error
       (Exn OtherException (Some "rate_limit"%string)
          (ErrExternal (of_ascii "moderation_blocked")))
     = Bot.MsgStr (ErrExternal (of_ascii "moderation_blocked")).
Proof.
  split.
  - apply (proj1 (moderation_errors_are_masked
                    (Exn OtherException (Some "moderation_blocked"%string)
                       (ErrExternal (of_ascii "refused"))))).
    reflexivity.
  - apply (proj2 (proj2 (moderation_errors_are_masked
                           (Exn OtherException (Some "rate_limit"%string)
                              (ErrExternal (of_ascii "moderation_blocked")))))
             "rate_limit"%string).
    + reflexivity.
    + discriminate.
    + discriminate.
Defined.

Lemma chat_text_sends_first_image_witness :
  Bot.api_calls (Bot.trace_of (Bot.handle_text Samples.working_world
                                 (Samples.text_update 7 "what is this?")
                                 (Samples.one_user 7 "gpt-5.2" [[x01]; [x02]])))
  = [ChatCompletions (ChatRequest "gpt-5.2" (of_ascii "what is this?")
                        (Some ("image/png"%string, [x01])))].
Proof.
  apply (proj1 (chat_text_sends_first_image Samples.working_world
                  (Samples.text_update 7 "what is this?")
                  (Samples.one_user 7 "gpt-5.2" [[x01]; [x02]])
                  ltac:(vm_compute; reflexivity)
                  ltac:(vm_compute; discriminate))).
Defined.

Lemma chat_answer_is_split_witness :
  exists parts : list text,
    Trace.replies (Bot.trace_of (Bot.process_and_reply Samples.working_world
                                   (Samples.text_update 7 "hello") 7 []
                                   (of_ascii "hello") (Samples.one_user 7 "gpt-5.2" [])))
    = Bot.MsgWorking :: map Bot.MsgPart parts
    /\ concat parts = of_ascii "ok".
Proof.
  destruct (chat_answer_is_split Samples.working_world
              (Samples.text_update 7 "hello") 7 [] (of_ascii "hello")
              (Samples.one_user 7 "gpt-5.2" []) (of_ascii "ok")
              ltac:(vm_compute; reflexivity)
              ltac:(vm_compute; reflexivity))
    as (parts & Hreplies & Hcat & _).
  exists parts. split; [exact Hreplies | exact Hcat].
Defined.

Lemma largest_photo_size_is_fetched_witness :
  Bot.album_file_id (Bot.upd_message (Samples.sized_photo_update 7))
  = Some "large"%string
  /\ Bot.fetched (Bot.trace_of (Bot.handle_images Samples.working_world
                                  (Samples.sized_photo_update 7)
                                  (Samples.one_user 7 "gpt-image-1" [])))
     = ["large"%string].
Proof.
  destruct (largest_photo_size_is_fetched Samples.working_world
              (Samples.sized_photo_update 7) (Samples.one_user 7 "gpt-image-1" [])
              (Bot.PhotoSize "small" 10)
              [Bot.PhotoSize "large" 90; Bot.PhotoSize "medium" 50;
               Bot.PhotoSize "other" 90] eq_refl)
    as (before & m & after & _ & _ & _ & Hid & Hfetched).
  assert (Hm : Bot.ps_file_id m = "large"%string).
  { assert (Hlarge : Bot.album_file_id (Bot.upd_message (Samples.sized_photo_update 7))
                     = Some "large"%string) by (vm_compute; reflexivity).
    rewrite Hlarge in Hid. by injection Hid as <-. }
  split; [by rewrite Hid, Hm |].
  rewrite Hfetched by (vm_compute; reflexivity). by rewrite Hm.
Defined.

Lemma non_image_document_is_refused_witness :
  Bot.handle_images Samples.working_world
    (Samples.document_update 7 None "doc" (Some "application/pdf"%string))
    (Samples.one_user 7 "gpt-image-1" [[x01]])
  = (inr tt, Samples.one_user 7 "gpt-image-1" [[x01]],
     [(Samples.one_user 7 "gpt-image-1" [[x01]], Bot.ReplyText 7 Bot.MsgImagesOnly)]).
Proof.
  apply (non_image_document_is_refused Samples.working_world
           (Samples.document_update 7 None "doc" (Some "application/pdf"%string))
           (Samples.one_user 7 "gpt-image-1" [[x01]])
           (Bot.Document "doc" (Some "application/pdf"%string))).
  - reflexivity.
  - reflexivity.
  - vm_compute. reflexivity.
  - right. vm_compute. reflexivity.
Defined.

Lemma failed_download_drops_the_batch_witness :
  Bot.handle_images Samples.offline_world (Samples.photo_update 7 None "f1" None)
    (Samples.one_user 7 "gpt-image-1" [[x01]])
  = (inl Samples.boom, Samples.one_user 7 "gpt-image-1" [[x01]],
     [(Samples.one_user 7 "gpt-image-1" [[x01]], Bot.GetFile "f1")]).
Proof.
  apply (proj1 (failed_download_drops_the_batch Samples.offline_world
                  (Samples.one_user 7 "gpt-image-1" [[x01]]))).
  - vm_compute. reflexivity.
  - vm_compute. reflexivity.
  - vm_compute. reflexivity.
  - vm_compute. reflexivity.
Defined.

Lemma text_to_image_modes_use_no_image_witness :
  Bot.fetched (Bot.trace_of (Bot.handle Samples.working_world
                               (Bot.Images (Samples.photo_update 7 None "f1"
                                              (Some "a cat"%string)))
                               (Samples.one_user 7 "create" [[x01]])))
  = [].
Proof.
  apply (proj1 (text_to_image_modes_use_no_image Samples.working_world
                  (Bot.Images (Samples.photo_update 7 None "f1" (Some "a cat"%string)))
                  (Samples.one_user 7 "create" [[x01]])
                  ltac:(vm_compute; reflexivity))).
Defined.

Lemma chat_mode_keeps_one_image_witness :
  Bot.pending_of
    (Bot.store_of (Bot.handle_images Samples.working_world
                     (Samples.photo_update 7 None "f1" None)
                     (Samples.one_user 7 "gpt-5.2" [[x01]; [x02]])))
    7
  = [Samples.bytes_of "f1"].
Proof.
  refine (proj1 (proj2 (proj1 (chat_mode_keeps_one_image Samples.working_world
                                 (Samples.one_user 7 "gpt-5.2" [[x01]; [x02]]))
                          (Samples.photo_update 7 None "f1" None)
                          "f1"%string (Samples.bytes_of "f1") _ _ _ _)));
    vm_compute; reflexivity.
Defined.


Lemma process_checks_before_calling_witness :
  Processor.process_with Samples.working_world [] (of_ascii "   ") "gpt-image-1"
    "low" "1024x1024" "webp"
  = (inl (value_error ErrImageCount), [])
  /\ Processor.process_with Samples.working_world [[x01]] (of_ascii "   ") "gpt-image-1"
       "low" "1024x1024" "webp"
     = (inl (value_error ErrEmptyCommand), [])
  /\ exists (req : edit_request) (result : images_response) (d : text),
       snd (Processor.process_with Samples.working_world [[x01]] (of_ascii "make it blue")
              "gpt-image-1" "low" "1024x1024" "webp")
       = [ImagesEdit req]
       /\ images_edit Samples.working_world req = inr result
       /\ head (resp_data result) = Some d
       /\ b64decode Samples.working_world d = inr [x02].
Proof.
  destruct (process_checks_before_calling Samples.working_world []
              (of_ascii "   ") "gpt-image-1" "low" "1024x1024" "webp") as (Hcount & _).
  destruct (process_checks_before_calling Samples.working_world [[x01]]
              (of_ascii "   ") "gpt-image-1" "low" "1024x1024" "webp")
    as (_ & Hblank & _).
  destruct (process_checks_before_calling Samples.working_world [[x01]]
              (of_ascii "make it blue") "gpt-image-1" "low" "1024x1024" "webp")
    as (_ & _ & _ & _ & Hresult).
  split; [| split].
  - apply Hcount. unfold len. simpl. lia.
  - apply Hblank; [unfold len; simpl; lia | vm_compute; reflexivity].
  - destruct (Hresult [x02] None ltac:(vm_compute; reflexivity))
      as (req & result & d & Hcall & Hanswer & Hd & _ & Hdecode & _).
    exists req, result, d. by repeat split.
Defined.

Lemma process_create_request_by_model_witness :
  Processor.process_create_with Samples.working_world (of_ascii "   ") "dall-e-3"
    "low" "1024x1024" "webp"
  = (inl (value_error ErrEmptyDescription), [])
  /\ exists req : generate_request,
       snd (Processor.process_create_with Samples.working_world (of_ascii " a cat ")
              "dall-e-3" "low" "1024x1024" "webp")
       = [ImagesGenerate req]
       /\ gr_quality req = None /\ gr_output_format req = None.
Proof.
  split.
  - apply (proj1 (process_create_request_by_model Samples.working_world
                    (of_ascii "   ") "dall-e-3" "low" "1024x1024" "webp")).
    vm_compute. reflexivity.
  - destruct (proj2 (process_create_request_by_model Samples.working_world
                       (of_ascii " a cat ") "dall-e-3" "low" "1024x1024" "webp")
                ltac:(vm_compute; reflexivity))
      as (req & Hcall & _ & _ & _ & Hmodel & _ & Hfamily & _).
    exists req. split; [exact Hcall |].
    rewrite Hmodel in Hfamily. vm_compute in Hfamily.
    destruct Hfamily as (Hq & Hf & _). by split.
Defined.

Lemma chat_calls_and_mime_type_witness :
  Processor.process_text_only Samples.working_world (of_ascii "  ") "gpt-5.2"
  = (inl (value_error ErrEmptyMessage), [])
  /\ Processor.sniff_mime [xff; xd8; xff; xe0] = "image/jpeg"%string.
Proof.
  split.
  - apply (proj1 (chat_calls_and_mime_type Samples.working_world [] (of_ascii "  ")
                    "gpt-5.2")).
    vm_compute. reflexivity.
  - apply (proj1 (proj2 (proj2 (proj2
             (chat_calls_and_mime_type Samples.working_world [xff; xd8; xff; xe0]
                (of_ascii "  ") "gpt-5.2"))))).
    reflexivity.
Defined.

Lemma chunk_text_parts_are_few_witness :
  exists chunks : list text,
    Chunk.chunk_text (of_ascii "abcdefghij") 4 = Some chunks
    /\ Forall (fun c : text => 1 <= len c <= 4) chunks
    /\ (Z.of_nat (length chunks) - 1) * (4 / 2 + 1) < len (of_ascii "abcdefghij").
Proof.
  destruct (chunk_text_parts_are_few (of_ascii "abcdefghij") 4 ltac:(lia))
    as (chunks & Hrun & Hall & _ & Hcount).
  exists chunks. split; [exact Hrun |]. split; [exact Hall | exact Hcount].
Defined.

Lemma open_albums_are_well_formed_witness :
  Trace.albums_well_formed
    (fst (Bot.run Samples.working_world Samples.album_events Trace.empty_store)).
Proof.
  apply (proj1 (open_albums_are_well_formed Samples.working_world Samples.album_events)).
  intros group_id data Hopen. vm_compute in Hopen. discriminate.
Defined.

Lemma one_timer_per_album_witness :
  filter (fun g => g = "album"%string)
         (Trace.tasks (Trace.run_trace Samples.working_world Samples.album_events
                         (Samples.one_user 7 "gpt-image-1" [])))
  = ["album"%string].
Proof.
  rewrite (one_timer_per_album Samples.working_world "album" Samples.album_events
             (Samples.one_user 7 "gpt-image-1" [])).
  - vm_compute. reflexivity.
  - intros ev Hin. unfold Samples.album_events in Hin.
    repeat (apply elem_of_cons in Hin as [-> | Hin]; [discriminate |]).
    by apply elem_of_nil in Hin.
Defined.

Lemma rag_chunk_text_chunks_witness :
  Rag._chunk_text (of_ascii "  hello world  ") Rag.CHUNK_SIZE Rag.CHUNK_OVERLAP
  = Some [of_ascii "hello world"].
Proof.
  destruct (rag_chunk_text_chunks (of_ascii "  hello world  ")
              Rag.CHUNK_SIZE Rag.CHUNK_OVERLAP
              ltac:(vm_compute; reflexivity)
              ltac:(vm_compute; discriminate))
    as (chunks & Hrun & _ & _ & _ & Hshort).
  rewrite Hrun, Hshort; [reflexivity | vm_compute; discriminate | vm_compute; discriminate].
Defined.

Lemma rag_chunk_text_diverges_witness :
  Rag._chunk_text_fuel 1000 (of_ascii "ab cd") 2 2 = None.
Proof.
  apply rag_chunk_text_diverges; [lia | lia | vm_compute; reflexivity].
Defined.

Lemma album_part_is_collected_silently_witness :
  Bot.actions (Bot.trace_of (Bot.handle_images Samples.working_world
                               (Samples.photo_update 7 (Some "album"%string) "f3" None)
                               (Samples.with_album 7 "create" [] "album"
                                  ["f1"; "f2"]%string "a cat")))
  = [].
Proof.
  destruct (album_part_is_collected_silently Samples.working_world "album"
              (Samples.photo_update 7 (Some "album"%string) "f3" None)
              (Samples.with_album 7 "create" [] "album" ["f1"; "f2"]%string "a cat")
              "f3" ltac:(vm_compute; reflexivity))
    as (_ & _ & _ & _ & Hactions).
  rewrite Hactions. vm_compute. reflexivity.
Defined.
